(** * ToggleTaskbarAutohide: registry toggler, shell restart, session replay

    A shallow embedding of [ToggleTaskbarAutohide.cpp].  The Win32 calls the
    program makes are modelled as operations on an explicit world (registry,
    desktop, process table); the program's own functions are transcribed
    statement by statement on top of them. *)

From Stdlib Require Import ZArith.
From Stdlib.Strings Require Import Byte.
From stdpp Require Import gmap strings list fin_maps sorting.

Open Scope Z_scope.

(** ** Bytes and Win32 constants *)

Abbreviation BYTE := Byte.byte.

#[global] Instance BYTE_inhabited : Inhabited BYTE := populate x00.

(** [#define TASKBAR_ALWAYS_VISIBLE 0x02], [#define TASKBAR_AUTOHIDE 0x03] *)
Definition TASKBAR_ALWAYS_VISIBLE : BYTE := x02.
Definition TASKBAR_AUTOHIDE : BYTE := x03.

(** winerror.h *)
Definition ERROR_SUCCESS : Z := 0.
Definition ERROR_FILE_NOT_FOUND : Z := 2.
Definition ERROR_ACCESS_DENIED : Z := 5.
Definition ERROR_MORE_DATA : Z := 234.

(** winnt.h *)
Definition KEY_READ : Z := 0x20019.
Definition KEY_WRITE : Z := 0x20006.
Definition REG_BINARY : Z := 3.

(** ** The registry and the calls made on it *)

Module Registry.

(** A registry value: its type tag and its data. *)
Record RegValue := { rv_type : Z; rv_data : list BYTE }.

(** A key under [HKEY_CURRENT_USER]: the access mask its ACL grants the
    caller, its named values, and the status [RegSetValueExW] reports for a
    write under it ([ERROR_SUCCESS] when the write is carried out). *)
Record RegKey := {
  rk_granted : Z;
  rk_values : gmap string RegValue;
  rk_set_status : Z
}.

(** An open handle is the sub-key path it was opened on. *)
Abbreviation HKEY := string.

Inductive ApiCall :=
| Call_RegOpenKeyExW (subKey : string) (samDesired : Z) (status : Z)
| Call_RegQueryValueExW (hKey : string) (valueName : string) (status : Z)
| Call_RegSetValueExW (hKey : string) (valueName : string)
    (type : Z) (data : list BYTE) (status : Z)
| Call_RegCloseKey (hKey : string)
| Call_SendMessageTimeoutW (lParam : string) (timeout : Z).

(** The world the registry code runs in: the hive of the current user and
    the calls made so far, oldest first. *)
Record World := { hkcu : gmap string RegKey; calls : list ApiCall }.

Definition M (A : Type) : Type := World -> A * World.

#[export] Instance M_ret : MRet M := fun A a w => (a, w).
#[export] Instance M_bind : MBind M :=
  fun A B f m w => let (a, w') := m w in f a w'.

(** The world after some more calls have been recorded. *)
Definition logged (w : World) (cs : list ApiCall) : World :=
  {| hkcu := hkcu w; calls := calls w ++ cs |}.

Definition emit (c : ApiCall) : M unit := fun w => (tt, logged w [c]).

(** The calls a computation adds to the record when run in [w]. *)
Definition made_by {A} (m : M A) (w : World) : list ApiCall :=
  drop (length (calls w)) (calls (m w).2).

(** The access check of [RegOpenKeyExW]: every requested right is granted. *)
Definition access_ok (granted samDesired : Z) : bool :=
  Z.land granted samDesired =? samDesired.

Definition open_status (reg : gmap string RegKey) (subKey : string)
    (samDesired : Z) : Z :=
  match reg !! subKey with
  | None => ERROR_FILE_NOT_FOUND
  | Some k => if access_ok (rk_granted k) samDesired then ERROR_SUCCESS
              else ERROR_ACCESS_DENIED
  end.

(** [RegOpenKeyExW(HKEY_CURRENT_USER, subKey, 0, samDesired, &hKey)]:
    returns the status and the handle; the handle means something only
    when the status is [ERROR_SUCCESS]. *)
Definition RegOpenKeyExW (subKey : string) (samDesired : Z) : M (Z * HKEY) :=
  fun w =>
    let st := open_status (hkcu w) subKey samDesired in
    (emit (Call_RegOpenKeyExW subKey samDesired st) ;; mret (st, subKey)) w.

(** [RegQueryValueExW(hKey, name, NULL, &type, buf, &cb)]: on success the
    data overwrite the front of the buffer and [cb] becomes their length; a
    buffer shorter than the data is [ERROR_MORE_DATA] with [cb] set to the
    size needed; a missing value is [ERROR_FILE_NOT_FOUND].
    Returns (status, type, buffer, cb). *)
Definition RegQueryValueExW (hKey : HKEY) (name : string) (type : Z)
    (buf : list BYTE) (cb : nat) : M (Z * Z * list BYTE * nat) :=
  fun w =>
    let r :=
      match hkcu w !! hKey ≫= (fun k => rk_values k !! name) with
      | None => (ERROR_FILE_NOT_FOUND, type, buf, cb)
      | Some v =>
          let n := length (rv_data v) in
          if (cb <? n)%nat then (ERROR_MORE_DATA, rv_type v, buf, n)
          else (ERROR_SUCCESS, rv_type v, rv_data v ++ drop n buf, n)
      end in
    (emit (Call_RegQueryValueExW hKey name r.1.1.1) ;; mret r) w.

(** [RegSetValueExW(hKey, name, 0, type, buf, cb)]: stores the first [cb]
    bytes of the buffer under [name], with the given type. *)
Definition RegSetValueExW (hKey : HKEY) (name : string) (type : Z)
    (buf : list BYTE) (cb : nat) : M Z :=
  fun w =>
    let data := take cb buf in
    let st := from_option rk_set_status ERROR_FILE_NOT_FOUND (hkcu w !! hKey) in
    let reg' :=
      match hkcu w !! hKey with
      | Some k =>
          if st =? ERROR_SUCCESS then
            <[hKey := {| rk_granted := rk_granted k;
                         rk_values := <[name := {| rv_type := type; rv_data := data |}]>
                                        (rk_values k);
                         rk_set_status := rk_set_status k |}]> (hkcu w)
          else hkcu w
      | None => hkcu w
      end in
    (st, {| hkcu := reg';
            calls := calls w ++ [Call_RegSetValueExW hKey name type data st] |}).

Definition RegCloseKey (hKey : HKEY) : M unit := emit (Call_RegCloseKey hKey).

(** [SendMessageTimeoutW(HWND_BROADCAST, WM_SETTINGCHANGE, 0, lParam,
    SMTO_ABORTIFHUNG, timeout, NULL)]; the result is ignored by the caller. *)
Definition SendMessageTimeoutW (lParam : string) (timeout : Z) : M unit :=
  emit (Call_SendMessageTimeoutW lParam timeout).

End Registry.

(** ** The setting toggler *)

Module Toggler.
Import Registry.

Definition keyPath : string :=
  "SOFTWARE\Microsoft\Windows\CurrentVersion\Explorer\StuckRects3".
Definition altKeyPath : string :=
  "SOFTWARE\Microsoft\Windows\CurrentVersion\Explorer\StuckRects2".

(** [BYTE settings[64];] is not initialised: its contents before the read
    are whatever the stack holds, given here byte by byte. *)
Definition uninitialised (stack : nat -> BYTE) (n : nat) : list BYTE :=
  stack <$> seq 0 n.

(** The right-hand side of line 366. *)
Definition toggled (b : BYTE) : BYTE :=
  if Byte.eqb b TASKBAR_ALWAYS_VISIBLE then TASKBAR_AUTOHIDE
  else TASKBAR_ALWAYS_VISIBLE.

(** [BYTE GetCurrentTaskbarSetting()] (lines 306-345).  The nested
    fallback of lines 328-332 is written as two steps: the second open is
    made only when the first failed, and the function returns its default
    when the status it is left with is a failure. *)
Definition GetCurrentTaskbarSetting (stack : nat -> BYTE) : M BYTE :=
  '(result, hKey) ← RegOpenKeyExW keyPath KEY_READ;
  '(result, hKey) ←
     (if negb (result =? ERROR_SUCCESS)
      then RegOpenKeyExW altKeyPath KEY_READ
      else mret (result, hKey));
  if negb (result =? ERROR_SUCCESS) then mret TASKBAR_ALWAYS_VISIBLE
  else
    let settings := uninitialised stack 64 in
    '(result, type, settings, settingsSize) ←
       RegQueryValueExW hKey "Settings" REG_BINARY settings 64;
    RegCloseKey hKey ;;
    if negb (result =? ERROR_SUCCESS) then mret TASKBAR_ALWAYS_VISIBLE
    else mret (settings !!! 8%nat).

(** [bool ToggleTaskbarSetting()] (lines 347-374). *)
Definition ToggleTaskbarSetting (stack : nat -> BYTE) : M bool :=
  '(result, hKey) ← RegOpenKeyExW keyPath (Z.lor KEY_READ KEY_WRITE);
  '(result, hKey) ←
     (if negb (result =? ERROR_SUCCESS)
      then RegOpenKeyExW altKeyPath (Z.lor KEY_READ KEY_WRITE)
      else mret (result, hKey));
  if negb (result =? ERROR_SUCCESS) then mret false
  else
    let settings := uninitialised stack 64 in
    '(result, type, settings, settingsSize) ←
       RegQueryValueExW hKey "Settings" REG_BINARY settings 64;
    if negb (result =? ERROR_SUCCESS) then
      RegCloseKey hKey ;; mret false
    else
      let settings := <[8%nat := toggled (settings !!! 8%nat)]> settings in
      result ← RegSetValueExW hKey "Settings" REG_BINARY settings settingsSize;
      RegCloseKey hKey ;;
      SendMessageTimeoutW "TraySettings" 1000 ;;
      mret (result =? ERROR_SUCCESS).

(** *** Vocabulary for stating properties of the two functions *)

(** The key a caller asking for [sam] ends up with: the current name if
    it opens, else the legacy name if that opens. *)
Definition opens (reg : gmap string RegKey) (sam : Z) : option string :=
  if open_status reg keyPath sam =? ERROR_SUCCESS then Some keyPath
  else if open_status reg altKeyPath sam =? ERROR_SUCCESS then Some altKeyPath
  else None.

(** The [RegOpenKeyExW] calls that lead there. *)
Definition open_calls (reg : gmap string RegKey) (sam : Z) : list ApiCall :=
  Call_RegOpenKeyExW keyPath sam (open_status reg keyPath sam) ::
  (if open_status reg keyPath sam =? ERROR_SUCCESS then []
   else [Call_RegOpenKeyExW altKeyPath sam (open_status reg altKeyPath sam)]).

(** The "Settings" value stored under a key, and its data. *)
Definition stored_value (reg : gmap string RegKey) (k : string)
    : option RegValue :=
  reg !! k ≫= (fun key => rk_values key !! "Settings").

Definition stored_blob (reg : gmap string RegKey) (k : string)
    : option (list BYTE) :=
  rv_data <$> stored_value reg k.

(** The byte of the stored blob at offset [i]. *)
Definition stored_byte (reg : gmap string RegKey) (k : string) (i : nat)
    : option BYTE :=
  stored_blob reg k ≫= (fun blob => blob !! i).

(** The buffer [settings] after a successful read of [data]. *)
Definition read_into (stack : nat -> BYTE) (data : list BYTE) : list BYTE :=
  data ++ drop (length data) (uninitialised stack 64).

(** What [RegSetValueExW] is handed at line 367. *)
Definition written (stack : nat -> BYTE) (data : list BYTE) : list BYTE :=
  take (length data)
    (<[8%nat := toggled (read_into stack data !!! 8%nat)]> (read_into stack data)).

(** The status a write under key [k] will report. *)
Definition write_status (reg : gmap string RegKey) (k : string) : option Z :=
  rk_set_status <$> reg !! k.

(** The key names handed to [RegOpenKeyExW], in call order. *)
Definition opened_names (cs : list ApiCall) : list string :=
  omap (fun c => match c with
                 | Call_RegOpenKeyExW k _ _ => Some k
                 | _ => None
                 end) cs.

Definition is_write (c : ApiCall) : bool :=
  match c with Call_RegSetValueExW _ _ _ _ _ => true | _ => false end.

(** The three ways [ToggleTaskbarSetting] returns [false], under the names
    the design notes give them.  The function itself reports a bare [bool];
    the return statement taken shows in the last call made before it:
    an open (line 354), the close after a failed read (line 363), or the
    broadcast after a failed write (line 373). *)
Inductive ToggleError := ConfigUnavailable | MalformedConfig | WriteDenied.

Definition toggle_error (result : bool) (made : list ApiCall)
    : option ToggleError :=
  if result then None
  else match last made with
       | Some (Call_RegOpenKeyExW _ _ _) => Some ConfigUnavailable
       | Some (Call_RegCloseKey _) => Some MalformedConfig
       | Some (Call_SendMessageTimeoutW _ _) => Some WriteDenied
       | _ => None
       end.

(** *** More vocabulary: what a run of calls opened, closed and announced *)

(** The value stored under a key by name. *)
Definition value_at (reg : gmap string RegKey) (k name : string)
    : option RegValue :=
  reg !! k ≫= (fun key => rk_values key !! name).

(** The handles given to [RegCloseKey], in call order. *)
Definition closed_handles (cs : list ApiCall) : list string :=
  omap (fun c => match c with
                 | Call_RegCloseKey h => Some h
                 | _ => None
                 end) cs.

(** The handles obtained: the keys whose open succeeded, in call order. *)
Definition obtained_handles (cs : list ApiCall) : list string :=
  omap (fun c => match c with
                 | Call_RegOpenKeyExW k _ st =>
                     if st =? ERROR_SUCCESS then Some k else None
                 | _ => None
                 end) cs.

(** The settings-changed broadcasts sent: their text and timeout. *)
Definition broadcasts (cs : list ApiCall) : list (string * Z) :=
  omap (fun c => match c with
                 | Call_SendMessageTimeoutW p t => Some (p, t)
                 | _ => None
                 end) cs.

End Toggler.

(** ** Windows on the desktop *)

Module Desktop.

(** winuser.h *)
Definition SW_NORMAL : Z := 1.
Definition SW_SHOWNORMAL : Z := 1.
Definition SW_SHOWMINIMIZED : Z := 2.
Definition SW_MAXIMIZE : Z := 3.
Definition SW_SHOWMAXIMIZED : Z := 3.
Definition SW_MINIMIZE : Z := 6.
Definition WM_CLOSE : Z := 0x0010.
Definition HWND_TOP : Z := 0.
Definition HWND_BOTTOM : Z := 1.
Definition NULL : Z := 0.

Record RECT := { left : Z; top : Z; right : Z; bottom : Z }.

Record WINDOWPLACEMENT := { showCmd : Z; rcNormalPosition : RECT }.

(** A top-level window as the program can observe it: its handle, class
    name, visibility, placement, on-screen rectangle, the handles of its
    descendants, and what the shell automation chain
    (IShellWindows ... IPersistFolder2::GetCurFolder, SHGetPathFromIDList)
    yields for it: [None] when a step of the chain fails, [Some path]
    otherwise. *)
Record Window := {
  w_hwnd : Z;
  w_class : string;
  w_visible : bool;
  w_placement : WINDOWPLACEMENT;
  w_rect : RECT;
  w_children : list Z;
  w_folder : option string
}.

(** The top-level windows, topmost first (the order of [GetTopWindow] /
    [GetNextWindow(GW_HWNDNEXT)] and of [EnumWindows]), the foreground
    window and the window holding the keyboard focus of the caller. *)
Record Screen := {
  zorder : list Window;
  foreground : Z;
  focus : Z
}.

Definition with_zorder (s : Screen) (l : list Window) : Screen :=
  {| zorder := l; foreground := foreground s; focus := focus s |}.

(** [wcscmp(a, b) == 0] *)
Definition wcscmp_eq (a b : string) : bool := String.eqb a b.

(** [towlower] in the C locale: only A-Z are folded. *)
Definition towlower (c : Ascii.ascii) : Ascii.ascii :=
  let n := Ascii.N_of_ascii c in
  if ((65 <=? n) && (n <=? 90))%N then Ascii.ascii_of_N (n + 32) else c.

Fixpoint wcslwr (a : string) : string :=
  match a with
  | EmptyString => EmptyString
  | String c r => String (towlower c) (wcslwr r)
  end.

(** [_wcsicmp(a, b) == 0] *)
Definition wcsicmp_eq (a b : string) : bool := String.eqb (wcslwr a) (wcslwr b).

Definition is_cabinet (w : Window) : bool := wcscmp_eq (w_class w) "CabinetWClass".

Definition update_window (h : Z) (f : Window -> Window) (l : list Window)
    : list Window :=
  (fun w => if w_hwnd w =? h then f w else w) <$> l.

Definition set_show (cmd : Z) (w : Window) : Window :=
  {| w_hwnd := w_hwnd w; w_class := w_class w; w_visible := true;
     w_placement := {| showCmd := cmd;
                       rcNormalPosition := rcNormalPosition (w_placement w) |};
     w_rect := w_rect w; w_children := w_children w; w_folder := w_folder w |}.

Definition set_rect (r : RECT) (w : Window) : Window :=
  {| w_hwnd := w_hwnd w; w_class := w_class w; w_visible := w_visible w;
     w_placement := w_placement w;
     w_rect := r; w_children := w_children w; w_folder := w_folder w |}.

(** [ShowWindow(hwnd, cmd)]: the window is shown in the given state. *)
Definition ShowWindow (h cmd : Z) (s : Screen) : Screen :=
  with_zorder s (update_window h (set_show cmd) (zorder s)).

(** [a - b] on two [LONG]s: the difference in 32 bits, two's complement. *)
Definition LONG_sub (a b : Z) : Z := (a - b + 2 ^ 31) mod 2 ^ 32 - 2 ^ 31.

(** [MoveWindow(hwnd, x, y, w, h, TRUE)] *)
Definition MoveWindow (h x y width height : Z) (s : Screen) : Screen :=
  with_zorder s
    (update_window h
       (set_rect {| left := x; top := y; right := x + width; bottom := y + height |})
       (zorder s)).

(** [SetWindowPos(hwnd, insertAfter, 0, 0, 0, 0,
    SWP_NOMOVE | SWP_NOSIZE | SWP_NOACTIVATE)]: only the Z order changes;
    [HWND_TOP] puts the window first, [HWND_BOTTOM] last (among the
    windows that are not always-on-top, which is what [zorder] lists).
    A handle that names no window changes nothing. *)
Definition SetWindowPos (h insertAfter : Z) (s : Screen) : Screen :=
  let this := filter (fun w => w_hwnd w = h) (zorder s) in
  let others := filter (fun w => w_hwnd w ≠ h) (zorder s) in
  if insertAfter =? HWND_TOP then with_zorder s (this ++ others)
  else if insertAfter =? HWND_BOTTOM then with_zorder s (others ++ this)
  else s.

End Desktop.

(** ** Session capture and replay *)

Module Session.
Import Desktop.

(** [struct ExplorerWindow] *)
Record ExplorerWindow := {
  path : string;
  position : RECT;
  placement : WINDOWPLACEMENT;
  hwnd : Z;
  focusedHwnd : Z;
  zOrder : Z
}.

(** [std::map<DWORD, ExplorerWindow>]: entries kept in ascending key order;
    [windowsByZOrder[k] = v] replaces an entry with the same key. *)
Fixpoint map_assign (k : Z) (v : ExplorerWindow) (m : list (Z * ExplorerWindow))
    : list (Z * ExplorerWindow) :=
  match m with
  | [] => [(k, v)]
  | (k', v') :: m' =>
      if k <? k' then (k, v) :: (k', v') :: m'
      else if k =? k' then (k, v) :: m'
      else (k', v') :: map_assign k v m'
  end.

(** The body of the [while (hwnd)] loop of lines 424-502 for one window. *)
Definition capture_window (s : Screen) (w : Window) (zOrder : Z)
    (windowsByZOrder : list (Z * ExplorerWindow)) : list (Z * ExplorerWindow) :=
  if w_visible w then
    if is_cabinet w then
      let focusedHwnd :=
        if w_hwnd w =? foreground s then w_hwnd w
        else
          let childFocus := focus s in
          if negb (childFocus =? NULL) && bool_decide (childFocus ∈ w_children w)
          then childFocus else NULL in
      match w_folder w with
      | Some p =>
          map_assign zOrder
            {| path := p;
               position := rcNormalPosition (w_placement w);
               placement := w_placement w;
               hwnd := w_hwnd w;
               focusedHwnd := focusedHwnd;
               zOrder := zOrder |}
            windowsByZOrder
      | None => windowsByZOrder
      end
    else windowsByZOrder
  else windowsByZOrder.

(** The loop: [hwnd] walks down the Z order, [zOrder] is a [DWORD]
    counter incremented at every window. *)
Fixpoint capture_loop (s : Screen) (ws : list Window) (zOrder : Z)
    (windowsByZOrder : list (Z * ExplorerWindow)) : list (Z * ExplorerWindow) :=
  match ws with
  | [] => windowsByZOrder
  | w :: rest =>
      capture_loop s rest ((zOrder + 1) mod 2 ^ 32)
        (capture_window s w zOrder windowsByZOrder)
  end.

(** [std::vector<ExplorerWindow> GetOpenExplorerWindows()] *)
Definition GetOpenExplorerWindows (s : Screen) : list ExplorerWindow :=
  snd <$> capture_loop s (zorder s) 0 [].

Inductive WinCall :=
| Call_ShellExecuteW (file parameters : string)
| Call_ShowWindow (h cmd : Z)
| Call_MoveWindow (h x y width height : Z)
| Call_SetWindowPos (h insertAfter : Z).

(** What [RestoreExplorerWindows] acts on: the screen, its local map
    [openedPaths], and the window-manager calls made so far. *)
Record Replay := {
  screen : Screen;
  openedPaths : gmap string Z;
  made : list WinCall
}.

(** The callback given to [EnumWindows] at lines 600-663: the first
    visible folder window, in Z order, whose resolved path equals the
    target without regard to case. *)
Definition FindFolderWindow (targetPath : string) (s : Screen) : option Z :=
  w_hwnd <$>
    head (filter (fun w => is_cabinet w && w_visible w &&
                           from_option (fun p => wcsicmp_eq p targetPath) false (w_folder w) = true)
            (zorder s)).

Section Replay.

(** What the screen looks like half a second after
    [ShellExecuteW(NULL, "open", "explorer.exe", path, NULL, SW_SHOWNORMAL)]
    is decided by the shell, not by the program. *)
Variable shell_opens : string -> Screen -> Screen.

(** One iteration of the loop of lines 589-691. *)
Definition restore_window (window : ExplorerWindow) (r : Replay) : Replay :=
  if negb (String.eqb (path window) "") then
    let scr := shell_opens (path window) (screen r) in
    let made1 := made r ++ [Call_ShellExecuteW "explorer.exe" (path window)] in
    match FindFolderWindow (path window) scr with
    | Some newHwnd =>
        let pos := position window in
        let cmd := showCmd (placement window) in
        let scr := ShowWindow newHwnd SW_NORMAL scr in
        let scr := MoveWindow newHwnd (left pos) (top pos)
                     (LONG_sub (right pos) (left pos)) (LONG_sub (bottom pos) (top pos)) scr in
        let scr :=
          if cmd =? SW_MAXIMIZE then ShowWindow newHwnd SW_MAXIMIZE scr
          else if cmd =? SW_MINIMIZE then ShowWindow newHwnd SW_MINIMIZE scr
          else scr in
        let insertAfter := if cmd =? SW_MINIMIZE then HWND_BOTTOM else HWND_TOP in
        {| screen := SetWindowPos newHwnd insertAfter scr;
           openedPaths := <[path window := newHwnd]> (openedPaths r);
           made := made1
             ++ [Call_ShowWindow newHwnd SW_NORMAL;
                 Call_MoveWindow newHwnd (left pos) (top pos)
                   (LONG_sub (right pos) (left pos)) (LONG_sub (bottom pos) (top pos))]
             ++ (if cmd =? SW_MAXIMIZE then [Call_ShowWindow newHwnd SW_MAXIMIZE]
                 else if cmd =? SW_MINIMIZE then [Call_ShowWindow newHwnd SW_MINIMIZE]
                 else [])
             ++ [Call_SetWindowPos newHwnd insertAfter] |}
    | None =>
        {| screen := scr; openedPaths := openedPaths r; made := made1 |}
    end
  else r.

(** [for (auto it = windows.rbegin(); it != windows.rend(); ++it)] *)
Definition restore_loop (windows : list ExplorerWindow) (r : Replay) : Replay :=
  foldl (fun r window => restore_window window r) r (rev windows).

(** [void RestoreExplorerWindows(const std::vector<ExplorerWindow>&)] *)
Definition RestoreExplorerWindows (windows : list ExplorerWindow) (s : Screen)
    : Replay :=
  restore_loop windows {| screen := s; openedPaths := ∅; made := [] |}.

End Replay.

(** *** Vocabulary for stating properties of capture and replay *)

(** The path [GetOpenExplorerWindows] records for a window, if it records
    the window at all: visible, of the folder class, path resolved. *)
Definition shown_folder (w : Window) : option string :=
  if w_visible w then if is_cabinet w then w_folder w else None else None.

(** Launching [p] on screen [s] brings up a window the search finds. *)
Definition resolves (shell_opens : string -> Screen -> Screen)
    (p : string) (s : Screen) : Prop :=
  FindFolderWindow p (shell_opens p s) ≠ None.

(** The paths the replay launches for a list of captured windows given
    in replay order: the non-empty ones. *)
Definition launchable (ws : list ExplorerWindow) : list string :=
  filter (fun p => p ≠ "") (path <$> ws).

(** [w'] is [w] after changes that leave its handle, class, visibility
    and displayed folder alone. *)
Definition same_window (w w' : Window) : Prop :=
  w_hwnd w' = w_hwnd w /\ w_class w' = w_class w /\ w_folder w' = w_folder w.

(** The paths handed to [ShellExecuteW], in call order. *)
Definition launched (cs : list WinCall) : list string :=
  omap (fun c => match c with
                 | Call_ShellExecuteW _ p => Some p
                 | _ => None
                 end) cs.

(** *** More vocabulary: what the capture records, what the replay calls *)

(** The record lines 430-441 and 483 build for a window met at depth [z],
    when the window is recorded at all. *)
Definition record_of (s : Screen) (w : Window) (z : Z) : option ExplorerWindow :=
  match shown_folder w with
  | Some p =>
      Some {| path := p;
              position := rcNormalPosition (w_placement w);
              placement := w_placement w;
              hwnd := w_hwnd w;
              focusedHwnd :=
                if w_hwnd w =? foreground s then w_hwnd w
                else if negb (focus s =? NULL) && bool_decide (focus s ∈ w_children w)
                     then focus s else NULL;
              zOrder := z |}
  | None => None
  end.

(** The records of a stretch of the Z order that starts at depth [z]. *)
Fixpoint records_from (s : Screen) (ws : list Window) (z : Z)
    : list ExplorerWindow :=
  match ws with
  | [] => []
  | w :: rest => option_list (record_of s w z) ++ records_from s rest (z + 1)
  end.

(** A call that minimises a window or sends it to the bottom. *)
Definition puts_away (c : WinCall) : bool :=
  match c with
  | Call_ShowWindow _ cmd => (cmd =? SW_MINIMIZE) || (cmd =? SW_SHOWMINIMIZED)
  | Call_SetWindowPos _ insertAfter => insertAfter =? HWND_BOTTOM
  | _ => false
  end.

(** The show states [GetWindowPlacement] reports. *)
Definition placement_state (cmd : Z) : Prop :=
  cmd = SW_SHOWNORMAL \/ cmd = SW_SHOWMINIMIZED \/ cmd = SW_SHOWMAXIMIZED.

End Session.

(** ** Killing the shell process *)

Module Shell.
Import Desktop.

(** tlhelp32.h, the two fields the program reads *)
Record PROCESSENTRY32 := { szExeFile : string; th32ProcessID : Z }.

Definition PROCESS_TERMINATE : Z := 0x0001.

Inductive ProcCall :=
| Call_PostMessage (h msg : Z)
| Call_OpenProcess (access pid : Z) (opened : bool)
| Call_TerminateProcess (pid exitCode : Z)
| Call_CloseHandle (pid : Z).

(** The [EnumWindows] callback of lines 377-382, over every top-level
    window. *)
Fixpoint close_folder_windows (ws : list Window) : list ProcCall :=
  match ws with
  | [] => []
  | w :: rest =>
      (if is_cabinet w then [Call_PostMessage (w_hwnd w) WM_CLOSE] else [])
      ++ close_folder_windows rest
  end.

Section Kill.

(** [GetCurrentProcessId()] *)
Variable ourProcessId : Z.

(** Whether [OpenProcess(PROCESS_TERMINATE, 0, pid)] yields a handle. *)
Variable may_open : Z -> bool.

(** The [while (hRes)] loop of lines 391-400 over the entries that
    [Process32First] / [Process32Next] deliver. *)
Fixpoint kill_loop (entries : list PROCESSENTRY32) : list ProcCall :=
  match entries with
  | [] => []
  | pEntry :: rest =>
      (if wcscmp_eq (szExeFile pEntry) "explorer.exe"
          && negb (th32ProcessID pEntry =? ourProcessId)
       then
         if may_open (th32ProcessID pEntry) then
           [Call_OpenProcess PROCESS_TERMINATE (th32ProcessID pEntry) true;
            Call_TerminateProcess (th32ProcessID pEntry) 0;
            Call_CloseHandle (th32ProcessID pEntry)]
         else
           [Call_OpenProcess PROCESS_TERMINATE (th32ProcessID pEntry) false]
       else [])
      ++ kill_loop rest
  end.

(** Whether the loop body reaches [OpenProcess] for an entry. *)
Definition is_target (e : PROCESSENTRY32) : Prop :=
  szExeFile e = "explorer.exe" /\ th32ProcessID e ≠ ourProcessId.

(** [void KillExplorerProcess()]: the windows seen by [EnumWindows], then
    (150 ms later) the process snapshot. *)
Definition KillExplorerProcess (s : Screen) (snapshot : list PROCESSENTRY32)
    : list ProcCall :=
  close_folder_windows (zorder s) ++ kill_loop snapshot.

End Kill.

(** The process ids handed to [TerminateProcess]. *)
Definition terminated (cs : list ProcCall) : list Z :=
  omap (fun c => match c with
                 | Call_TerminateProcess pid _ => Some pid
                 | _ => None
                 end) cs.

(** The process ids the program asked a terminate handle for. *)
Definition targeted (cs : list ProcCall) : list Z :=
  omap (fun c => match c with
                 | Call_OpenProcess _ pid _ => Some pid
                 | _ => None
                 end) cs.

(** The windows [WM_CLOSE] was posted to, in call order. *)
Definition asked_to_close (cs : list ProcCall) : list Z :=
  omap (fun c => match c with
                 | Call_PostMessage h msg => if msg =? WM_CLOSE then Some h else None
                 | _ => None
                 end) cs.

(** The process handles obtained and the process handles closed, by
    process id, in call order. *)
Definition process_handles (cs : list ProcCall) : list Z :=
  omap (fun c => match c with
                 | Call_OpenProcess _ pid true => Some pid
                 | _ => None
                 end) cs.

Definition closed_process_handles (cs : list ProcCall) : list Z :=
  omap (fun c => match c with Call_CloseHandle pid => Some pid | _ => None end) cs.

End Shell.

(** ** The watchdog thread and the globals it shares with the main thread *)

Module Watchdog.

(** Where a thread running [WatchdogThreadProc] is: about to execute the
    statement of the given line, or gone. *)
Inductive watchdog_pc :=
| At_Sleep            (* line 101 *)
| At_PostMessage      (* lines 103-105 *)
| At_ClearRestarting  (* line 106 *)
| At_ClearHandle      (* line 107 *)
| At_Return           (* line 108 *)
| Exited.

(** Where the main thread is with respect to the shared globals. *)
Inductive main_pc :=
| In_MessageLoop
| At_SetRestarting                 (* line 125, lines 120-124 done *)
| At_Guard                         (* line 126 *)
| At_CreateThread                  (* line 127, the call *)
| At_StoreHandle (h : option nat)  (* line 127, the assignment *)
| At_Kill.                         (* lines 129-140 *)

Record State := {
  g_trayMode : bool;
  g_hwnd_valid : bool;
  g_isRestartingExplorer : bool;
  g_watchdogThread : option nat;   (* [None] is [NULL] *)
  pc_main : main_pc;
  watchdogs : list watchdog_pc;    (* every thread ever created, by handle *)
  posted : nat                     (* WM_TASKBARCREATED messages posted *)
}.

Definition init (tray hwnd_valid : bool) : State :=
  {| g_trayMode := tray; g_hwnd_valid := hwnd_valid;
     g_isRestartingExplorer := false; g_watchdogThread := None;
     pc_main := In_MessageLoop; watchdogs := []; posted := 0 |}.

Definition set_main (s : State) (pc : main_pc) : State :=
  {| g_trayMode := g_trayMode s; g_hwnd_valid := g_hwnd_valid s;
     g_isRestartingExplorer := g_isRestartingExplorer s;
     g_watchdogThread := g_watchdogThread s;
     pc_main := pc; watchdogs := watchdogs s; posted := posted s |}.

Definition set_watchdog (s : State) (i : nat) (pc : watchdog_pc) : State :=
  {| g_trayMode := g_trayMode s; g_hwnd_valid := g_hwnd_valid s;
     g_isRestartingExplorer := g_isRestartingExplorer s;
     g_watchdogThread := g_watchdogThread s;
     pc_main := pc_main s; watchdogs := <[i := pc]> (watchdogs s);
     posted := posted s |}.

(** One statement of one thread, under an interleaving of the two kinds of
    thread. *)
Inductive step : State -> State -> Prop :=
(* the main thread: ExecuteToggleAction *)
| main_enter s :
    pc_main s = In_MessageLoop ->
    step s (set_main s At_SetRestarting)
| main_set_restarting s :
    pc_main s = At_SetRestarting ->
    step s {| g_trayMode := g_trayMode s; g_hwnd_valid := g_hwnd_valid s;
              g_isRestartingExplorer := true;
              g_watchdogThread := g_watchdogThread s;
              pc_main := At_Guard; watchdogs := watchdogs s; posted := posted s |}
| main_guard s :
    pc_main s = At_Guard ->
    step s (set_main s
              (if g_trayMode s && bool_decide (g_watchdogThread s = None)
               then At_CreateThread else At_Kill))
| main_create_thread s :
    pc_main s = At_CreateThread ->
    step s {| g_trayMode := g_trayMode s; g_hwnd_valid := g_hwnd_valid s;
              g_isRestartingExplorer := g_isRestartingExplorer s;
              g_watchdogThread := g_watchdogThread s;
              pc_main := At_StoreHandle (Some (length (watchdogs s)));
              watchdogs := watchdogs s ++ [At_Sleep]; posted := posted s |}
| main_create_thread_fails s :
    pc_main s = At_CreateThread ->
    step s (set_main s (At_StoreHandle None))
| main_store_handle s h :
    pc_main s = At_StoreHandle h ->
    step s {| g_trayMode := g_trayMode s; g_hwnd_valid := g_hwnd_valid s;
              g_isRestartingExplorer := g_isRestartingExplorer s;
              g_watchdogThread := h;
              pc_main := At_Kill; watchdogs := watchdogs s; posted := posted s |}
| main_finish s :
    pc_main s = At_Kill ->
    step s (set_main s In_MessageLoop)
(* a watchdog thread: WatchdogThreadProc *)
| watchdog_sleep s i :
    watchdogs s !! i = Some At_Sleep ->
    step s (set_watchdog s i At_PostMessage)
| watchdog_post s i :
    watchdogs s !! i = Some At_PostMessage ->
    step s {| g_trayMode := g_trayMode s; g_hwnd_valid := g_hwnd_valid s;
              g_isRestartingExplorer := g_isRestartingExplorer s;
              g_watchdogThread := g_watchdogThread s;
              pc_main := pc_main s;
              watchdogs := <[i := At_ClearRestarting]> (watchdogs s);
              posted := if g_hwnd_valid s then S (posted s) else posted s |}
| watchdog_clear_restarting s i :
    watchdogs s !! i = Some At_ClearRestarting ->
    step s {| g_trayMode := g_trayMode s; g_hwnd_valid := g_hwnd_valid s;
              g_isRestartingExplorer := false;
              g_watchdogThread := g_watchdogThread s;
              pc_main := pc_main s;
              watchdogs := <[i := At_ClearHandle]> (watchdogs s);
              posted := posted s |}
| watchdog_clear_handle s i :
    watchdogs s !! i = Some At_ClearHandle ->
    step s {| g_trayMode := g_trayMode s; g_hwnd_valid := g_hwnd_valid s;
              g_isRestartingExplorer := g_isRestartingExplorer s;
              g_watchdogThread := None;
              pc_main := pc_main s;
              watchdogs := <[i := At_Return]> (watchdogs s);
              posted := posted s |}
| watchdog_return s i :
    watchdogs s !! i = Some At_Return ->
    step s (set_watchdog s i Exited).

(** A watchdog is pending until it has cleared [g_watchdogThread]
    (line 107); what is left of it then is [return 0]. *)
Definition is_pending (pc : watchdog_pc) : bool :=
  match pc with
  | At_Sleep | At_PostMessage | At_ClearRestarting | At_ClearHandle => true
  | At_Return | Exited => false
  end.

Definition count_pending (ts : list watchdog_pc) : nat :=
  length (filter (fun pc => is_pending pc = true) ts).

Definition pending (s : State) : nat := count_pending (watchdogs s).

(** A step that created a thread. *)
Definition spawns (s s' : State) : Prop :=
  (length (watchdogs s) < length (watchdogs s'))%nat.

Definition reachable (s : State) : Prop :=
  exists tray hwnd_valid, rtc step (init tray hwnd_valid) s.

(** What holds in every reachable state: at most one watchdog is pending;
    none is when the handle is [NULL] and no freshly created handle waits
    to be stored; and the handle is [NULL] from the guard to the store. *)
Definition inv (s : State) : Prop :=
  (pending s <= 1)%nat /\
  (g_watchdogThread s = None ->
   (forall h, pc_main s ≠ At_StoreHandle (Some h)) -> pending s = 0%nat) /\
  (pc_main s = At_CreateThread \/ (exists h, pc_main s = At_StoreHandle h) ->
   g_watchdogThread s = None).

(** A watchdog thread that has not completed: it has yet to return. *)
Definition is_running (pc : watchdog_pc) : bool :=
  match pc with
  | Exited => false
  | At_Sleep | At_PostMessage | At_ClearRestarting | At_ClearHandle
  | At_Return => true
  end.

Definition running (s : State) : nat :=
  length (filter (fun pc => is_running pc = true) (watchdogs s)).

(** A watchdog that is past lines 103-105, where the message is posted. *)
Definition has_posted (pc : watchdog_pc) : bool :=
  match pc with
  | At_Sleep | At_PostMessage => false
  | At_ClearRestarting | At_ClearHandle | At_Return | Exited => true
  end.

Definition count_posted (ts : list watchdog_pc) : nat :=
  length (filter (fun pc => has_posted pc = true) ts).

(** The messages posted are those of the watchdogs past line 105. *)
Definition posted_inv (s : State) : Prop :=
  posted s = if g_hwnd_valid s then count_posted (watchdogs s) else 0%nat.

(** Outside tray mode the guard of line 126 never lets the main thread
    reach [CreateThread]. *)
Definition no_tray_inv (s : State) : Prop :=
  g_trayMode s = false -> watchdogs s = [] /\ pc_main s ≠ At_CreateThread.

End Watchdog.

(** ** The tray icon *)

Module Tray.
Import Registry Toggler.

(** shellapi.h, winuser.h *)
Definition NIM_ADD : Z := 0.
Definition NIM_MODIFY : Z := 1.
Definition NIM_DELETE : Z := 2.
Definition NIF_MESSAGE : Z := 1.
Definition NIF_ICON : Z := 2.
Definition NIF_TIP : Z := 4.
Definition WM_USER : Z := 0x0400.

(** [#define WM_TRAYICON (WM_USER + 1)] *)
Definition WM_TRAYICON : Z := WM_USER + 1.

(** [NOTIFYICONDATA], the fields the program sets. *)
Record NOTIFYICONDATA := {
  cbSize : Z;
  hWnd : Z;
  uID : Z;
  uFlags : Z;
  uCallbackMessage : Z;
  hIcon : Z;
  szTip : string
}.

(** [NOTIFYICONDATA g_nid = { 0 };] and [ZeroMemory(&g_nid, sizeof(g_nid))] *)
Definition zeroed : NOTIFYICONDATA :=
  {| cbSize := 0; hWnd := 0; uID := 0; uFlags := 0; uCallbackMessage := 0;
     hIcon := 0; szTip := "" |}.

Inductive TrayCall :=
| Call_LoadImageW (file : string) (result : Z)
| Call_LoadIconW (result : Z)
| Call_Shell_NotifyIcon (message : Z) (data : NOTIFYICONDATA)
| Call_DestroyIcon (icon : Z).

(** What the tray code acts on: the registry world it reads the setting
    from, the global [g_nid], and the shell calls made so far. *)
Record TrayState := {
  registry : World;
  g_nid : NOTIFYICONDATA;
  shell_calls : list TrayCall
}.

(** The two tooltip texts of lines 702-707 and 729-734. *)
Definition tooltip_for (currentSetting : BYTE) : string :=
  if Byte.eqb currentSetting TASKBAR_AUTOHIDE
  then "Show the taskbar automatically"
  else "Hide the taskbar automatically".

(** [void UpdateTrayIconTooltip()] (lines 698-710) *)
Definition UpdateTrayIconTooltip (stack : nat -> BYTE) (t : TrayState)
    : TrayState :=
  let '(currentSetting, reg) := GetCurrentTaskbarSetting stack (registry t) in
  let nid := {| cbSize := cbSize (g_nid t); hWnd := hWnd (g_nid t);
                uID := uID (g_nid t); uFlags := NIF_TIP;
                uCallbackMessage := uCallbackMessage (g_nid t);
                hIcon := hIcon (g_nid t);
                szTip := tooltip_for currentSetting |} in
  {| registry := reg; g_nid := nid;
     shell_calls := shell_calls t ++ [Call_Shell_NotifyIcon NIM_MODIFY nid] |}.

Section Icons.

(** [sizeof(NOTIFYICONDATA)] *)
Variable sizeof_NOTIFYICONDATA : Z.

(** What [LoadImageW(..., "tray16.ico", IMAGE_ICON, 16, 16, LR_LOADFROMFILE)]
    and [LoadIconW(..., IDI_APPLICATION)] return; 0 is [NULL]. *)
Variable tray16_icon : Z.
Variable application_icon : Z.

(** [void SetupTrayIcon(HWND hwnd)] (lines 716-736) *)
Definition SetupTrayIcon (stack : nat -> BYTE) (hwnd : Z) (t : TrayState)
    : TrayState :=
  let loads :=
    Call_LoadImageW "tray16.ico" tray16_icon ::
    (if tray16_icon =? 0 then [Call_LoadIconW application_icon] else []) in
  let icon := if tray16_icon =? 0 then application_icon else tray16_icon in
  let '(currentSetting, reg) := GetCurrentTaskbarSetting stack (registry t) in
  let nid := {| cbSize := sizeof_NOTIFYICONDATA; hWnd := hwnd; uID := 1;
                uFlags := Z.lor (Z.lor NIF_ICON NIF_MESSAGE) NIF_TIP;
                uCallbackMessage := WM_TRAYICON;
                hIcon := icon;
                szTip := tooltip_for currentSetting |} in
  {| registry := reg; g_nid := nid;
     shell_calls := shell_calls t ++ loads ++ [Call_Shell_NotifyIcon NIM_ADD nid] |}.

End Icons.

(** [void RemoveTrayIcon()] (lines 738-746) *)
Definition RemoveTrayIcon (t : TrayState) : TrayState :=
  if 0 <? cbSize (g_nid t) then
    let deleted := Call_Shell_NotifyIcon NIM_DELETE (g_nid t) in
    if negb (hIcon (g_nid t) =? 0) then
      {| registry := registry t;
         g_nid := {| cbSize := cbSize (g_nid t); hWnd := hWnd (g_nid t);
                     uID := uID (g_nid t); uFlags := uFlags (g_nid t);
                     uCallbackMessage := uCallbackMessage (g_nid t);
                     hIcon := 0; szTip := szTip (g_nid t) |};
         shell_calls := shell_calls t ++ [deleted; Call_DestroyIcon (hIcon (g_nid t))] |}
    else
      {| registry := registry t; g_nid := g_nid t;
         shell_calls := shell_calls t ++ [deleted] |}
  else t.

(** The icons handed to [DestroyIcon], in call order. *)
Definition destroyed (cs : list TrayCall) : list Z :=
  omap (fun c => match c with Call_DestroyIcon h => Some h | _ => None end) cs.

(** The notifications sent to the shell: message and tooltip. *)
Definition notified (cs : list TrayCall) : list (Z * string) :=
  omap (fun c => match c with
                 | Call_Shell_NotifyIcon m d => Some (m, szTip d)
                 | _ => None
                 end) cs.

Definition fresh (w : World) : TrayState :=
  {| registry := w; g_nid := zeroed; shell_calls := [] |}.

End Tray.

(** ** The command line *)

Module CommandLine.
Import Desktop.

(** The [for (int i = 1; i < argc; i++)] loop of lines 296-301 over
    [argv[1..]], leaving at the first match. *)
Fixpoint scan_arguments (option : string) (arguments : list string) : bool :=
  match arguments with
  | [] => false
  | argument :: rest =>
      if wcsicmp_eq argument option then true
      else scan_arguments option rest
  end.

(** [bool HasCommandLineOption(const wchar_t* option)], given what
    [CommandLineToArgvW(GetCommandLineW(), &argc)] yields. *)
Definition HasCommandLineOption (argv : list string) (option : string) : bool :=
  scan_arguments option (drop 1 argv).

(** [#define TRAY_MODE true] *)
Definition TRAY_MODE : bool := true.

(** How [wWinMain] (lines 146-190) proceeds up to its message loop. *)
Inductive Startup :=
| ComFailed                 (* return 1, line 152 *)
| RunOnce                   (* ExecuteToggleAction, return 0, lines 156-158 *)
| WindowFailed              (* return 1, line 176 *)
| Resident (g_hwnd : Z).    (* SetupTrayIcon and the message loop *)

(** [FAILED(hr)] *)
Definition FAILED (hr : Z) : bool := hr <? 0.

(** The start of [wWinMain]: [hr] is what [CoInitialize] returns and
    [created] what [CreateWindowW] returns (0 is [NULL]). *)
Definition wWinMain_start (hr : Z) (argv : list string) (created : Z)
    : Startup :=
  if FAILED hr then ComFailed
  else
    let g_trayMode := HasCommandLineOption argv "--tray" || TRAY_MODE in
    if negb g_trayMode then RunOnce
    else if created =? 0 then WindowFailed
    else Resident created.

End CommandLine.

(** ** The foreground application *)

Module Foreground.
Import Desktop.

(** winuser.h *)
Definition SW_RESTORE : Z := 9.

(** [struct ForegroundAppInfo] *)
Record ForegroundAppInfo := {
  hwnd : Z;
  processId : Z;
  executablePath : string;
  windowTitle : string;
  placement : WINDOWPLACEMENT
}.

(** [ForegroundAppInfo info = {};] *)
Definition no_info : ForegroundAppInfo :=
  {| hwnd := 0; processId := 0; executablePath := ""; windowTitle := "";
     placement := {| showCmd := 0;
                     rcNormalPosition := {| left := 0; top := 0; right := 0; bottom := 0 |} |} |}.

(** [wcsstr(haystack, needle) != NULL]: the needle occurs in the haystack;
    the empty needle occurs in every string. *)
Fixpoint wcsstr_found (haystack needle : string) : bool :=
  String.prefix needle haystack ||
  match haystack with
  | EmptyString => false
  | String _ rest => wcsstr_found rest needle
  end.

(** [GetWindowText(hwnd, buffer, 1024)] copies at most 1023 characters. *)
Definition GetWindowText (title : string) : string := String.substring 0 1023 title.

Inductive FocusCall :=
| Call_ShowWindow (h cmd : Z)
| Call_SetForegroundWindow (h : Z)
| Call_SetActiveWindow (h : Z)
| Call_SetFocus (h : Z).

Section Queries.

(** What the system answers about a window handle:
    [GetWindowThreadProcessId] (0 when it fails), the module file name of
    the owning process ([None] when [OpenProcess] or [GetModuleFileNameEx]
    fails), and the full window title. *)
Variable pid_of : Z -> Z.
Variable exe_of : Z -> option string.
Variable title_of : Z -> string.

(** [GetWindowPlacement(hwnd, &placement)]: the placement of the window
    with that handle, the structure left as it was when there is none. *)
Definition placement_of (s : Screen) (h : Z) (before : WINDOWPLACEMENT)
    : WINDOWPLACEMENT :=
  match head (filter (fun w => w_hwnd w = h) (zorder s)) with
  | Some w => w_placement w
  | None => before
  end.

(** [IsWindow(hwnd)], for a top-level window. *)
Definition IsWindow (s : Screen) (h : Z) : bool :=
  bool_decide (h ∈ w_hwnd <$> zorder s).

(** [ForegroundAppInfo GetForegroundAppInfo()] (lines 197-224) *)
Definition GetForegroundAppInfo (s : Screen) : ForegroundAppInfo :=
  let info := no_info in
  let h := foreground s in
  if negb (h =? 0) then
    let pid := pid_of h in
    let path :=
      if negb (pid =? 0) then default (executablePath info) (exe_of h)
      else executablePath info in
    {| hwnd := h; processId := pid; executablePath := path;
       windowTitle := GetWindowText (title_of h);
       placement := placement_of s h (placement info) |}
  else info.

(** The test the [EnumWindows] callback of lines 237-257 makes on a
    window. *)
Definition is_candidate (appInfo : ForegroundAppInfo) (w : Window) : bool :=
  if negb (w_visible w) then false
  else if pid_of (w_hwnd w) =? processId appInfo then
    let title := GetWindowText (title_of (w_hwnd w)) in
    String.eqb title (windowTitle appInfo)
    || (wcsstr_found title (windowTitle appInfo)
        && (0 <? String.length (windowTitle appInfo))%nat)
  else false.

(** [EnumWindows] with that callback: the windows are visited in Z order
    and the enumeration stops at the first candidate. *)
Fixpoint find_candidate (appInfo : ForegroundAppInfo) (ws : list Window)
    : Z :=
  match ws with
  | [] => 0
  | w :: rest =>
      if is_candidate appInfo w then w_hwnd w
      else find_candidate appInfo rest
  end.

(** The calls of lines 260-272 and 276-288 on a window. *)
Definition show_and_focus (appInfo : ForegroundAppInfo) (h : Z)
    : list FocusCall :=
  [Call_ShowWindow h
     (if showCmd (placement appInfo) =? SW_SHOWMAXIMIZED then SW_SHOWMAXIMIZED
      else if showCmd (placement appInfo) =? SW_SHOWMINIMIZED then SW_RESTORE
      else SW_NORMAL);
   Call_SetForegroundWindow h;
   Call_SetActiveWindow h;
   Call_SetFocus h].

(** [void RestoreForegroundApp(const ForegroundAppInfo& appInfo)]
    (lines 226-290) *)
Definition RestoreForegroundApp (appInfo : ForegroundAppInfo) (s : Screen)
    : list FocusCall :=
  if (hwnd appInfo =? 0) || negb (IsWindow s (hwnd appInfo)) then
    let foundWindow := find_candidate appInfo (zorder s) in
    if negb (foundWindow =? 0) then show_and_focus appInfo foundWindow
    else []
  else show_and_focus appInfo (hwnd appInfo).

End Queries.

(** The handles a list of calls acts on. *)
Definition touched (cs : list FocusCall) : list Z :=
  (fun c => match c with
            | Call_ShowWindow h _ | Call_SetForegroundWindow h
            | Call_SetActiveWindow h | Call_SetFocus h => h
            end) <$> cs.

(** The show commands a list of calls passes to [ShowWindow]. *)
Definition shown_as (cs : list FocusCall) : list Z :=
  omap (fun c => match c with Call_ShowWindow _ cmd => Some cmd | _ => None end) cs.

End Foreground.

(** ** Sample worlds *)

Module Samples.
Import Registry Toggler Desktop.

(** A blob of [n] bytes shaped like the documented layout: the version
    byte [0x30] first, [mode] at offset [0x08], zeroes elsewhere. *)
Definition blob_of (mode : BYTE) (n : nat) : list BYTE :=
  (fun i => if (i =? 0)%nat then x30 else if (i =? 8)%nat then mode else x00)
    <$> seq 0 n.

Definition KEY_ALL_ACCESS : Z := 0xF003F.

Definition key_with (data : list BYTE) : RegKey :=
  {| rk_granted := KEY_ALL_ACCESS;
     rk_values := {[ "Settings" := {| rv_type := REG_BINARY; rv_data := data |} ]};
     rk_set_status := ERROR_SUCCESS |}.

(** A hive holding one of the two keys, nothing called yet. *)
Definition world_with (k : string) (data : list BYTE) : World :=
  {| hkcu := {[ k := key_with data ]}; calls := [] |}.

Definition empty_world : World := {| hkcu := ∅; calls := [] |}.

(** A key without a "Settings" value. *)
Definition world_without_value : World :=
  {| hkcu := {[ keyPath := {| rk_granted := KEY_ALL_ACCESS; rk_values := ∅;
                              rk_set_status := ERROR_SUCCESS |} ]};
     calls := [] |}.

(** A hive where the current key can only be read and the legacy key
    can be written. *)
Definition world_split (current legacy : list BYTE) : World :=
  {| hkcu := {[ keyPath := {| rk_granted := KEY_READ;
                              rk_values := {[ "Settings" :=
                                {| rv_type := REG_BINARY; rv_data := current |} ]};
                              rk_set_status := ERROR_SUCCESS |};
                altKeyPath := key_with legacy ]};
     calls := [] |}.

(** A hive whose key opens but refuses writes. *)
Definition world_read_only (data : list BYTE) : World :=
  {| hkcu := {[ keyPath := {| rk_granted := KEY_ALL_ACCESS;
                              rk_values := {[ "Settings" :=
                                {| rv_type := REG_BINARY; rv_data := data |} ]};
                              rk_set_status := ERROR_ACCESS_DENIED |} ]};
     calls := [] |}.

(** A "Settings" value of another type. *)
Definition world_typed (type : Z) (data : list BYTE) : World :=
  {| hkcu := {[ keyPath := {| rk_granted := KEY_ALL_ACCESS;
                              rk_values := {[ "Settings" :=
                                {| rv_type := type; rv_data := data |} ]};
                              rk_set_status := ERROR_SUCCESS |} ]};
     calls := [] |}.

(** Stack contents as a debug build leaves them. *)
Definition stack_cc : nat -> BYTE := fun _ => xcc.

Definition rect0 : RECT := {| left := 100; top := 80; right := 900; bottom := 680 |}.

Definition folder_window (h : Z) (p : string) : Window :=
  {| w_hwnd := h; w_class := "CabinetWClass"; w_visible := true;
     w_placement := {| showCmd := SW_SHOWNORMAL; rcNormalPosition := rect0 |};
     w_rect := rect0; w_children := []; w_folder := Some p |}.

Definition app_window (h : Z) : Window :=
  {| w_hwnd := h; w_class := "Notepad"; w_visible := true;
     w_placement := {| showCmd := SW_SHOWMAXIMIZED; rcNormalPosition := rect0 |};
     w_rect := rect0; w_children := []; w_folder := None |}.

(** Before the restart: folder windows on C (front), B and A, an editor
    in between. *)
Definition screen_before : Screen :=
  {| zorder := [folder_window 30 "C:\Users\c"; app_window 7;
                folder_window 20 "D:\b"; folder_window 10 "C:\a"];
     foreground := 30; focus := 0 |}.

(** After the restart: the folder windows are gone. *)
Definition screen_after : Screen :=
  {| zorder := [app_window 7]; foreground := 7; focus := 0 |}.

(** A shell that answers every launch with a new folder window on the
    path, in front, under a fresh handle. *)
Definition explorer_opens (p : string) (s : Screen) : Screen :=
  with_zorder s
    (folder_window (1 + foldr Z.max 0 (w_hwnd <$> zorder s)) p :: zorder s).



(** A second toggle in tray mode arriving at the guard of line 126 while
    the watchdog of the first is still asleep. *)
Definition second_toggle_at_guard : Watchdog.State :=
  {| Watchdog.g_trayMode := true; Watchdog.g_hwnd_valid := true;
     Watchdog.g_isRestartingExplorer := true;
     Watchdog.g_watchdogThread := Some 0%nat;
     Watchdog.pc_main := Watchdog.At_Guard;
     Watchdog.watchdogs := [Watchdog.At_Sleep];
     Watchdog.posted := 0 |}.

(** A watchdog that has cleared the handle but not yet returned, while the
    next toggle is about to call [CreateThread]. *)
Definition returning_at_create_thread : Watchdog.State :=
  {| Watchdog.g_trayMode := true; Watchdog.g_hwnd_valid := true;
     Watchdog.g_isRestartingExplorer := true;
     Watchdog.g_watchdogThread := None;
     Watchdog.pc_main := Watchdog.At_CreateThread;
     Watchdog.watchdogs := [Watchdog.At_Return];
     Watchdog.posted := 1 |}.

(** A watchdog that has cleared the handle but not yet returned, next to
    the watchdog of a later toggle. *)
Definition returning_next_to_new : Watchdog.State :=
  {| Watchdog.g_trayMode := true; Watchdog.g_hwnd_valid := true;
     Watchdog.g_isRestartingExplorer := true;
     Watchdog.g_watchdogThread := None;
     Watchdog.pc_main := Watchdog.At_StoreHandle (Some 1%nat);
     Watchdog.watchdogs := [Watchdog.At_Return; Watchdog.At_Sleep];
     Watchdog.posted := 1 |}.

End Samples.

(** * Properties *)

(** ** Running the registry calls *)

Section RegistryRuns.
Import Registry.

Lemma run_bind {A B} (m : M A) (f : A -> M B) w :
  (m ≫= f) w = f (m w).1 (m w).2.
Proof. unfold mbind, M_bind. by destruct (m w). Qed.

Lemma run_ret {A} (a : A) w : (mret a : M A) w = (a, w).
Proof. done. Qed.

Lemma run_open subKey sam w :
  RegOpenKeyExW subKey sam w =
  (open_status (hkcu w) subKey sam, subKey,
   logged w [Call_RegOpenKeyExW subKey sam (open_status (hkcu w) subKey sam)]).
Proof. done. Qed.

Lemma run_close h w : RegCloseKey h w = (tt, logged w [Call_RegCloseKey h]).
Proof. done. Qed.

Lemma run_broadcast p t w :
  SendMessageTimeoutW p t w = (tt, logged w [Call_SendMessageTimeoutW p t]).
Proof. done. Qed.

Lemma logged_logged w a b : logged (logged w a) b = logged w (a ++ b).
Proof. unfold logged; cbn. by rewrite <- app_assoc. Qed.

Lemma made_logged w cs : drop (length (calls w)) (calls (logged w cs)) = cs.
Proof. cbn. by rewrite drop_app_length. Qed.

Lemma run_query_missing h name ty buf cb w :
  hkcu w !! h ≫= (fun k => rk_values k !! name) = None ->
  RegQueryValueExW h name ty buf cb w =
  (ERROR_FILE_NOT_FOUND, ty, buf, cb,
   logged w [Call_RegQueryValueExW h name ERROR_FILE_NOT_FOUND]).
Proof. intros H. unfold RegQueryValueExW. by rewrite H. Qed.

Lemma run_query_more h name ty buf cb w v :
  hkcu w !! h ≫= (fun k => rk_values k !! name) = Some v ->
  (cb < length (rv_data v))%nat ->
  RegQueryValueExW h name ty buf cb w =
  (ERROR_MORE_DATA, rv_type v, buf, length (rv_data v),
   logged w [Call_RegQueryValueExW h name ERROR_MORE_DATA]).
Proof.
  intros H L. unfold RegQueryValueExW. rewrite H.
  apply Nat.ltb_lt in L. by rewrite L.
Qed.

Lemma run_query_ok h name ty buf cb w v :
  hkcu w !! h ≫= (fun k => rk_values k !! name) = Some v ->
  (length (rv_data v) <= cb)%nat ->
  RegQueryValueExW h name ty buf cb w =
  (ERROR_SUCCESS, rv_type v, rv_data v ++ drop (length (rv_data v)) buf,
   length (rv_data v),
   logged w [Call_RegQueryValueExW h name ERROR_SUCCESS]).
Proof.
  intros H L. unfold RegQueryValueExW. rewrite H.
  apply Nat.ltb_ge in L. by rewrite L.
Qed.

Lemma run_set h name ty buf cb w key :
  hkcu w !! h = Some key ->
  RegSetValueExW h name ty buf cb w =
  (rk_set_status key,
   {| hkcu :=
        if rk_set_status key =? ERROR_SUCCESS then
          <[h := {| rk_granted := rk_granted key;
                    rk_values :=
                      <[name := {| rv_type := ty; rv_data := take cb buf |}]>
                        (rk_values key);
                    rk_set_status := rk_set_status key |}]> (hkcu w)
        else hkcu w;
      calls := calls w ++
               [Call_RegSetValueExW h name ty (take cb buf) (rk_set_status key)] |}).
Proof. intros H. unfold RegSetValueExW. by rewrite H. Qed.

End RegistryRuns.

(** ** The setting toggler, path by path *)

Section TogglerPaths.
Import Registry Toggler.

Lemma opens_status reg sam k :
  opens reg sam = Some k -> open_status reg k sam = ERROR_SUCCESS.
Proof.
  unfold opens. intros H.
  destruct (open_status reg keyPath sam =? ERROR_SUCCESS) eqn:E1.
  - injection H as <-. by apply Z.eqb_eq.
  - destruct (open_status reg altKeyPath sam =? ERROR_SUCCESS) eqn:E2; [|done].
    injection H as <-. by apply Z.eqb_eq.
Qed.

Lemma opens_key reg sam k :
  opens reg sam = Some k -> is_Some (reg !! k).
Proof.
  intros H. apply opens_status in H. unfold open_status in H.
  destruct (reg !! k); [eauto | done].
Qed.

Lemma opens_is_a_known_name reg sam k :
  opens reg sam = Some k -> k = keyPath \/ k = altKeyPath.
Proof.
  unfold opens. repeat case_match; intros; simplify_eq; auto.
Qed.

Lemma last_open_calls reg sam :
  exists k st, last (open_calls reg sam) = Some (Call_RegOpenKeyExW k sam st).
Proof. unfold open_calls. case_match; cbn; eauto. Qed.

Ltac open_phase w :=
  rewrite run_bind, run_open; cbn [fst snd];
  destruct (open_status (hkcu w) keyPath _ =? ERROR_SUCCESS) eqn:?E1; cbn [negb];
  [ rewrite run_bind, run_ret; cbn [fst snd]
  | rewrite run_bind, run_open; cbn [fst snd];
    change (hkcu (logged w _)) with (hkcu w); rewrite logged_logged;
    destruct (open_status (hkcu w) altKeyPath _ =? ERROR_SUCCESS) eqn:?E2;
    cbn [negb] ].

(** Neither name opens: the return of line 354. *)
Lemma toggle_unavailable stack w :
  opens (hkcu w) (Z.lor KEY_READ KEY_WRITE) = None ->
  ToggleTaskbarSetting stack w =
  (false, logged w (open_calls (hkcu w) (Z.lor KEY_READ KEY_WRITE))).
Proof.
  unfold ToggleTaskbarSetting, opens, open_calls. intros H.
  open_phase w; rewrite ?E1, ?E2 in *; done.
Qed.

(** The read fails: the return of line 363. *)
Lemma toggle_unreadable stack w hKey :
  opens (hkcu w) (Z.lor KEY_READ KEY_WRITE) = Some hKey ->
  match stored_value (hkcu w) hKey with
  | None => True
  | Some v => (64 < length (rv_data v))%nat
  end ->
  ToggleTaskbarSetting stack w =
  (false,
   logged w (open_calls (hkcu w) (Z.lor KEY_READ KEY_WRITE) ++
             [Call_RegQueryValueExW hKey "Settings"
                (match stored_value (hkcu w) hKey with
                 | None => ERROR_FILE_NOT_FOUND
                 | Some _ => ERROR_MORE_DATA
                 end);
              Call_RegCloseKey hKey])).
Proof.
  unfold ToggleTaskbarSetting, opens, open_calls, stored_value. intros H Hq.
  open_phase w; rewrite ?E1, ?E2 in *; cbn [negb]; simplify_eq;
    (destruct (hkcu w !! _ ≫= _) as [v|] eqn:Ev;
     [ rewrite run_bind, (run_query_more _ _ _ _ _ _ v) by done
     | rewrite run_bind, run_query_missing by done ];
     cbn [fst snd negb Z.eqb ERROR_MORE_DATA ERROR_FILE_NOT_FOUND ERROR_SUCCESS];
     rewrite run_bind, run_close, run_ret; cbn [fst snd];
     by rewrite !logged_logged).
Qed.

(** The read succeeds: the return of line 373. *)
Lemma toggle_written stack w hKey key v :
  opens (hkcu w) (Z.lor KEY_READ KEY_WRITE) = Some hKey ->
  hkcu w !! hKey = Some key ->
  rk_values key !! "Settings" = Some v ->
  (length (rv_data v) <= 64)%nat ->
  ToggleTaskbarSetting stack w =
  (rk_set_status key =? ERROR_SUCCESS,
   {| hkcu :=
        if rk_set_status key =? ERROR_SUCCESS then
          <[hKey := {| rk_granted := rk_granted key;
                       rk_values :=
                         <["Settings" := {| rv_type := REG_BINARY;
                                            rv_data := written stack (rv_data v) |}]>
                           (rk_values key);
                       rk_set_status := rk_set_status key |}]> (hkcu w)
        else hkcu w;
      calls := calls w ++
        open_calls (hkcu w) (Z.lor KEY_READ KEY_WRITE) ++
        [Call_RegQueryValueExW hKey "Settings" ERROR_SUCCESS;
         Call_RegSetValueExW hKey "Settings" REG_BINARY
           (written stack (rv_data v)) (rk_set_status key);
         Call_RegCloseKey hKey;
         Call_SendMessageTimeoutW "TraySettings" 1000] |}).
Proof.
  unfold ToggleTaskbarSetting, opens, open_calls, written, read_into.
  intros H Hk Hv Hl.
  assert (Hq : forall cs, hkcu (logged w cs) !! hKey
                 ≫= (fun k => rk_values k !! "Settings") = Some v).
  { intros cs. cbn [logged hkcu]. rewrite Hk. done. }
  open_phase w; rewrite ?E1, ?E2 in *; cbn [negb]; simplify_eq;
    rewrite run_bind, (run_query_ok _ _ _ _ _ _ v) by (done || apply Hq);
    cbn [fst snd negb Z.eqb ERROR_SUCCESS];
    rewrite run_bind, (run_set _ _ _ _ _ _ key) by done;
    cbn [fst snd hkcu calls logged];
    rewrite run_bind, run_close; cbn [fst snd];
    rewrite run_bind, run_broadcast, run_ret; cbn [fst snd logged hkcu calls];
    unfold logged; cbn [hkcu calls]; rewrite <- ?app_assoc; done.
Qed.

(** [GetCurrentTaskbarSetting] in closed form: the registry is only read,
    and the byte returned is the default unless a key opens and the read
    succeeds. *)
Lemma get_setting_runs stack w :
  (GetCurrentTaskbarSetting stack w).1 =
  match opens (hkcu w) KEY_READ with
  | None => TASKBAR_ALWAYS_VISIBLE
  | Some hKey =>
      match stored_value (hkcu w) hKey with
      | None => TASKBAR_ALWAYS_VISIBLE
      | Some v =>
          if (64 <? length (rv_data v))%nat then TASKBAR_ALWAYS_VISIBLE
          else read_into stack (rv_data v) !!! 8%nat
      end
  end
  /\ hkcu (GetCurrentTaskbarSetting stack w).2 = hkcu w.
Proof.
  unfold GetCurrentTaskbarSetting, opens, stored_value, read_into.
  open_phase w; rewrite ?E1, ?E2; cbn [negb]; try done;
    (destruct (hkcu w !! _ ≫= _) as [v|] eqn:Ev;
     [ destruct (Nat.ltb_spec 64 (length (rv_data v)));
       [ rewrite run_bind, (run_query_more _ _ _ _ _ _ v) by done
       | rewrite run_bind, (run_query_ok _ _ _ _ _ _ v) by done ]
     | rewrite run_bind, run_query_missing by done ];
     cbn [fst snd negb Z.eqb ERROR_MORE_DATA ERROR_FILE_NOT_FOUND ERROR_SUCCESS];
     rewrite run_bind, run_close; cbn [fst snd]; done).
Qed.

Lemma length_uninitialised stack n : length (uninitialised stack n) = n.
Proof. unfold uninitialised. by rewrite length_fmap, length_seq. Qed.

Lemma read_into_full stack data :
  length data = 64%nat -> read_into stack data = data.
Proof.
  intros L. unfold read_into.
  rewrite drop_ge by (rewrite length_uninitialised; lia).
  apply app_nil_r.
Qed.

Lemma read_into_lookup stack data i :
  (i < length data)%nat -> read_into stack data !! i = data !! i.
Proof. intros L. unfold read_into. by apply lookup_app_l. Qed.

Lemma length_read_into stack data :
  (length data <= 64)%nat -> length (read_into stack data) = 64%nat.
Proof.
  intros L. unfold read_into.
  rewrite length_app, length_drop, length_uninitialised. lia.
Qed.

Lemma length_written stack data :
  (length data <= 64)%nat -> length (written stack data) = length data.
Proof.
  intros L. unfold written.
  rewrite length_take, length_insert, length_read_into by done. lia.
Qed.

Lemma written_lookup_ne stack data i :
  i ≠ 8%nat -> written stack data !! i = data !! i.
Proof.
  intros Hi. unfold written.
  destruct (decide (i < length data)%nat) as [L|L].
  - rewrite lookup_take_lt, list_lookup_insert_ne by done.
    by apply read_into_lookup.
  - rewrite lookup_take_ge by lia. symmetry. apply lookup_ge_None. lia.
Qed.

Lemma written_lookup_mode stack data b :
  data !! 8%nat = Some b -> (length data <= 64)%nat ->
  written stack data !! 8%nat = Some (toggled b).
Proof.
  intros Hb L. unfold written.
  assert (8 < length data)%nat by (by eapply lookup_lt_Some).
  rewrite lookup_take_lt by done.
  rewrite list_lookup_insert_eq by (rewrite length_read_into; lia).
  f_equal. f_equal. apply list_lookup_total_correct.
  by rewrite read_into_lookup.
Qed.

Lemma written_full stack data b :
  length data = 64%nat -> data !! 8%nat = Some b ->
  written stack data = <[8%nat := toggled b]> data.
Proof.
  intros L Hb. unfold written. rewrite read_into_full by done.
  rewrite (list_lookup_total_correct _ _ _ Hb).
  apply take_ge. rewrite length_insert. lia.
Qed.

(** The three bytes of line 366. *)
Lemma toggled_visible : toggled TASKBAR_ALWAYS_VISIBLE = TASKBAR_AUTOHIDE.
Proof. reflexivity. Qed.

Lemma toggled_autohide : toggled TASKBAR_AUTOHIDE = TASKBAR_ALWAYS_VISIBLE.
Proof. reflexivity. Qed.

Lemma toggled_other b :
  b ≠ TASKBAR_ALWAYS_VISIBLE -> toggled b = TASKBAR_ALWAYS_VISIBLE.
Proof.
  intros Hb. unfold toggled.
  destruct (Byte.eqb b TASKBAR_ALWAYS_VISIBLE) eqn:E; [|done].
  by apply Byte.byte_dec_bl in E.
Qed.

(** The stored blob after a call that got as far as the write. *)
Lemma toggle_stored_blob stack w hKey key v :
  opens (hkcu w) (Z.lor KEY_READ KEY_WRITE) = Some hKey ->
  hkcu w !! hKey = Some key ->
  rk_values key !! "Settings" = Some v ->
  (length (rv_data v) <= 64)%nat ->
  stored_blob (hkcu (ToggleTaskbarSetting stack w).2) hKey =
  Some (if rk_set_status key =? ERROR_SUCCESS
        then written stack (rv_data v) else rv_data v).
Proof.
  intros Ho Hk Hv L. rewrite (toggle_written _ _ _ _ _ Ho Hk Hv L).
  cbn [snd hkcu]. unfold stored_blob, stored_value.
  destruct (rk_set_status key =? ERROR_SUCCESS).
  - rewrite lookup_insert_eq. cbn. by rewrite lookup_insert_eq.
  - rewrite Hk. cbn. by rewrite Hv.
Qed.

(** A call changes neither which keys exist, nor what they grant, nor
    how writes under them fare. *)
Lemma toggle_keeps_keys stack w k :
  (fun key => (rk_granted key, rk_set_status key))
    <$> hkcu (ToggleTaskbarSetting stack w).2 !! k =
  (fun key => (rk_granted key, rk_set_status key)) <$> hkcu w !! k.
Proof.
  destruct (opens (hkcu w) (Z.lor KEY_READ KEY_WRITE)) as [hKey|] eqn:Ho.
  - destruct (opens_key _ _ _ Ho) as [key Hk].
    destruct (rk_values key !! "Settings") as [v|] eqn:Hv.
    + destruct (decide (length (rv_data v) <= 64)%nat) as [L|L].
      * rewrite (toggle_written _ _ _ _ _ Ho Hk Hv L). cbn [snd hkcu].
        destruct (rk_set_status key =? ERROR_SUCCESS); [|done].
        destruct (decide (hKey = k)) as [->|Hne].
        -- rewrite lookup_insert_eq, Hk. done.
        -- by rewrite lookup_insert_ne.
      * rewrite (toggle_unreadable _ _ hKey); [done|done|].
        unfold stored_value. rewrite Hk. cbn. rewrite Hv. lia.
    + rewrite (toggle_unreadable _ _ hKey); [done|done|].
      unfold stored_value. rewrite Hk. cbn. by rewrite Hv.
  - by rewrite toggle_unavailable.
Qed.

Lemma toggle_keeps_open_status stack w k sam :
  open_status (hkcu (ToggleTaskbarSetting stack w).2) k sam =
  open_status (hkcu w) k sam.
Proof.
  unfold open_status. pose proof (toggle_keeps_keys stack w k) as H.
  destruct (hkcu (ToggleTaskbarSetting stack w).2 !! k) as [k1|],
           (hkcu w !! k) as [k2|]; cbn in H; try done.
  injection H as Hg _. by rewrite Hg.
Qed.

Lemma toggle_keeps_opens stack w sam :
  opens (hkcu (ToggleTaskbarSetting stack w).2) sam = opens (hkcu w) sam.
Proof. unfold opens. by rewrite !toggle_keeps_open_status. Qed.

Lemma toggle_keeps_write_status stack w k :
  write_status (hkcu (ToggleTaskbarSetting stack w).2) k =
  write_status (hkcu w) k.
Proof.
  unfold write_status. pose proof (toggle_keeps_keys stack w k) as H.
  destruct (hkcu (ToggleTaskbarSetting stack w).2 !! k) as [k1|],
           (hkcu w !! k) as [k2|]; cbn in *; try done.
  injection H as _ Hs. by rewrite Hs.
Qed.

End TogglerPaths.

(** ** The setting toggler: the claims *)

Section TogglerClaims.
Import Registry Toggler Samples.

Local Abbreviation RW := (Z.lor KEY_READ KEY_WRITE).

(** Every call takes one of the three paths. *)
Lemma toggle_cases stack w :
  (opens (hkcu w) RW = None /\
   ToggleTaskbarSetting stack w = (false, logged w (open_calls (hkcu w) RW)))
  \/
  (exists hKey st,
     opens (hkcu w) RW = Some hKey /\ st ≠ ERROR_SUCCESS /\
     ToggleTaskbarSetting stack w =
     (false, logged w (open_calls (hkcu w) RW ++
                       [Call_RegQueryValueExW hKey "Settings" st;
                        Call_RegCloseKey hKey])))
  \/
  (exists hKey key v,
     opens (hkcu w) RW = Some hKey /\ hkcu w !! hKey = Some key /\
     rk_values key !! "Settings" = Some v /\ (length (rv_data v) <= 64)%nat /\
     ToggleTaskbarSetting stack w =
     (rk_set_status key =? ERROR_SUCCESS,
      {| hkcu :=
           if rk_set_status key =? ERROR_SUCCESS then
             <[hKey := {| rk_granted := rk_granted key;
                          rk_values :=
                            <["Settings" := {| rv_type := REG_BINARY;
                                               rv_data := written stack (rv_data v) |}]>
                              (rk_values key);
                          rk_set_status := rk_set_status key |}]> (hkcu w)
           else hkcu w;
         calls := calls w ++
           open_calls (hkcu w) RW ++
           [Call_RegQueryValueExW hKey "Settings" ERROR_SUCCESS;
            Call_RegSetValueExW hKey "Settings" REG_BINARY
              (written stack (rv_data v)) (rk_set_status key);
            Call_RegCloseKey hKey;
            Call_SendMessageTimeoutW "TraySettings" 1000] |})).
Proof.
  destruct (opens (hkcu w) RW) as [hKey|] eqn:Ho.
  - right. destruct (opens_key _ _ _ Ho) as [key Hk].
    destruct (rk_values key !! "Settings") as [v|] eqn:Hv.
    + destruct (decide (length (rv_data v) <= 64)%nat) as [L|L].
      * right. exists hKey, key, v. repeat split; try done.
        by apply toggle_written.
      * left. exists hKey, ERROR_MORE_DATA. repeat split; try done.
        rewrite (toggle_unreadable _ _ hKey Ho);
          unfold stored_value; rewrite Hk; cbn; rewrite Hv; [done|lia].
    + left. exists hKey, ERROR_FILE_NOT_FOUND. repeat split; try done.
      rewrite (toggle_unreadable _ _ hKey Ho);
        unfold stored_value; rewrite Hk; cbn; rewrite Hv; done.
  - left. split; [done|]. by apply toggle_unavailable.
Qed.

Lemma stored_blob_lookup reg k key v :
  reg !! k = Some key -> rk_values key !! "Settings" = Some v ->
  stored_blob reg k = Some (rv_data v).
Proof. intros Hk Hv. unfold stored_blob, stored_value. rewrite Hk. cbn. by rewrite Hv. Qed.

Lemma stored_blob_inv reg k blob :
  stored_blob reg k = Some blob ->
  exists key v, reg !! k = Some key /\ rk_values key !! "Settings" = Some v
                /\ rv_data v = blob.
Proof.
  unfold stored_blob, stored_value. intros H.
  destruct (reg !! k) as [key|]; [|done]. cbn in H.
  destruct (rk_values key !! "Settings") as [v|] eqn:Hv; [|done].
  cbn in H. injection H as <-. by exists key, v.
Qed.

Lemma write_status_inv reg k key st :
  write_status reg k = Some st -> reg !! k = Some key -> rk_set_status key = st.
Proof. unfold write_status. intros H Hk. rewrite Hk in H. by injection H. Qed.

(** One toggle of a blob no longer than the buffer, written back. *)
Lemma toggle_once stack w hKey blob :
  opens (hkcu w) RW = Some hKey ->
  stored_blob (hkcu w) hKey = Some blob ->
  (length blob <= 64)%nat ->
  write_status (hkcu w) hKey = Some ERROR_SUCCESS ->
  (ToggleTaskbarSetting stack w).1 = true /\
  stored_blob (hkcu (ToggleTaskbarSetting stack w).2) hKey
  = Some (written stack blob).
Proof.
  intros Ho Hb L Hs.
  destruct (stored_blob_inv _ _ _ Hb) as (key & v & Hk & Hv & <-).
  pose proof (write_status_inv _ _ _ _ Hs Hk) as Hst.
  split.
  - rewrite (toggle_written _ _ _ _ _ Ho Hk Hv L). cbn [fst].
    by rewrite Hst.
  - rewrite (toggle_stored_blob _ _ _ _ _ Ho Hk Hv L).
    by rewrite Hst.
Qed.

(** C1.  For a 64-byte blob under the key the toggler opens, with the
    write going through, one call leaves the byte at offset 0x08 as
    follows: 0x02 becomes 0x03, 0x03 becomes 0x02, and any other value
    becomes 0x02. *)
Theorem toggle_maps_mode_byte stack w hKey blob :
  opens (hkcu w) RW = Some hKey ->
  stored_blob (hkcu w) hKey = Some blob ->
  length blob = 64%nat ->
  write_status (hkcu w) hKey = Some ERROR_SUCCESS ->
  exists b b',
    blob !! 8%nat = Some b /\
    stored_byte (hkcu (ToggleTaskbarSetting stack w).2) hKey 8 = Some b' /\
    (b = x02 -> b' = x03) /\
    (b = x03 -> b' = x02) /\
    (b ≠ x02 -> b ≠ x03 -> b' = x02).
Proof.
  intros Ho Hb L Hs.
  destruct (lookup_lt_is_Some_2 blob 8) as [b Hb8]; [lia|].
  destruct (toggle_once stack w hKey blob Ho Hb ltac:(lia) Hs) as [_ Hw].
  exists b, (toggled b). split; [done|]. split.
  - unfold stored_byte. rewrite Hw. cbn.
    apply written_lookup_mode; [done|lia].
  - repeat split.
    + by intros ->.
    + by intros ->.
    + intros H2 _. by apply toggled_other.
Qed.

Lemma toggle_maps_mode_byte_witness :
  exists b b',
    blob_of x03 64 !! 8%nat = Some b /\
    stored_byte
      (hkcu (ToggleTaskbarSetting stack_cc (world_with keyPath (blob_of x03 64))).2)
      keyPath 8 = Some b' /\
    (b = x02 -> b' = x03) /\
    (b = x03 -> b' = x02) /\
    (b ≠ x02 -> b ≠ x03 -> b' = x02).
Proof.
  apply (toggle_maps_mode_byte stack_cc (world_with keyPath (blob_of x03 64))
           keyPath (blob_of x03 64)); vm_compute; reflexivity.
Defined.

(** The claim of C2 fails at a blob whose mode byte is neither value:
    from 0x00 the first call writes 0x02 and the second 0x03. *)
Lemma double_toggle_loses_unknown_mode :
  stored_byte (hkcu (world_with keyPath (blob_of x00 64))) keyPath 8 = Some x00 /\
  stored_byte
    (hkcu (ToggleTaskbarSetting stack_cc
             (ToggleTaskbarSetting stack_cc
                (world_with keyPath (blob_of x00 64))).2).2)
    keyPath 8 = Some x03.
Proof. vm_compute. split; reflexivity. Qed.

(** C2, amended.  For every 64-byte blob under the key the toggler opens,
    with the writes going through, two calls in succession leave every
    byte other than the one at offset 0x08 as it was; the byte at offset
    0x08 is back at its original value when that value was 0x02 or 0x03,
    and is 0x03 after the two calls when it was any other value. *)
Theorem double_toggle_round_trip stack1 stack2 w hKey blob :
  opens (hkcu w) RW = Some hKey ->
  stored_blob (hkcu w) hKey = Some blob ->
  length blob = 64%nat ->
  write_status (hkcu w) hKey = Some ERROR_SUCCESS ->
  exists blob2,
    stored_blob
      (hkcu (ToggleTaskbarSetting stack2 (ToggleTaskbarSetting stack1 w).2).2)
      hKey = Some blob2 /\
    length blob2 = 64%nat /\
    (forall i, i ≠ 8%nat -> blob2 !! i = blob !! i) /\
    (blob !! 8%nat = Some x02 \/ blob !! 8%nat = Some x03 ->
     blob2 !! 8%nat = blob !! 8%nat) /\
    (forall b, blob !! 8%nat = Some b -> b ≠ x02 -> b ≠ x03 ->
       blob2 !! 8%nat = Some x03).
Proof.
  intros Ho Hb L Hs.
  set (w1 := (ToggleTaskbarSetting stack1 w).2).
  destruct (toggle_once stack1 w hKey blob Ho Hb ltac:(lia) Hs) as [_ H1].
  assert (L1 : length (written stack1 blob) = 64%nat)
    by (rewrite length_written; lia).
  destruct (toggle_once stack2 w1 hKey (written stack1 blob)) as [_ H2].
  { subst w1. by rewrite toggle_keeps_opens. }
  { done. }
  { lia. }
  { subst w1. by rewrite toggle_keeps_write_status. }
  exists (written stack2 (written stack1 blob)). split; [done|].
  split; [rewrite length_written; lia|].
  assert (forall b, blob !! 8%nat = Some b ->
            written stack2 (written stack1 blob) !! 8%nat
            = Some (toggled (toggled b))) as Hb8.
  { intros b Hb8. apply written_lookup_mode; [|lia].
    apply written_lookup_mode; [done|lia]. }
  split; [|split].
  - intros i Hi. by rewrite !written_lookup_ne.
  - intros Hm.
    destruct Hm as [Hm|Hm]; rewrite (Hb8 _ Hm), Hm; reflexivity.
  - intros b Hm Hne _. rewrite (Hb8 _ Hm).
    by rewrite (toggled_other b Hne), toggled_visible.
Qed.

Lemma double_toggle_round_trip_witness :
  exists blob2,
    stored_blob
      (hkcu (ToggleTaskbarSetting stack_cc
               (ToggleTaskbarSetting stack_cc
                  (world_with altKeyPath (blob_of x02 64))).2).2)
      altKeyPath = Some blob2 /\
    length blob2 = 64%nat /\
    (forall i, i ≠ 8%nat -> blob2 !! i = blob_of x02 64 !! i) /\
    (blob_of x02 64 !! 8%nat = Some x02 \/ blob_of x02 64 !! 8%nat = Some x03 ->
     blob2 !! 8%nat = blob_of x02 64 !! 8%nat) /\
    (forall b, blob_of x02 64 !! 8%nat = Some b -> b ≠ x02 -> b ≠ x03 ->
       blob2 !! 8%nat = Some x03).
Proof.
  apply (double_toggle_round_trip stack_cc stack_cc
           (world_with altKeyPath (blob_of x02 64)) altKeyPath (blob_of x02 64));
    vm_compute; reflexivity.
Defined.

(** The claim of C3 fails: an unrecognised mode byte is written as 0x02,
    not as the AutoHide value 0x03. *)
Lemma unknown_mode_is_not_written_as_autohide :
  stored_byte (hkcu (world_with keyPath (blob_of x07 64))) keyPath 8 = Some x07 /\
  stored_byte
    (hkcu (ToggleTaskbarSetting stack_cc (world_with keyPath (blob_of x07 64))).2)
    keyPath 8 = Some TASKBAR_ALWAYS_VISIBLE /\
  stored_byte
    (hkcu (ToggleTaskbarSetting stack_cc (world_with keyPath (blob_of x07 64))).2)
    keyPath 8 ≠ Some TASKBAR_AUTOHIDE.
Proof. vm_compute. repeat split. discriminate. Qed.

(** C3, amended.  For every 64-byte blob whose byte at offset 0x08 is
    neither 0x02 nor 0x03, the toggle writes the AlwaysVisible value 0x02
    at that offset (the unrecognised value is handled as AutoHide is), and
    every other byte of the blob is written back unmodified. *)
Theorem toggle_unknown_mode stack w hKey blob b :
  opens (hkcu w) RW = Some hKey ->
  stored_blob (hkcu w) hKey = Some blob ->
  length blob = 64%nat ->
  write_status (hkcu w) hKey = Some ERROR_SUCCESS ->
  blob !! 8%nat = Some b ->
  b ≠ TASKBAR_ALWAYS_VISIBLE -> b ≠ TASKBAR_AUTOHIDE ->
  exists blob',
    stored_blob (hkcu (ToggleTaskbarSetting stack w).2) hKey = Some blob' /\
    blob' !! 8%nat = Some TASKBAR_ALWAYS_VISIBLE /\
    toggled b = toggled TASKBAR_AUTOHIDE /\
    length blob' = length blob /\
    (forall i, i ≠ 8%nat -> blob' !! i = blob !! i).
Proof.
  intros Ho Hb L Hs Hb8 Hv Ha.
  destruct (toggle_once stack w hKey blob Ho Hb ltac:(lia) Hs) as [_ Hw].
  exists (written stack blob). split; [done|]. split.
  - rewrite (written_lookup_mode _ _ b) by (done || lia).
    by rewrite toggled_other.
  - split; [by rewrite toggled_other|].
    split; [rewrite length_written; lia|].
    intros i Hi. by apply written_lookup_ne.
Qed.

Lemma toggle_unknown_mode_witness :
  exists blob',
    stored_blob
      (hkcu (ToggleTaskbarSetting stack_cc (world_with keyPath (blob_of x07 64))).2)
      keyPath = Some blob' /\
    blob' !! 8%nat = Some TASKBAR_ALWAYS_VISIBLE /\
    toggled x07 = toggled TASKBAR_AUTOHIDE /\
    length blob' = length (blob_of x07 64) /\
    (forall i, i ≠ 8%nat -> blob' !! i = blob_of x07 64 !! i).
Proof.
  apply (toggle_unknown_mode stack_cc (world_with keyPath (blob_of x07 64))
           keyPath (blob_of x07 64) x07); vm_compute; (reflexivity || discriminate).
Defined.

(** The claim of C4 fails at a stored blob shorter than 64 bytes: the
    read succeeds, the call reports success, and the 40 bytes are written
    back with the byte at offset 0x08 changed. *)
Lemma short_blob_is_written :
  length (blob_of x02 40) ≠ 64%nat /\
  (ToggleTaskbarSetting stack_cc (world_with keyPath (blob_of x02 40))).1 = true /\
  stored_blob
    (hkcu (ToggleTaskbarSetting stack_cc (world_with keyPath (blob_of x02 40))).2)
    keyPath = Some (blob_of x03 40) /\
  filter (fun c => is_write c = true)
    (made_by (ToggleTaskbarSetting stack_cc) (world_with keyPath (blob_of x02 40)))
  = [Call_RegSetValueExW keyPath "Settings" REG_BINARY (blob_of x03 40) ERROR_SUCCESS].
Proof. vm_compute. repeat split. discriminate. Qed.

(** C4, amended.  For every stored blob longer than 64 bytes, the toggle
    fails at the read (MalformedConfig) and performs no write: the registry
    is left as it was. *)
Theorem toggle_oversized_blob stack w hKey blob :
  opens (hkcu w) RW = Some hKey ->
  stored_blob (hkcu w) hKey = Some blob ->
  (64 < length blob)%nat ->
  (ToggleTaskbarSetting stack w).1 = false /\
  toggle_error (ToggleTaskbarSetting stack w).1
    (made_by (ToggleTaskbarSetting stack) w) = Some MalformedConfig /\
  filter (fun c => is_write c = true) (made_by (ToggleTaskbarSetting stack) w) = [] /\
  hkcu (ToggleTaskbarSetting stack w).2 = hkcu w.
Proof.
  intros Ho Hb L.
  assert (Hv : match stored_value (hkcu w) hKey with
               | None => True
               | Some v => (64 < length (rv_data v))%nat
               end).
  { unfold stored_blob in Hb. destruct (stored_value (hkcu w) hKey); [|done].
    cbn in Hb. by injection Hb as <-. }
  unfold made_by. rewrite (toggle_unreadable _ _ hKey Ho Hv).
  cbn [fst snd]. rewrite made_logged.
  split; [done|]. split.
  - unfold toggle_error. by rewrite last_app.
  - split; [|done].
    rewrite filter_app. unfold open_calls.
    destruct (open_status (hkcu w) keyPath RW =? ERROR_SUCCESS); reflexivity.
Qed.

Lemma toggle_oversized_blob_witness :
  (ToggleTaskbarSetting stack_cc (world_with keyPath (blob_of x02 65))).1 = false /\
  toggle_error (ToggleTaskbarSetting stack_cc (world_with keyPath (blob_of x02 65))).1
    (made_by (ToggleTaskbarSetting stack_cc) (world_with keyPath (blob_of x02 65)))
  = Some MalformedConfig /\
  filter (fun c => is_write c = true)
    (made_by (ToggleTaskbarSetting stack_cc) (world_with keyPath (blob_of x02 65))) = [] /\
  hkcu (ToggleTaskbarSetting stack_cc (world_with keyPath (blob_of x02 65))).2
  = hkcu (world_with keyPath (blob_of x02 65)).
Proof.
  apply (toggle_oversized_blob stack_cc (world_with keyPath (blob_of x02 65))
           keyPath (blob_of x02 65)); vm_compute; (reflexivity || lia).
Defined.

Lemma opened_names_open_calls reg sam :
  opened_names (open_calls reg sam)
  = if open_status reg keyPath sam =? ERROR_SUCCESS then [keyPath]
    else [keyPath; altKeyPath].
Proof. unfold open_calls. by case_match. Qed.

Lemma opened_names_app a b :
  opened_names (a ++ b) = opened_names a ++ opened_names b.
Proof. apply omap_app. Qed.

Lemma opens_None reg sam :
  opens reg sam = None <->
  open_status reg keyPath sam ≠ ERROR_SUCCESS /\
  open_status reg altKeyPath sam ≠ ERROR_SUCCESS.
Proof.
  unfold opens.
  destruct (Z.eqb_spec (open_status reg keyPath sam) ERROR_SUCCESS),
           (Z.eqb_spec (open_status reg altKeyPath sam) ERROR_SUCCESS);
    split; (done || tauto || (intros []; done)).
Qed.

(** C5.  The toggle first asks for the current key name (StuckRects3);
    it asks for the legacy name (StuckRects2) second, and only when the
    first open failed; and it returns through the failure of line 354
    (ConfigUnavailable) exactly when neither key opens, in which case it
    has made no other call and the registry is as it was. *)
Theorem toggle_open_order stack w :
  opened_names (made_by (ToggleTaskbarSetting stack) w)
  = (if open_status (hkcu w) keyPath RW =? ERROR_SUCCESS then [keyPath]
     else [keyPath; altKeyPath])
  /\ opened_names (take 1 (made_by (ToggleTaskbarSetting stack) w)) = [keyPath]
  /\ (toggle_error (ToggleTaskbarSetting stack w).1
        (made_by (ToggleTaskbarSetting stack) w) = Some ConfigUnavailable
      <-> open_status (hkcu w) keyPath RW ≠ ERROR_SUCCESS /\
          open_status (hkcu w) altKeyPath RW ≠ ERROR_SUCCESS)
  /\ (open_status (hkcu w) keyPath RW ≠ ERROR_SUCCESS ->
      open_status (hkcu w) altKeyPath RW ≠ ERROR_SUCCESS ->
      (ToggleTaskbarSetting stack w).1 = false /\
      made_by (ToggleTaskbarSetting stack) w
      = [Call_RegOpenKeyExW keyPath RW (open_status (hkcu w) keyPath RW);
         Call_RegOpenKeyExW altKeyPath RW (open_status (hkcu w) altKeyPath RW)] /\
      hkcu (ToggleTaskbarSetting stack w).2 = hkcu w).
Proof.
  unfold made_by.
  destruct (toggle_cases stack w)
    as [[Ho E]|[(hKey & st & Ho & Hst & E)|(hKey & key & v & Ho & Hk & Hv & L & E)]];
    rewrite E; cbn [fst snd calls logged hkcu]; rewrite drop_app_length.
  - pose proof (proj1 (opens_None _ _) Ho) as [H3 H2].
    split; [apply opened_names_open_calls|].
    split; [done|]. split.
    + split; [done|]. intros _. unfold toggle_error.
      destruct (last_open_calls (hkcu w) RW) as (k & st & ->). done.
    + intros _ _. split; [done|]. split; [|done].
      unfold open_calls. by destruct (Z.eqb_spec (open_status (hkcu w) keyPath RW) ERROR_SUCCESS).
  - assert (~ (open_status (hkcu w) keyPath RW ≠ ERROR_SUCCESS /\
               open_status (hkcu w) altKeyPath RW ≠ ERROR_SUCCESS)) as Hn.
    { intros Hn. apply opens_None in Hn. congruence. }
    split; [|split; [done|split]].
    + rewrite opened_names_app, opened_names_open_calls. cbn. apply app_nil_r.
    + split; [|done]. unfold toggle_error. rewrite (last_app _ [_; _]). done.
    + tauto.
  - assert (~ (open_status (hkcu w) keyPath RW ≠ ERROR_SUCCESS /\
               open_status (hkcu w) altKeyPath RW ≠ ERROR_SUCCESS)) as Hn.
    { intros Hn. apply opens_None in Hn. congruence. }
    split; [|split; [done|split]].
    + rewrite opened_names_app, opened_names_open_calls. cbn. apply app_nil_r.
    + split; [|done]. unfold toggle_error.
      rewrite (last_app _ [_; _; _; _]). cbn [last].
      by destruct (rk_set_status key =? ERROR_SUCCESS).
    + tauto.
Qed.

(** C10.  [GetCurrentTaskbarSetting] always returns a byte and leaves the
    registry alone.  It returns the AlwaysVisible value 0x02 when neither
    key opens and when the read of "Settings" fails (value missing, or
    longer than the buffer); when the read succeeds it returns the byte the
    buffer holds at offset 0x08, which is the stored byte at that offset
    and can be any byte value. *)
Theorem get_setting_default_or_raw stack w :
  (opens (hkcu w) KEY_READ = None ->
     (GetCurrentTaskbarSetting stack w).1 = TASKBAR_ALWAYS_VISIBLE)
  /\ (forall hKey,
        opens (hkcu w) KEY_READ = Some hKey ->
        stored_blob (hkcu w) hKey = None ->
        (GetCurrentTaskbarSetting stack w).1 = TASKBAR_ALWAYS_VISIBLE)
  /\ (forall hKey blob,
        opens (hkcu w) KEY_READ = Some hKey ->
        stored_blob (hkcu w) hKey = Some blob ->
        (64 < length blob)%nat ->
        (GetCurrentTaskbarSetting stack w).1 = TASKBAR_ALWAYS_VISIBLE)
  /\ (forall hKey blob,
        opens (hkcu w) KEY_READ = Some hKey ->
        stored_blob (hkcu w) hKey = Some blob ->
        (length blob <= 64)%nat ->
        (GetCurrentTaskbarSetting stack w).1 = read_into stack blob !!! 8%nat
        /\ (forall b, blob !! 8%nat = Some b ->
              (GetCurrentTaskbarSetting stack w).1 = b))
  /\ (forall b, exists w',
        stored_byte (hkcu w') keyPath 8 = Some b /\
        (GetCurrentTaskbarSetting stack w').1 = b)
  /\ hkcu (GetCurrentTaskbarSetting stack w).2 = hkcu w.
Proof.
  destruct (get_setting_runs stack w) as [Hr Hw].
  split; [|split; [|split; [|split; [|split]]]]; try done.
  - intros Ho. by rewrite Hr, Ho.
  - intros hKey Ho Hb. rewrite Hr, Ho.
    unfold stored_blob in Hb. by destruct (stored_value (hkcu w) hKey).
  - intros hKey blob Ho Hb L. rewrite Hr, Ho.
    unfold stored_blob in Hb.
    destruct (stored_value (hkcu w) hKey) as [v|]; [|done].
    cbn in Hb. injection Hb as <-.
    destruct (Nat.ltb_spec 64 (length (rv_data v))); [done|lia].
  - intros hKey blob Ho Hb L.
    assert ((GetCurrentTaskbarSetting stack w).1 = read_into stack blob !!! 8%nat)
      as Hg.
    { rewrite Hr, Ho.
      unfold stored_blob in Hb.
      destruct (stored_value (hkcu w) hKey) as [v|]; [|done].
      cbn in Hb. injection Hb as <-.
      destruct (Nat.ltb_spec 64 (length (rv_data v))); [lia|done]. }
    split; [done|]. intros b Hb8. rewrite Hg.
    apply list_lookup_total_correct. rewrite read_into_lookup; [done|].
    by eapply lookup_lt_Some.
  - intros b. exists (world_with keyPath (blob_of b 64)). split; [reflexivity|].
    destruct (get_setting_runs stack (world_with keyPath (blob_of b 64))) as [-> _].
    reflexivity.
Qed.

Lemma get_setting_default_or_raw_witness :
  (GetCurrentTaskbarSetting stack_cc empty_world).1 = TASKBAR_ALWAYS_VISIBLE
  /\ (GetCurrentTaskbarSetting stack_cc world_without_value).1 = TASKBAR_ALWAYS_VISIBLE
  /\ (GetCurrentTaskbarSetting stack_cc (world_with altKeyPath (blob_of x03 65))).1
     = TASKBAR_ALWAYS_VISIBLE
  /\ (GetCurrentTaskbarSetting stack_cc (world_with altKeyPath (blob_of x2a 64))).1
     = x2a.
Proof.
  split; [|split; [|split]].
  - apply (proj1 (get_setting_default_or_raw stack_cc empty_world)).
    reflexivity.
  - apply (proj1 (proj2 (get_setting_default_or_raw stack_cc world_without_value))
             keyPath); reflexivity.
  - apply (proj1 (proj2 (proj2 (get_setting_default_or_raw stack_cc
                                  (world_with altKeyPath (blob_of x03 65)))))
             altKeyPath (blob_of x03 65)); [reflexivity | reflexivity | cbn; lia].
  - apply (proj1 (proj2 (proj2 (proj2 (get_setting_default_or_raw stack_cc
                                         (world_with altKeyPath (blob_of x2a 64))))))
             altKeyPath (blob_of x2a 64)); [reflexivity | reflexivity | cbn; lia | reflexivity].
Defined.

End TogglerClaims.

(** ** Killing the shell process: the claim *)

Section ShellClaims.
Import Desktop Shell.

Variable ourProcessId : Z.
Variable may_open : Z -> bool.

Lemma terminated_app a b : terminated (a ++ b) = terminated a ++ terminated b.
Proof. apply omap_app. Qed.

Lemma targeted_app a b : targeted (a ++ b) = targeted a ++ targeted b.
Proof. apply omap_app. Qed.

Lemma close_folder_windows_terminates_nothing ws :
  terminated (close_folder_windows ws) = [] /\
  targeted (close_folder_windows ws) = [].
Proof.
  induction ws as [|w ws [IH1 IH2]]; [done|]. cbn [close_folder_windows].
  rewrite terminated_app, targeted_app, IH1, IH2.
  by destruct (is_cabinet w).
Qed.

Lemma guard_true e :
  wcscmp_eq (szExeFile e) "explorer.exe"
    && negb (th32ProcessID e =? ourProcessId) = true <-> is_target ourProcessId e.
Proof.
  unfold is_target, wcscmp_eq.
  rewrite andb_true_iff, negb_true_iff, String.eqb_eq, Z.eqb_neq. done.
Qed.

Lemma kill_loop_targeted entries pid :
  pid ∈ targeted (kill_loop ourProcessId may_open entries) <->
  exists e, e ∈ entries /\ th32ProcessID e = pid /\ is_target ourProcessId e.
Proof.
  induction entries as [|e entries IH].
  - cbn. split; [by intros ?%elem_of_nil|]. by intros (e & ?%elem_of_nil & _).
  - cbn [kill_loop]. rewrite targeted_app, elem_of_app, IH.
    pose proof (guard_true e) as Hg.
    destruct (wcscmp_eq (szExeFile e) "explorer.exe"
              && negb (th32ProcessID e =? ourProcessId)).
    + assert (is_target ourProcessId e) as Ht by (by apply Hg).
      destruct (may_open (th32ProcessID e)); cbn;
        rewrite list_elem_of_singleton; split.
      all: try (intros [->|(e' & He' & Hp & Ht')];
                [exists e; split; [left|done] | exists e'; split; [by right|done]]).
      all: intros (e' & [->|He']%elem_of_cons & Hp & Ht'); [by left|right; eauto].
    + assert (~ is_target ourProcessId e) as Ht by (intros Ht; by apply Hg in Ht).
      cbn. split.
      * intros [?%elem_of_nil|(e' & He' & Hp & Ht')]; [done|].
        exists e'. split; [by right|done].
      * intros (e' & [->|He']%elem_of_cons & Hp & Ht'); [done|right; eauto].
Qed.

Lemma kill_loop_terminated entries pid :
  pid ∈ terminated (kill_loop ourProcessId may_open entries) <->
  exists e, e ∈ entries /\ th32ProcessID e = pid /\ is_target ourProcessId e
            /\ may_open pid = true.
Proof.
  induction entries as [|e entries IH].
  - cbn. split; [by intros ?%elem_of_nil|]. by intros (e & ?%elem_of_nil & _).
  - cbn [kill_loop]. rewrite terminated_app, elem_of_app, IH.
    pose proof (guard_true e) as Hg.
    destruct (wcscmp_eq (szExeFile e) "explorer.exe"
              && negb (th32ProcessID e =? ourProcessId)).
    + assert (is_target ourProcessId e) as Ht by (by apply Hg).
      destruct (may_open (th32ProcessID e)) eqn:Hm; cbn; split.
      * intros [->%list_elem_of_singleton|(e' & He' & Hp & Ht')].
        -- exists e. split; [left|done].
        -- exists e'. split; [by right|done].
      * intros (e' & [->|He']%elem_of_cons & Hp & Ht');
          [left; by apply list_elem_of_singleton|right; eauto].
      * intros [?%elem_of_nil|(e' & He' & Hp & Ht')]; [done|].
        exists e'. split; [by right|done].
      * intros (e' & [->|He']%elem_of_cons & Hp & Ht' & Hm').
        -- congruence.
        -- right; eauto.
    + assert (~ is_target ourProcessId e) as Ht by (intros Ht; by apply Hg in Ht).
      cbn. split.
      * intros [?%elem_of_nil|(e' & He' & Hp & Ht')]; [done|].
        exists e'. split; [by right|done].
      * intros (e' & [->|He']%elem_of_cons & Hp & Ht' & Hm'); [done|right; eauto].
Qed.

(** C8.  The kill step goes through every entry of the process snapshot
    and asks to terminate exactly the processes named [explorer.exe] whose
    id is not the caller's; [TerminateProcess] is called on each of them
    that [OpenProcess] gives a handle for.  The caller's own id is never
    among the processes terminated, nor among those a handle is asked for. *)
Theorem kill_spares_caller (s : Screen) (snapshot : list PROCESSENTRY32) :
  (ourProcessId ∉ terminated (KillExplorerProcess ourProcessId may_open s snapshot))
  /\ (ourProcessId ∉ targeted (KillExplorerProcess ourProcessId may_open s snapshot))
  /\ (forall pid,
        pid ∈ targeted (KillExplorerProcess ourProcessId may_open s snapshot) <->
        exists e, e ∈ snapshot /\ th32ProcessID e = pid /\
                  szExeFile e = "explorer.exe" /\ pid ≠ ourProcessId)
  /\ (forall pid,
        pid ∈ terminated (KillExplorerProcess ourProcessId may_open s snapshot) <->
        pid ∈ targeted (KillExplorerProcess ourProcessId may_open s snapshot)
        /\ may_open pid = true).
Proof.
  unfold KillExplorerProcess.
  destruct (close_folder_windows_terminates_nothing (zorder s)) as [Hc1 Hc2].
  rewrite terminated_app, targeted_app, Hc1, Hc2. cbn [app].
  assert (forall pid,
            pid ∈ targeted (kill_loop ourProcessId may_open snapshot) <->
            exists e, e ∈ snapshot /\ th32ProcessID e = pid /\
                      szExeFile e = "explorer.exe" /\ pid ≠ ourProcessId) as Ht.
  { intros pid. rewrite kill_loop_targeted. unfold is_target.
    split; intros (e & He & Hp & Hn & Ho); exists e; subst; done. }
  assert (forall pid,
            pid ∈ terminated (kill_loop ourProcessId may_open snapshot) <->
            pid ∈ targeted (kill_loop ourProcessId may_open snapshot)
            /\ may_open pid = true) as Hk.
  { intros pid. rewrite kill_loop_terminated, kill_loop_targeted.
    split.
    - intros (e & He & Hp & Hn & Ho). split; [exists e|]; done.
    - intros [(e & He & Hp & Hn) Ho]. exists e. done. }
  assert (ourProcessId ∉ targeted (kill_loop ourProcessId may_open snapshot)) as Hn.
  { rewrite Ht. intros (e & _ & _ & _ & Hne). done. }
  split; [|split; [done|split; [apply Ht|apply Hk]]].
  rewrite Hk. tauto.
Qed.

End ShellClaims.

(** ** Session capture *)

Section CaptureOrder.
Import Desktop Session.

Lemma map_assign_above k v m :
  Forall (fun e => e.1 < k) m -> map_assign k v m = m ++ [(k, v)].
Proof.
  induction 1 as [|[k' v'] m Hk _ IH]; [done|]. cbn in Hk. cbn [map_assign].
  destruct (Z.ltb_spec k k'); [lia|].
  destruct (Z.eqb_spec k k'); [lia|].
  by rewrite IH.
Qed.

Lemma capture_window_appends s w z m :
  Forall (fun e => e.1 < z) m ->
  exists new,
    capture_window s w z m = m ++ new /\
    (fun e => path e.2) <$> new = option_list (shown_folder w) /\
    Forall (fun e => e.1 = z /\ placement e.2 = w_placement w) new.
Proof.
  intros Hm. unfold capture_window, shown_folder.
  destruct (w_visible w); [|exists []; by rewrite app_nil_r].
  destruct (is_cabinet w); [|exists []; by rewrite app_nil_r].
  destruct (w_folder w) as [p|]; [|exists []; by rewrite app_nil_r].
  rewrite map_assign_above by done.
  eexists [_]. split; [done|]. split; [done|].
  by repeat constructor.
Qed.

Lemma capture_loop_appends s ws : forall z m,
  0 <= z -> z + Z.of_nat (length ws) <= 2 ^ 32 ->
  Forall (fun e => e.1 < z) m ->
  exists new,
    capture_loop s ws z m = m ++ new /\
    (fun e => path e.2) <$> new = omap shown_folder ws /\
    Forall2 (fun e w => placement e.2 = w_placement w /\ shown_folder w = Some (path e.2))
      new (filter (fun w => is_Some (shown_folder w)) ws).
Proof.
  induction ws as [|w rest IH]; intros z m Hz Hlen Hm.
  - exists []. cbn. by rewrite app_nil_r.
  - cbn [capture_loop].
    destruct (capture_window_appends s w z m Hm) as (new1 & -> & Hp1 & Hk1).
    assert (Forall (fun e => e.1 < z + 1) (m ++ new1)) as Hm'.
    { apply Forall_app. split.
      - eapply Forall_impl; [exact Hm|]. cbn. lia.
      - eapply Forall_impl; [exact Hk1|]. cbn. lia. }
    assert (Forall2 (fun e w0 => placement e.2 = w_placement w0
                       /\ shown_folder w0 = Some (path e.2))
              new1 (filter (fun w0 => is_Some (shown_folder w0)) [w])) as Hf1.
    { destruct (shown_folder w) as [p|] eqn:Hs.
      - rewrite filter_cons_True by (rewrite Hs; eauto).
        destruct new1 as [|e [|e' new1]]; try done.
        cbn in Hp1. injection Hp1 as Hp1. rewrite Forall_singleton in Hk1.
        constructor; [|constructor]. rewrite Hs, Hp1.
        destruct Hk1 as [_ Hpl]. by split.
      - rewrite filter_cons_False by (rewrite Hs; by intros [? ?]).
        destruct new1; [constructor|done]. }
    destruct rest as [|w' rest'].
    + cbn [capture_loop]. exists new1. split; [done|]. split; [|done].
      cbn. rewrite Hp1. by destruct (shown_folder w).
    + cbn [length] in Hlen.
      rewrite Z.mod_small by lia.
      destruct (IH (z + 1) (m ++ new1)) as (new2 & -> & Hp2 & Hf2);
        [lia | cbn [length]; lia | done |].
      exists (new1 ++ new2). split; [by rewrite app_assoc|]. split.
      * rewrite fmap_app, Hp1, Hp2.
        destruct (shown_folder w) eqn:Hs; cbn [omap list_omap option_list app];
          by rewrite Hs.
      * change (w :: w' :: rest') with ([w] ++ w' :: rest').
        rewrite filter_app. by apply Forall2_app.
Qed.

(** The captured list follows the Z order of the screen, front first:
    its paths are those of the visible folder windows whose path resolves,
    in the order the screen stacks them, and each record carries the
    placement of its window. *)
Lemma GetOpenExplorerWindows_in_z_order s :
  Z.of_nat (length (zorder s)) <= 2 ^ 32 ->
  path <$> GetOpenExplorerWindows s = omap shown_folder (zorder s) /\
  Forall2 (fun e w => placement e = w_placement w /\ shown_folder w = Some (path e))
    (GetOpenExplorerWindows s)
    (filter (fun w => is_Some (shown_folder w)) (zorder s)).
Proof.
  intros L. unfold GetOpenExplorerWindows.
  destruct (capture_loop_appends s (zorder s) 0 []) as (new & -> & Hp & Hf);
    [lia | lia | constructor |].
  cbn [app]. split.
  - rewrite <- Hp. by rewrite <- list_fmap_compose.
  - by apply Forall2_fmap_l.
Qed.

End CaptureOrder.

(** ** Session replay: the claims *)

Section ReplayClaims.
Import Desktop Session Samples.

Variable shell_opens : string -> Screen -> Screen.

Lemma restore_loop_app after window before r :
  restore_loop shell_opens (after ++ window :: before) r =
  restore_loop shell_opens after
    (restore_window shell_opens window (restore_loop shell_opens before r)).
Proof.
  unfold restore_loop.
  rewrite rev_app_distr. cbn [rev]. by rewrite !foldl_app.
Qed.

Lemma launched_app a b : launched (a ++ b) = launched a ++ launched b.
Proof. apply omap_app. Qed.

Lemma path_nonempty (p : string) : negb (String.eqb p "") = true <-> p ≠ "".
Proof. rewrite negb_true_iff. apply String.eqb_neq. Qed.

Lemma launched_restore_window window r :
  launched (made (restore_window shell_opens window r)) =
  launched (made r) ++ launchable [window].
Proof.
  unfold restore_window, launchable. cbn [fmap list_fmap].
  destruct (String.eqb_spec (path window) "") as [E|E]; cbn [negb].
  - rewrite filter_cons_False by (by intros ?). by rewrite app_nil_r.
  - rewrite filter_cons_True by done.
    destruct (FindFolderWindow _ _); cbn [made];
      rewrite ?launched_app; cbn; [|done].
    repeat case_match; cbn; by rewrite ?app_nil_r.
Qed.

Lemma launchable_app a b : launchable (a ++ b) = launchable a ++ launchable b.
Proof. unfold launchable. by rewrite fmap_app, filter_app. Qed.

Lemma launched_restore_loop windows r :
  launched (made (restore_loop shell_opens windows r)) =
  launched (made r) ++ launchable (rev windows).
Proof.
  revert r. induction windows as [|window before IH]; intros r.
  - cbn. by rewrite app_nil_r.
  - change (window :: before) with ([] ++ window :: before).
    rewrite restore_loop_app. cbn [app rev].
    change (restore_loop shell_opens [] ?x) with x.
    rewrite launched_restore_window, IH, launchable_app.
    by rewrite app_assoc.
Qed.


Lemma find_folder_window_found p s h :
  FindFolderWindow p s = Some h ->
  exists w q,
    w ∈ zorder s /\ w_hwnd w = h /\ is_cabinet w = true /\
    w_visible w = true /\ w_folder w = Some q /\ wcsicmp_eq q p = true.
Proof.
  unfold FindFolderWindow. intros H.
  destruct (head _) as [w|] eqn:Hh; [|done]. cbn in H. injection H as <-.
  apply head_Some_elem_of, list_elem_of_filter in Hh as [HP Hin].
  apply andb_true_iff in HP as [[Hc Hv]%andb_true_iff Hq].
  destruct (w_folder w) as [q|] eqn:Hw; [|done].
  by exists w, q.
Qed.

Lemma same_window_refl w : same_window w w.
Proof. done. Qed.

Lemma same_window_trans w1 w2 w3 :
  same_window w1 w2 -> same_window w2 w3 -> same_window w1 w3.
Proof. unfold same_window. intros (?&?&?) (?&?&?). repeat split; congruence. Qed.

Lemma update_window_same h f l :
  (forall w, same_window w (f w)) ->
  Forall2 same_window l (update_window h f l).
Proof.
  intros Hf. unfold update_window. apply Forall2_fmap_r, Forall_Forall2_diag.
  apply Forall_forall. intros w _. specialize (Hf w).
  unfold same_window, compose in *. cbv beta.
  destruct (w_hwnd w =? h); [exact Hf | done].
Qed.

Lemma Forall2_same_window_trans l1 l2 l3 :
  Forall2 same_window l1 l2 -> Forall2 same_window l2 l3 ->
  Forall2 same_window l1 l3.
Proof.
  intros H. revert l3. induction H as [|w1 w2 l1 l2 Hw _ IH]; intros l3 H3.
  - by inversion H3.
  - inversion H3 as [|? w3 ? l3' Hw' H3']; subst. constructor.
    + by eapply same_window_trans.
    + by apply IH.
Qed.

Lemma ShowWindow_same h cmd s :
  Forall2 same_window (zorder s) (zorder (ShowWindow h cmd s)).
Proof. by apply update_window_same. Qed.

Lemma MoveWindow_same h x y width height s :
  Forall2 same_window (zorder s) (zorder (MoveWindow h x y width height s)).
Proof. by apply update_window_same. Qed.

Lemma filter_hwnd_same h l l' :
  Forall2 same_window l l' ->
  Forall2 same_window (filter (fun w => w_hwnd w = h) l)
                      (filter (fun w => w_hwnd w = h) l').
Proof.
  induction 1 as [|w w' l l' Hw _ IH]; [constructor|].
  destruct Hw as (Hh & Hc & Hf).
  destruct (decide (w_hwnd w = h)) as [E|E].
  - rewrite !filter_cons_True by congruence. by constructor.
  - rewrite !filter_cons_False by congruence. done.
Qed.

Lemma filter_hwnd_none (l : list Window) h :
  h ∉ (w_hwnd <$> l) -> filter (fun w => w_hwnd w = h) l = [].
Proof.
  induction l as [|w l IH]; [done|]. cbn [fmap list_fmap].
  intros [Hne Hnin]%not_elem_of_cons.
  rewrite filter_cons_False by congruence. by apply IH.
Qed.

Lemma filter_hwnd_unique (l : list Window) w0 :
  NoDup (w_hwnd <$> l) -> w0 ∈ l ->
  filter (fun w => w_hwnd w = w_hwnd w0) l = [w0].
Proof.
  induction l as [|w l IH]; [by intros _ ?%elem_of_nil|].
  cbn [fmap list_fmap]. intros [Hnin Hnd]%NoDup_cons [->|Hin]%elem_of_cons.
  - rewrite filter_cons_True by done. f_equal. by apply filter_hwnd_none.
  - rewrite filter_cons_False; [by apply IH|].
    intros E. apply Hnin. rewrite E. by apply list_elem_of_fmap_2.
Qed.

Lemma SetWindowPos_top_head h s t rest :
  filter (fun w => w_hwnd w = h) (zorder s) = t :: rest ->
  head (zorder (SetWindowPos h HWND_TOP s)) = Some t.
Proof. intros E. unfold SetWindowPos. cbn. by rewrite E. Qed.

(** An iteration that finds its window and does not minimise it ends
    with that window first in the Z order. *)
Lemma restore_window_top window r h :
  path window ≠ "" ->
  FindFolderWindow (path window) (shell_opens (path window) (screen r)) = Some h ->
  showCmd (placement window) ≠ SW_MINIMIZE ->
  NoDup (w_hwnd <$> zorder (shell_opens (path window) (screen r))) ->
  exists top q,
    head (zorder (screen (restore_window shell_opens window r))) = Some top /\
    w_hwnd top = h /\ is_cabinet top = true /\
    w_folder top = Some q /\ wcsicmp_eq q (path window) = true.
Proof.
  intros Hp Hf Hc Hnd.
  destruct (find_folder_window_found _ _ _ Hf)
    as (w0 & q & Hin & Hh & Hcab & _ & Hq & Hcmp).
  unfold restore_window. rewrite (proj2 (path_nonempty _) Hp), Hf.
  destruct (Z.eqb_spec (showCmd (placement window)) SW_MINIMIZE) as [|_]; [done|].
  cbn [screen].
  set (scr := shell_opens (path window) (screen r)) in *.
  set (scr2 := MoveWindow h _ _ _ _ (ShowWindow h SW_NORMAL scr)).
  set (scr3 := if showCmd (placement window) =? SW_MAXIMIZE
               then ShowWindow h SW_MAXIMIZE scr2 else scr2).
  assert (Forall2 same_window (zorder scr) (zorder scr3)) as Hsame.
  { eapply Forall2_same_window_trans; [apply (ShowWindow_same h SW_NORMAL)|].
    eapply Forall2_same_window_trans; [apply MoveWindow_same|]. fold scr2.
    subst scr3. destruct (showCmd (placement window) =? SW_MAXIMIZE).
    - apply ShowWindow_same.
    - apply Forall_Forall2_diag, Forall_forall. intros; apply same_window_refl. }
  apply (filter_hwnd_same h) in Hsame. subst h.
  rewrite (filter_hwnd_unique _ w0 Hnd Hin) in Hsame.
  inversion Hsame as [|? top ? rest (Hth & Htc & Htf) Hrest E1 E2]; subst.
  exists top, q. split; [by eapply SetWindowPos_top_head|].
  split; [done|]. split; [|split; [congruence|done]].
  unfold is_cabinet in *. by rewrite Htc.
Qed.

(** C6.  Let the visible folder windows of the screen at capture time
    show, front to back, the paths C, B and A, and let each of the three
    launches of the replay bring up a window that the search finds, none
    of the captured windows being one to minimise (so that each found
    window is re-stacked with HWND_TOP).  Then the replay launches A, B
    and C in that order - the reverse of the captured order - and ends
    with a folder window on C first in the Z order. *)
Theorem replay_front_window_on_top s0 s1 A B C :
  omap shown_folder (zorder s0) = [C; B; A] ->
  Z.of_nat (length (zorder s0)) <= 2 ^ 32 ->
  A ≠ "" -> B ≠ "" -> C ≠ "" ->
  resolves shell_opens A s1 ->
  resolves shell_opens B
    (screen (RestoreExplorerWindows shell_opens
               (drop 2 (GetOpenExplorerWindows s0)) s1)) ->
  resolves shell_opens C
    (screen (RestoreExplorerWindows shell_opens
               (drop 1 (GetOpenExplorerWindows s0)) s1)) ->
  Forall (fun w => showCmd (placement w) ≠ SW_MINIMIZE)
    (GetOpenExplorerWindows s0) ->
  NoDup (w_hwnd <$>
           zorder (shell_opens C
                     (screen (RestoreExplorerWindows shell_opens
                                (drop 1 (GetOpenExplorerWindows s0)) s1)))) ->
  path <$> GetOpenExplorerWindows s0 = [C; B; A] /\
  launched (made (RestoreExplorerWindows shell_opens
                    (GetOpenExplorerWindows s0) s1)) = [A; B; C] /\
  exists top q,
    head (zorder (screen (RestoreExplorerWindows shell_opens
                            (GetOpenExplorerWindows s0) s1))) = Some top /\
    is_cabinet top = true /\ w_folder top = Some q /\ wcsicmp_eq q C = true.
Proof.
  intros Hz Hlen HA HB HC _ _ HrC Hcmd Hnd.
  destruct (GetOpenExplorerWindows_in_z_order s0 Hlen) as [Hpaths _].
  rewrite Hz in Hpaths.
  destruct (GetOpenExplorerWindows s0) as [|wC [|wB [|wA [|]]]]; try done.
  cbn in Hpaths. injection Hpaths as EC EB EA. subst A B C.
  cbn [drop] in *.
  split; [done|]. split.
  - unfold RestoreExplorerWindows. rewrite launched_restore_loop.
    cbn [made launched omap list_omap app rev]. unfold launchable.
    cbn [fmap list_fmap]. by rewrite !filter_cons_True.
  - unfold resolves in HrC.
    destruct (FindFolderWindow _ _) as [h|] eqn:Hf in HrC; [|done].
    apply Forall_inv in Hcmd.
    destruct (restore_window_top wC _ h HC Hf Hcmd Hnd)
      as (top & q & Hhead & _ & Hcab & Hq & Hcmp).
    exists top, q. by repeat split.
Qed.

End ReplayClaims.

Section ReplayWitnesses.
Import Desktop Session Samples.


Lemma replay_front_window_on_top_witness :
  path <$> GetOpenExplorerWindows screen_before = ["C:\Users\c"; "D:\b"; "C:\a"] /\
  launched (made (RestoreExplorerWindows explorer_opens
                    (GetOpenExplorerWindows screen_before) screen_after))
  = ["C:\a"; "D:\b"; "C:\Users\c"] /\
  exists top q,
    head (zorder (screen (RestoreExplorerWindows explorer_opens
                            (GetOpenExplorerWindows screen_before) screen_after)))
    = Some top /\
    is_cabinet top = true /\ w_folder top = Some q /\
    wcsicmp_eq q "C:\Users\c" = true.
Proof.
  apply (replay_front_window_on_top explorer_opens screen_before screen_after
           "C:\a" "D:\b" "C:\Users\c").
  - reflexivity.
  - vm_compute. discriminate.
  - discriminate.
  - discriminate.
  - discriminate.
  - vm_compute. discriminate.
  - vm_compute. discriminate.
  - vm_compute. discriminate.
  - vm_compute. repeat constructor; discriminate.
  - apply (bool_decide_unpack _). vm_compute. exact I.
Defined.

End ReplayWitnesses.

(** ** The watchdog: the claim *)

Section WatchdogClaims.
Import Watchdog.

Lemma count_pending_cons pc ts :
  count_pending (pc :: ts) =
  ((if is_pending pc then 1 else 0) + count_pending ts)%nat.
Proof.
  unfold count_pending. destruct (is_pending pc) eqn:E.
  - by rewrite filter_cons_True.
  - rewrite filter_cons_False; [done|]. by rewrite E.
Qed.

Lemma count_pending_app ts ts' :
  count_pending (ts ++ ts') = (count_pending ts + count_pending ts')%nat.
Proof. unfold count_pending. by rewrite filter_app, length_app. Qed.

(** Moving one thread from [pc] to [pc'] moves the count accordingly. *)
Lemma count_pending_insert ts i pc pc' :
  ts !! i = Some pc ->
  (count_pending (<[i := pc']> ts) + (if is_pending pc then 1 else 0)
   = count_pending ts + (if is_pending pc' then 1 else 0))%nat.
Proof.
  revert i. induction ts as [|t ts IH]; intros [|i] H; try done.
  - cbn in H. injection H as ->. change (<[0%nat:=pc']> (pc :: ts)) with (pc' :: ts).
    rewrite !count_pending_cons.
    destruct (is_pending pc), (is_pending pc'); lia.
  - cbn in H. change (<[S i:=pc']> (t :: ts)) with (t :: <[i:=pc']> ts).
    rewrite !count_pending_cons. specialize (IH i H).
    destruct (is_pending t), (is_pending pc), (is_pending pc'); lia.
Qed.

Lemma inv_init tray hwnd_valid : inv (init tray hwnd_valid).
Proof.
  unfold inv. split; [cbn; lia|]. split; [done|].
  cbn. intros [?|[? ?]]; done.
Qed.

Lemma inv_step s s' : inv s -> step s s' -> inv s'.
Proof.
  unfold inv, pending.
  intros (H1 & H2 & H3) Hstep.
  destruct Hstep as [s Hpc|s Hpc|s Hpc|s Hpc|s Hpc|s h Hpc|s Hpc
                    |s i Hi|s i Hi|s i Hi|s i Hi|s i Hi];
    cbn [set_main set_watchdog pc_main g_watchdogThread watchdogs];
    try match goal with
        | |- context [<[i := ?pc']> (watchdogs s)] =>
            pose proof (count_pending_insert _ _ _ pc' Hi) as Hc;
            cbn [is_pending] in Hc
        end.
  - (* enter *)
    split; [done|]. split.
    + intros Hn _. apply H2; [done|]. intros h. by rewrite Hpc.
    + intros [?|[? ?]]; done.
  - (* set restarting *)
    split; [done|]. split.
    + intros Hn _. apply H2; [done|]. intros h. by rewrite Hpc.
    + intros [?|[? ?]]; done.
  - (* guard *)
    split; [done|]. split.
    + intros Hn _. apply H2; [done|]. intros h. by rewrite Hpc.
    + destruct (g_trayMode s); cbn [andb];
        [case_bool_decide|]; intros [?|[? ?]]; done.
  - (* CreateThread succeeds *)
    assert (count_pending (watchdogs s) = 0%nat) as H0.
    { apply H2; [apply H3; by left|]. intros h. by rewrite Hpc. }
    rewrite count_pending_app, H0.
    change (count_pending [At_Sleep]) with 1%nat. cbn [Nat.add].
    split; [lia|]. split.
    + intros _ Hh. by specialize (Hh (length (watchdogs s))).
    + intros _. apply H3. by left.
  - (* CreateThread fails *)
    split; [done|]. split.
    + intros Hn _. apply H2; [done|]. intros h. by rewrite Hpc.
    + intros _. apply H3. by left.
  - (* store handle *)
    split; [done|]. split.
    + intros -> _. apply H2; [apply H3; right; eauto|].
      intros h. by rewrite Hpc.
    + intros [?|[? ?]]; done.
  - (* finish *)
    split; [done|]. split.
    + intros Hn _. apply H2; [done|]. intros h. by rewrite Hpc.
    + intros [?|[? ?]]; done.
  - (* Sleep *)
    split; [lia|]. split; [|done].
    intros Hn Hh. specialize (H2 Hn Hh). lia.
  - (* PostMessage *)
    split; [lia|]. split; [|done].
    intros Hn Hh. specialize (H2 Hn Hh). lia.
  - (* clear restarting *)
    split; [lia|]. split; [|done].
    intros Hn Hh. specialize (H2 Hn Hh). lia.
  - (* clear handle *)
    split; [lia|]. split; [|done].
    intros _ _. lia.
  - (* return *)
    split; [lia|]. split; [|done].
    intros Hn Hh. specialize (H2 Hn Hh). lia.
Qed.

Lemma inv_reachable s : reachable s -> inv s.
Proof.
  intros (tray & hv & Hr). revert s Hr.
  apply rtc_ind_r; [apply inv_init|].
  intros s s' _ Hstep IH. by eapply inv_step.
Qed.

Lemma spawning_step s s' :
  step s s' -> spawns s s' ->
  pc_main s = At_CreateThread /\ watchdogs s' = watchdogs s ++ [At_Sleep].
Proof.
  unfold spawns.
  destruct 1; cbn [set_main set_watchdog watchdogs];
    rewrite ?length_insert, ?length_app; cbn; try lia.
  done.
Qed.

(** C9, amended.  In every state the program can reach, under any
    interleaving of the main thread with the watchdog threads, at most one
    watchdog has yet to clear [g_watchdogThread] (line 107, its last
    statement before [return 0]); such a watchdog is called pending.  A
    step creates a watchdog only from a state in which none is pending; and
    while one is pending, the guard of line 126 finds the handle set, so a
    toggle arriving then creates none.  Nothing is said of a watchdog that
    has cleared the handle and has yet to return. *)
Theorem at_most_one_watchdog_pending s :
  reachable s ->
  (pending s <= 1)%nat
  /\ (forall s', step s s' -> spawns s s' ->
        pending s = 0%nat /\ pending s' = 1%nat)
  /\ (pc_main s = At_Guard -> (1 <= pending s)%nat ->
      g_watchdogThread s ≠ None /\
      forall s', step s s' -> pc_main s' ≠ At_Guard -> pc_main s' = At_Kill).
Proof.
  intros Hr. pose proof (inv_reachable s Hr) as (H1 & H2 & H3).
  split; [done|]. split.
  - intros s' Hstep Hsp.
    destruct (spawning_step s s' Hstep Hsp) as [Hpc Hw].
    assert (pending s = 0%nat) as H0.
    { apply H2; [apply H3; by left|]. intros h. by rewrite Hpc. }
    split; [done|]. unfold pending in *.
    by rewrite Hw, count_pending_app, H0.
  - intros Hpc Hp.
    assert (g_watchdogThread s ≠ None) as Hn.
    { intros Hn. rewrite H2 in Hp; [lia|done|]. intros h. by rewrite Hpc. }
    split; [done|]. intros s' Hstep Hpc'.
    destruct Hstep; cbn [set_main set_watchdog pc_main] in *; try congruence.
    destruct (g_trayMode s); cbn [andb]; [|done].
    by case_bool_decide.
Qed.

Ltac advance rule :=
  eapply rtc_l; [by rule|]; vm_compute.

Lemma at_most_one_watchdog_pending_witness :
  (pending Samples.second_toggle_at_guard <= 1)%nat
  /\ (forall s', step Samples.second_toggle_at_guard s' ->
        spawns Samples.second_toggle_at_guard s' ->
        pending Samples.second_toggle_at_guard = 0%nat /\ pending s' = 1%nat)
  /\ (pc_main Samples.second_toggle_at_guard = At_Guard ->
      (1 <= pending Samples.second_toggle_at_guard)%nat ->
      g_watchdogThread Samples.second_toggle_at_guard ≠ None /\
      forall s', step Samples.second_toggle_at_guard s' ->
                 pc_main s' ≠ At_Guard -> pc_main s' = At_Kill).
Proof.
  apply (at_most_one_watchdog_pending Samples.second_toggle_at_guard).
  exists true, true.
  advance ltac:(apply main_enter).
  advance ltac:(apply main_set_restarting).
  advance ltac:(apply main_guard).
  advance ltac:(apply main_create_thread).
  advance ltac:(eapply main_store_handle).
  advance ltac:(apply main_finish).
  advance ltac:(apply main_enter).
  advance ltac:(apply main_set_restarting).
  apply rtc_refl.
Defined.

(** What "pending" leaves out: between line 107 and [return 0] a watchdog
    can still exist while the next toggle creates a new one. *)
Lemma returning_watchdog_may_overlap :
  reachable Samples.returning_next_to_new /\
  pending Samples.returning_next_to_new = 1%nat.
Proof.
  split; [|reflexivity]. exists true, true.
  advance ltac:(apply main_enter).
  advance ltac:(apply main_set_restarting).
  advance ltac:(apply main_guard).
  advance ltac:(apply main_create_thread).
  advance ltac:(eapply main_store_handle).
  advance ltac:(apply main_finish).
  advance ltac:(apply (watchdog_sleep _ 0)).
  advance ltac:(apply (watchdog_post _ 0)).
  advance ltac:(apply (watchdog_clear_restarting _ 0)).
  advance ltac:(apply (watchdog_clear_handle _ 0)).
  advance ltac:(apply main_enter).
  advance ltac:(apply main_set_restarting).
  advance ltac:(apply main_guard).
  advance ltac:(apply main_create_thread).
  apply rtc_refl.
Qed.

(** The claim of C9 fails for "not yet completed": the guard of line 126
    reads [g_watchdogThread], which a watchdog clears before it returns.
    With the first watchdog between line 107 and [return 0], the second
    toggle passes the guard and [CreateThread] starts a second watchdog:
    one thread that has not completed before the step, two after it. *)
Lemma watchdog_created_beside_unfinished :
  reachable Samples.returning_at_create_thread
  /\ step Samples.returning_at_create_thread Samples.returning_next_to_new
  /\ spawns Samples.returning_at_create_thread Samples.returning_next_to_new
  /\ running Samples.returning_at_create_thread = 1%nat
  /\ running Samples.returning_next_to_new = 2%nat.
Proof.
  split; [|split; [|split; [|split]]].
  - exists true, true.
    advance ltac:(apply main_enter).
    advance ltac:(apply main_set_restarting).
    advance ltac:(apply main_guard).
    advance ltac:(apply main_create_thread).
    advance ltac:(eapply main_store_handle).
    advance ltac:(apply main_finish).
    advance ltac:(apply (watchdog_sleep _ 0)).
    advance ltac:(apply (watchdog_post _ 0)).
    advance ltac:(apply (watchdog_clear_restarting _ 0)).
    advance ltac:(apply (watchdog_clear_handle _ 0)).
    advance ltac:(apply main_enter).
    advance ltac:(apply main_set_restarting).
    advance ltac:(apply main_guard).
    apply rtc_refl.
  - exact (main_create_thread Samples.returning_at_create_thread eq_refl).
  - unfold spawns. cbn. lia.
  - reflexivity.
  - reflexivity.
Qed.

End WatchdogClaims.

(** * Further properties of the code *)

(** ** The registry functions: handles, frame, broadcast *)

Section TogglerMore.
Import Registry Toggler Samples.

Local Abbreviation RW := (Z.lor KEY_READ KEY_WRITE).

Ltac open_keys w :=
  rewrite run_bind, run_open; cbn [fst snd];
  destruct (open_status (hkcu w) keyPath _ =? ERROR_SUCCESS) eqn:?E1; cbn [negb];
  [ rewrite run_bind, run_ret; cbn [fst snd]
  | rewrite run_bind, run_open; cbn [fst snd];
    change (hkcu (logged w _)) with (hkcu w); rewrite logged_logged;
    destruct (open_status (hkcu w) altKeyPath _ =? ERROR_SUCCESS) eqn:?E2;
    cbn [negb] ].

(** The calls [GetCurrentTaskbarSetting] makes: the opens, then, if a key
    opened, one read and one close. *)
Lemma get_setting_calls stack w :
  made_by (GetCurrentTaskbarSetting stack) w =
  open_calls (hkcu w) KEY_READ ++
  match opens (hkcu w) KEY_READ with
  | None => []
  | Some hKey =>
      [Call_RegQueryValueExW hKey "Settings"
         (match stored_value (hkcu w) hKey with
          | None => ERROR_FILE_NOT_FOUND
          | Some v => if (64 <? length (rv_data v))%nat then ERROR_MORE_DATA
                      else ERROR_SUCCESS
          end);
       Call_RegCloseKey hKey]
  end.
Proof.
  unfold made_by, GetCurrentTaskbarSetting, opens, open_calls, stored_value.
  assert (forall hKey cs,
    drop (length (calls w))
      (calls
         (('(result, type, settings, settingsSize) ←
             RegQueryValueExW hKey "Settings" REG_BINARY (uninitialised stack 64) 64;
           RegCloseKey hKey ;;
           if negb (result =? ERROR_SUCCESS) then mret TASKBAR_ALWAYS_VISIBLE
           else mret (settings !!! 8%nat)) (logged w cs)).2)
    = cs ++
      [Call_RegQueryValueExW hKey "Settings"
         (match hkcu w !! hKey ≫= (fun k => rk_values k !! "Settings") with
          | None => ERROR_FILE_NOT_FOUND
          | Some v => if (64 <? length (rv_data v))%nat then ERROR_MORE_DATA
                      else ERROR_SUCCESS
          end);
       Call_RegCloseKey hKey]) as Htail.
  { intros hKey cs.
    destruct (hkcu w !! hKey ≫= _) as [v|] eqn:Ev;
      [ destruct (Nat.ltb_spec 64 (length (rv_data v)));
        [ rewrite run_bind, (run_query_more _ _ _ _ _ _ v) by done
        | rewrite run_bind, (run_query_ok _ _ _ _ _ _ v) by done ]
      | rewrite run_bind, run_query_missing by done ];
      cbn [fst snd negb Z.eqb ERROR_MORE_DATA ERROR_FILE_NOT_FOUND ERROR_SUCCESS];
      rewrite run_bind, run_close; cbn [fst snd];
      rewrite !logged_logged; apply made_logged. }
  open_keys w; rewrite ?E1, ?E2; cbn [negb].
  - apply Htail.
  - rewrite Htail. by rewrite <- app_assoc.
  - change (drop (length (calls w)) (calls (logged w
             [Call_RegOpenKeyExW keyPath KEY_READ (open_status (hkcu w) keyPath KEY_READ);
              Call_RegOpenKeyExW altKeyPath KEY_READ
                (open_status (hkcu w) altKeyPath KEY_READ)])) = 
           [Call_RegOpenKeyExW keyPath KEY_READ (open_status (hkcu w) keyPath KEY_READ);
              Call_RegOpenKeyExW altKeyPath KEY_READ
                (open_status (hkcu w) altKeyPath KEY_READ)] ++ []).
    by rewrite made_logged.
Qed.

(** The calls [ToggleTaskbarSetting] makes, path by path. *)
Lemma toggle_calls stack w :
  made_by (ToggleTaskbarSetting stack) w =
  open_calls (hkcu w) RW ++
  match opens (hkcu w) RW with
  | None => []
  | Some hKey =>
      match stored_value (hkcu w) hKey with
      | None => [Call_RegQueryValueExW hKey "Settings" ERROR_FILE_NOT_FOUND;
                 Call_RegCloseKey hKey]
      | Some v =>
          if (64 <? length (rv_data v))%nat then
            [Call_RegQueryValueExW hKey "Settings" ERROR_MORE_DATA;
             Call_RegCloseKey hKey]
          else
            [Call_RegQueryValueExW hKey "Settings" ERROR_SUCCESS;
             Call_RegSetValueExW hKey "Settings" REG_BINARY
               (written stack (rv_data v))
               (default ERROR_FILE_NOT_FOUND (write_status (hkcu w) hKey));
             Call_RegCloseKey hKey;
             Call_SendMessageTimeoutW "TraySettings" 1000]
      end
  end.
Proof.
  unfold made_by.
  destruct (opens (hkcu w) RW) as [hKey|] eqn:Ho.
  - destruct (opens_key _ _ _ Ho) as [key Hk].
    unfold stored_value, write_status. rewrite Hk. cbn [mbind option_bind fmap option_fmap option_map default].
    destruct (rk_values key !! "Settings") as [v|] eqn:Hv.
    + destruct (Nat.ltb_spec 64 (length (rv_data v))) as [L|L].
      * rewrite (toggle_unreadable _ _ hKey Ho);
          unfold stored_value; rewrite Hk; cbn; rewrite Hv; [|lia].
        by rewrite drop_app_length.
      * rewrite (toggle_written _ _ _ _ _ Ho Hk Hv L). cbn [snd calls].
        by rewrite drop_app_length.
    + rewrite (toggle_unreadable _ _ hKey Ho);
        unfold stored_value; rewrite Hk; cbn; rewrite Hv; [|done].
      by rewrite drop_app_length.
  - rewrite toggle_unavailable by done. cbn [snd]. by rewrite made_logged, app_nil_r.
Qed.

Lemma obtained_open_calls reg sam :
  obtained_handles (open_calls reg sam) = option_list (opens reg sam).
Proof.
  unfold open_calls, opens. cbn [obtained_handles omap list_omap].
  destruct (open_status reg keyPath sam =? ERROR_SUCCESS); [done|].
  cbn. by destruct (open_status reg altKeyPath sam =? ERROR_SUCCESS).
Qed.

Lemma closed_open_calls reg sam : closed_handles (open_calls reg sam) = [].
Proof. unfold open_calls. by case_match. Qed.

Lemma broadcasts_open_calls reg sam : broadcasts (open_calls reg sam) = [].
Proof. unfold open_calls. by case_match. Qed.

(** X1.  Neither registry function leaks or double-closes a key handle: on
    every path the handles passed to [RegCloseKey] are exactly the handles
    obtained from [RegOpenKeyExW] - one when a key opens, none otherwise -
    and at most one key is ever opened. *)
Theorem registry_handles_are_closed stack w :
  closed_handles (made_by (ToggleTaskbarSetting stack) w)
  = obtained_handles (made_by (ToggleTaskbarSetting stack) w)
  /\ obtained_handles (made_by (ToggleTaskbarSetting stack) w)
     = option_list (opens (hkcu w) RW)
  /\ closed_handles (made_by (GetCurrentTaskbarSetting stack) w)
     = obtained_handles (made_by (GetCurrentTaskbarSetting stack) w)
  /\ obtained_handles (made_by (GetCurrentTaskbarSetting stack) w)
     = option_list (opens (hkcu w) KEY_READ).
Proof.
  rewrite toggle_calls, get_setting_calls.
  unfold closed_handles, obtained_handles. rewrite !omap_app.
  fold (closed_handles (open_calls (hkcu w) RW)).
  fold (obtained_handles (open_calls (hkcu w) RW)).
  fold (closed_handles (open_calls (hkcu w) KEY_READ)).
  fold (obtained_handles (open_calls (hkcu w) KEY_READ)).
  rewrite !closed_open_calls, !obtained_open_calls.
  destruct (opens (hkcu w) RW) as [k|], (opens (hkcu w) KEY_READ) as [k'|];
    repeat case_match; done.
Qed.

(** The registry after a call, in closed form. *)
Lemma toggle_registry stack w :
  hkcu (ToggleTaskbarSetting stack w).2 = hkcu w
  \/ exists hKey key v,
       opens (hkcu w) RW = Some hKey /\ hkcu w !! hKey = Some key /\
       rk_values key !! "Settings" = Some v /\
       (length (rv_data v) <= 64)%nat /\ rk_set_status key = ERROR_SUCCESS /\
       hkcu (ToggleTaskbarSetting stack w).2 =
       <[hKey := {| rk_granted := rk_granted key;
                    rk_values :=
                      <["Settings" := {| rv_type := REG_BINARY;
                                         rv_data := written stack (rv_data v) |}]>
                        (rk_values key);
                    rk_set_status := rk_set_status key |}]> (hkcu w).
Proof.
  destruct (toggle_cases stack w)
    as [[Ho E]|[(hKey & st & Ho & Hst & E)|(hKey & key & v & Ho & Hk & Hv & L & E)]];
    rewrite E; cbn [snd hkcu logged]; try by left.
  destruct (Z.eqb_spec (rk_set_status key) ERROR_SUCCESS) as [Hs|Hs]; [|by left].
  right. by exists hKey, key, v.
Qed.

(** X2.  [ToggleTaskbarSetting] creates and deletes nothing: the registry
    has the same keys after the call, every key has the same value names,
    and the only value whose content can differ is "Settings" under the key
    the call opened. *)
Theorem toggle_frame stack w :
  dom (hkcu (ToggleTaskbarSetting stack w).2) = dom (hkcu w)
  /\ (forall k name,
        is_Some (value_at (hkcu (ToggleTaskbarSetting stack w).2) k name)
        <-> is_Some (value_at (hkcu w) k name))
  /\ (forall k name,
        value_at (hkcu (ToggleTaskbarSetting stack w).2) k name
        ≠ value_at (hkcu w) k name ->
        opens (hkcu w) RW = Some k /\ name = "Settings").
Proof.
  destruct (toggle_registry stack w)
    as [->|(hKey & key & v & Ho & Hk & Hv & L & Hs & ->)]; [by repeat split|].
  assert (forall k name,
            (k, name) ≠ (hKey, "Settings") ->
            value_at (<[hKey := {| rk_granted := rk_granted key;
                    rk_values :=
                      <["Settings" := {| rv_type := REG_BINARY;
                                         rv_data := written stack (rv_data v) |}]>
                        (rk_values key);
                    rk_set_status := rk_set_status key |}]> (hkcu w)) k name
            = value_at (hkcu w) k name) as Hframe.
  { intros k name Hne. unfold value_at.
    destruct (decide (hKey = k)) as [<-|Hk'].
    - rewrite lookup_insert_eq, Hk. cbn.
      apply lookup_insert_ne. congruence.
    - by rewrite lookup_insert_ne. }
  split; [|split].
  - apply dom_insert_lookup_L. by rewrite Hk.
  - intros k name.
    destruct (decide ((k, name) = (hKey, "Settings"))) as [[= -> ->]|Hne].
    + unfold value_at. rewrite lookup_insert_eq, Hk. cbn.
      rewrite lookup_insert_eq, Hv. split; eauto.
    + by rewrite Hframe.
  - intros k name Hdiff.
    destruct (decide ((k, name) = (hKey, "Settings"))) as [[= -> ->]|Hne]; [done|].
    by rewrite Hframe in Hdiff.
Qed.

(** X3.  A write that fails is not a partial write and does not stop the
    announcement: when the key opens and the blob is read but
    [RegSetValueExW] reports an error, the call returns false (WriteDenied),
    the registry is as it was, the handle is closed, and the
    settings-changed broadcast is sent all the same. *)
Theorem toggle_write_denied stack w hKey blob st :
  opens (hkcu w) RW = Some hKey ->
  stored_blob (hkcu w) hKey = Some blob ->
  (length blob <= 64)%nat ->
  write_status (hkcu w) hKey = Some st ->
  st ≠ ERROR_SUCCESS ->
  (ToggleTaskbarSetting stack w).1 = false
  /\ toggle_error (ToggleTaskbarSetting stack w).1
       (made_by (ToggleTaskbarSetting stack) w) = Some WriteDenied
  /\ hkcu (ToggleTaskbarSetting stack w).2 = hkcu w
  /\ closed_handles (made_by (ToggleTaskbarSetting stack) w) = [hKey]
  /\ broadcasts (made_by (ToggleTaskbarSetting stack) w) = [("TraySettings", 1000)].
Proof.
  intros Ho Hb L Hs Hst.
  destruct (stored_blob_inv _ _ _ Hb) as (key & v & Hk & Hv & <-).
  pose proof (write_status_inv _ _ _ _ Hs Hk) as Hkey.
  unfold made_by. rewrite (toggle_written _ _ _ _ _ Ho Hk Hv L).
  cbn [fst snd hkcu calls]. rewrite drop_app_length, Hkey.
  destruct (Z.eqb_spec st ERROR_SUCCESS) as [E|_]; [by destruct Hst|].
  split; [done|]. split.
  - unfold toggle_error. by rewrite (last_app _ [_; _; _; _]).
  - split; [done|].
    unfold closed_handles, broadcasts. rewrite !omap_app.
    fold (closed_handles (open_calls (hkcu w) RW)).
    fold (broadcasts (open_calls (hkcu w) RW)).
    by rewrite closed_open_calls, broadcasts_open_calls.
Qed.

Lemma toggle_write_denied_witness :
  (ToggleTaskbarSetting stack_cc (world_read_only (blob_of x02 64))).1 = false
  /\ toggle_error (ToggleTaskbarSetting stack_cc (world_read_only (blob_of x02 64))).1
       (made_by (ToggleTaskbarSetting stack_cc) (world_read_only (blob_of x02 64)))
     = Some WriteDenied
  /\ hkcu (ToggleTaskbarSetting stack_cc (world_read_only (blob_of x02 64))).2
     = hkcu (world_read_only (blob_of x02 64))
  /\ closed_handles
       (made_by (ToggleTaskbarSetting stack_cc) (world_read_only (blob_of x02 64)))
     = [keyPath]
  /\ broadcasts
       (made_by (ToggleTaskbarSetting stack_cc) (world_read_only (blob_of x02 64)))
     = [("TraySettings", 1000)].
Proof.
  apply (toggle_write_denied stack_cc (world_read_only (blob_of x02 64))
           keyPath (blob_of x02 64) ERROR_ACCESS_DENIED);
    vm_compute; (reflexivity || lia || discriminate).
Defined.

(** X4.  The settings-changed broadcast ("TraySettings", one-second
    timeout) is sent exactly once when a key opened and its blob was read,
    whatever the write then reported, and not at all when no key opened or
    the read failed. *)
Theorem toggle_broadcast stack w :
  broadcasts (made_by (ToggleTaskbarSetting stack) w) =
  match opens (hkcu w) RW with
  | None => []
  | Some hKey =>
      match stored_blob (hkcu w) hKey with
      | None => []
      | Some blob =>
          if (64 <? length blob)%nat then [] else [("TraySettings", 1000)]
      end
  end.
Proof.
  rewrite toggle_calls. unfold broadcasts. rewrite omap_app.
  fold (broadcasts (open_calls (hkcu w) RW)). rewrite broadcasts_open_calls.
  unfold stored_blob.
  destruct (opens (hkcu w) RW) as [hKey|]; [|done].
  destruct (stored_value (hkcu w) hKey) as [v|]; [|done].
  cbn [fmap option_fmap option_map app].
  by destruct (64 <? length (rv_data v))%nat.
Qed.

Lemma stored_value_inv reg k v :
  stored_value reg k = Some v ->
  exists key, reg !! k = Some key /\ rk_values key !! "Settings" = Some v.
Proof.
  unfold stored_value. intros H.
  destruct (reg !! k) as [key|]; [|done]. by exists key.
Qed.

(** X5.  The write-back keeps the length of the value and stamps it
    REG_BINARY: whatever type the stored "Settings" value had, after a
    successful toggle it has type REG_BINARY and as many bytes as before. *)
Theorem toggle_write_back_shape stack w hKey v :
  opens (hkcu w) RW = Some hKey ->
  stored_value (hkcu w) hKey = Some v ->
  (length (rv_data v) <= 64)%nat ->
  write_status (hkcu w) hKey = Some ERROR_SUCCESS ->
  exists v',
    stored_value (hkcu (ToggleTaskbarSetting stack w).2) hKey = Some v' /\
    rv_type v' = REG_BINARY /\
    length (rv_data v') = length (rv_data v).
Proof.
  intros Ho Hsv L Hs.
  destruct (stored_value_inv _ _ _ Hsv) as (key & Hk & Hv).
  pose proof (write_status_inv _ _ _ _ Hs Hk) as Hkey.
  rewrite (toggle_written _ _ _ _ _ Ho Hk Hv L). cbn [snd hkcu]. rewrite Hkey.
  cbn [Z.eqb ERROR_SUCCESS]. eexists. split.
  - unfold stored_value. rewrite lookup_insert_eq. cbn. apply lookup_insert_eq.
  - split; [done|]. cbn. by apply length_written.
Qed.

Lemma toggle_write_back_shape_witness :
  exists v',
    stored_value
      (hkcu (ToggleTaskbarSetting stack_cc (world_typed 1 (blob_of x03 48))).2)
      keyPath = Some v' /\
    rv_type v' = REG_BINARY /\
    length (rv_data v') = length (rv_data {| rv_type := 1; rv_data := blob_of x03 48 |}).
Proof.
  apply (toggle_write_back_shape stack_cc (world_typed 1 (blob_of x03 48)) keyPath
           {| rv_type := 1; rv_data := blob_of x03 48 |});
    vm_compute; (reflexivity || lia).
Defined.

(** For a blob that reaches offset 8 the bytes written do not depend on
    the stack. *)
Lemma written_reaching stack data b :
  data !! 8%nat = Some b -> (length data <= 64)%nat ->
  written stack data = <[8%nat := toggled b]> data.
Proof.
  intros Hb L. apply list_eq. intros i.
  destruct (decide (i = 8%nat)) as [->|Hi].
  - rewrite (written_lookup_mode _ _ b) by done.
    symmetry. apply list_lookup_insert_eq. by eapply lookup_lt_Some.
  - by rewrite written_lookup_ne, list_lookup_insert_ne.
Qed.

(** For a blob that stops short of offset 8 they are the blob itself. *)
Lemma written_short stack data :
  (length data <= 8)%nat -> written stack data = data.
Proof.
  intros L. apply list_eq. intros i.
  destruct (decide (i = 8%nat)) as [->|Hi].
  - unfold written. rewrite lookup_take_ge by lia.
    symmetry. apply lookup_ge_None. lia.
  - by apply written_lookup_ne.
Qed.

Lemma toggled_thrice b : toggled (toggled (toggled b)) = toggled b.
Proof.
  unfold toggled.
  destruct (Byte.eqb b TASKBAR_ALWAYS_VISIBLE); reflexivity.
Qed.

Lemma toggled_is_a_mode b :
  toggled b = TASKBAR_ALWAYS_VISIBLE \/ toggled b = TASKBAR_AUTOHIDE.
Proof. unfold toggled. destruct (Byte.eqb b TASKBAR_ALWAYS_VISIBLE); auto. Qed.

(** X6.  One toggle normalises the mode byte and from then on the toggle
    is a true flip: after a successful toggle the stored byte at offset 8 is
    0x02 or 0x03 whatever it was, and three toggles leave the same blob as
    one. *)
Theorem toggle_settles stack1 stack2 stack3 w hKey blob b :
  opens (hkcu w) RW = Some hKey ->
  stored_blob (hkcu w) hKey = Some blob ->
  blob !! 8%nat = Some b ->
  (length blob <= 64)%nat ->
  write_status (hkcu w) hKey = Some ERROR_SUCCESS ->
  (stored_byte (hkcu (ToggleTaskbarSetting stack1 w).2) hKey 8
     = Some TASKBAR_ALWAYS_VISIBLE \/
   stored_byte (hkcu (ToggleTaskbarSetting stack1 w).2) hKey 8
     = Some TASKBAR_AUTOHIDE)
  /\ stored_blob
       (hkcu (ToggleTaskbarSetting stack3
                (ToggleTaskbarSetting stack2
                   (ToggleTaskbarSetting stack1 w).2).2).2) hKey
     = stored_blob (hkcu (ToggleTaskbarSetting stack1 w).2) hKey.
Proof.
  intros Ho Hb Hb8 L Hs.
  assert (8 < length blob)%nat as L8 by (by eapply lookup_lt_Some).
  set (w1 := (ToggleTaskbarSetting stack1 w).2).
  set (w2 := (ToggleTaskbarSetting stack2 w1).2).
  destruct (toggle_once stack1 w hKey blob Ho Hb L Hs) as [_ H1].
  rewrite (written_reaching _ _ b) in H1 by done. fold w1 in H1.
  assert (forall c, (<[8%nat := c]> blob : list BYTE) !! 8%nat = Some c) as Hins
    by (intros c; by apply list_lookup_insert_eq).
  destruct (toggle_once stack2 w1 hKey _
              ltac:(subst w1; by rewrite toggle_keeps_opens) H1
              ltac:(by rewrite length_insert)
              ltac:(subst w1; by rewrite toggle_keeps_write_status)) as [_ H2].
  rewrite (written_reaching _ _ (toggled b)) in H2
    by (done || by rewrite length_insert).
  rewrite list_insert_insert_eq in H2. fold w2 in H2.
  destruct (toggle_once stack3 w2 hKey _
              ltac:(subst w2 w1; by rewrite !toggle_keeps_opens) H2
              ltac:(by rewrite length_insert)
              ltac:(subst w2 w1; by rewrite !toggle_keeps_write_status)) as [_ H3].
  rewrite (written_reaching _ _ (toggled (toggled b))) in H3
    by (done || by rewrite length_insert).
  rewrite list_insert_insert_eq, toggled_thrice in H3.
  split.
  - unfold stored_byte. rewrite H1. cbn. rewrite Hins.
    destruct (toggled_is_a_mode b) as [-> | ->]; auto.
  - by rewrite H3, H1.
Qed.

Lemma toggle_settles_witness :
  (stored_byte (hkcu (ToggleTaskbarSetting stack_cc
                        (world_with keyPath (blob_of xff 64))).2) keyPath 8
     = Some TASKBAR_ALWAYS_VISIBLE \/
   stored_byte (hkcu (ToggleTaskbarSetting stack_cc
                        (world_with keyPath (blob_of xff 64))).2) keyPath 8
     = Some TASKBAR_AUTOHIDE)
  /\ stored_blob
       (hkcu (ToggleTaskbarSetting stack_cc
                (ToggleTaskbarSetting stack_cc
                   (ToggleTaskbarSetting stack_cc
                      (world_with keyPath (blob_of xff 64))).2).2).2) keyPath
     = stored_blob (hkcu (ToggleTaskbarSetting stack_cc
                            (world_with keyPath (blob_of xff 64))).2) keyPath.
Proof.
  apply (toggle_settles stack_cc stack_cc stack_cc
           (world_with keyPath (blob_of xff 64)) keyPath (blob_of xff 64) xff);
    vm_compute; (reflexivity || lia).
Defined.

(** X7.  A stored blob that stops short of offset 8 is not changed by the
    toggle, yet the call reports success: line 366 then updates a byte of
    the buffer that lies beyond the data, and the write-back, cut to the
    length read, hands the stored bytes back as they were. *)
Theorem toggle_short_blob stack w hKey blob :
  opens (hkcu w) RW = Some hKey ->
  stored_blob (hkcu w) hKey = Some blob ->
  (length blob <= 8)%nat ->
  write_status (hkcu w) hKey = Some ERROR_SUCCESS ->
  (ToggleTaskbarSetting stack w).1 = true
  /\ stored_blob (hkcu (ToggleTaskbarSetting stack w).2) hKey = Some blob
  /\ filter (fun c => is_write c = true) (made_by (ToggleTaskbarSetting stack) w)
     = [Call_RegSetValueExW hKey "Settings" REG_BINARY blob ERROR_SUCCESS].
Proof.
  intros Ho Hb L Hs.
  destruct (toggle_once stack w hKey blob Ho Hb ltac:(lia) Hs) as [Hr Hw].
  rewrite written_short in Hw by done.
  split; [done|]. split; [done|].
  rewrite toggle_calls, Ho.
  unfold stored_blob in Hb.
  destruct (stored_value (hkcu w) hKey) as [v|]; [|done].
  cbn in Hb. injection Hb as <-.
  destruct (Nat.ltb_spec 64 (length (rv_data v))); [lia|].
  rewrite Hs, written_short by done. cbn [default].
  rewrite filter_app. unfold open_calls.
  destruct (open_status (hkcu w) keyPath RW =? ERROR_SUCCESS); reflexivity.
Qed.

Lemma toggle_short_blob_witness :
  (ToggleTaskbarSetting stack_cc (world_with altKeyPath (blob_of x02 8))).1 = true
  /\ stored_blob
       (hkcu (ToggleTaskbarSetting stack_cc (world_with altKeyPath (blob_of x02 8))).2)
       altKeyPath = Some (blob_of x02 8)
  /\ filter (fun c => is_write c = true)
       (made_by (ToggleTaskbarSetting stack_cc) (world_with altKeyPath (blob_of x02 8)))
     = [Call_RegSetValueExW altKeyPath "Settings" REG_BINARY (blob_of x02 8)
          ERROR_SUCCESS].
Proof.
  apply (toggle_short_blob stack_cc (world_with altKeyPath (blob_of x02 8))
           altKeyPath (blob_of x02 8)); vm_compute; (reflexivity || lia).
Defined.

(** X8.  For a stored blob that stops short of offset 8 the reader returns
    what the uninitialised buffer held at offset 8: the read succeeds, fills
    only the front of [settings], and [settings[0x08]] is returned as is. *)
Theorem get_setting_short_blob stack w hKey blob :
  opens (hkcu w) KEY_READ = Some hKey ->
  stored_blob (hkcu w) hKey = Some blob ->
  (length blob <= 8)%nat ->
  (GetCurrentTaskbarSetting stack w).1 = stack 8%nat.
Proof.
  intros Ho Hb L.
  destruct (get_setting_runs stack w) as [-> _]. rewrite Ho.
  unfold stored_blob in Hb.
  destruct (stored_value (hkcu w) hKey) as [v|]; [|done].
  cbn in Hb. injection Hb as <-.
  destruct (Nat.ltb_spec 64 (length (rv_data v))); [lia|].
  apply list_lookup_total_correct. unfold read_into.
  rewrite lookup_app_r by lia. rewrite lookup_drop.
  replace (length (rv_data v) + (8 - length (rv_data v)))%nat with 8%nat by lia.
  reflexivity.
Qed.

Lemma get_setting_short_blob_witness :
  (GetCurrentTaskbarSetting stack_cc (world_with keyPath (blob_of x03 4))).1
  = stack_cc 8%nat.
Proof.
  apply (get_setting_short_blob stack_cc (world_with keyPath (blob_of x03 4))
           keyPath (blob_of x03 4)); vm_compute; (reflexivity || lia).
Defined.

(** What the reader returns when the read succeeds. *)
Lemma get_setting_reads stack w hKey blob b :
  opens (hkcu w) KEY_READ = Some hKey ->
  stored_blob (hkcu w) hKey = Some blob ->
  (length blob <= 64)%nat ->
  blob !! 8%nat = Some b ->
  (GetCurrentTaskbarSetting stack w).1 = b.
Proof.
  intros Ho Hb L Hb8.
  destruct (get_setting_runs stack w) as [-> _]. rewrite Ho.
  unfold stored_blob in Hb.
  destruct (stored_value (hkcu w) hKey) as [v|]; [|done].
  cbn in Hb. injection Hb as <-.
  destruct (Nat.ltb_spec 64 (length (rv_data v))); [lia|].
  apply list_lookup_total_correct. rewrite read_into_lookup; [done|].
  by eapply lookup_lt_Some.
Qed.

(** X9.  Reading after toggling sees the toggle: when the reader opens the
    key the toggler wrote through and the blob reaches offset 8,
    [GetCurrentTaskbarSetting] returns the stored byte before the toggle and
    its flipped value right after it. *)
Theorem get_after_toggle stack0 stack1 stack2 w hKey blob b :
  opens (hkcu w) RW = Some hKey ->
  opens (hkcu w) KEY_READ = Some hKey ->
  stored_blob (hkcu w) hKey = Some blob ->
  blob !! 8%nat = Some b ->
  (length blob <= 64)%nat ->
  write_status (hkcu w) hKey = Some ERROR_SUCCESS ->
  (GetCurrentTaskbarSetting stack0 w).1 = b
  /\ (GetCurrentTaskbarSetting stack2 (ToggleTaskbarSetting stack1 w).2).1
     = toggled b.
Proof.
  intros Ho Hr Hb Hb8 L Hs. split.
  - by apply (get_setting_reads stack0 w hKey blob).
  - destruct (toggle_once stack1 w hKey blob Ho Hb L Hs) as [_ Hw].
    apply (get_setting_reads stack2 _ hKey (written stack1 blob)).
    + by rewrite toggle_keeps_opens.
    + done.
    + rewrite length_written; lia.
    + by apply written_lookup_mode.
Qed.

Lemma get_after_toggle_witness :
  (GetCurrentTaskbarSetting stack_cc (world_with keyPath (blob_of x02 64))).1 = x02
  /\ (GetCurrentTaskbarSetting stack_cc
        (ToggleTaskbarSetting stack_cc (world_with keyPath (blob_of x02 64))).2).1
     = toggled x02.
Proof.
  apply (get_after_toggle stack_cc stack_cc stack_cc
           (world_with keyPath (blob_of x02 64)) keyPath (blob_of x02 64) x02);
    vm_compute; (reflexivity || lia).
Defined.

(** X10.  The reader and the toggler choose their key independently, each
    by what it can open.  When they end up on different keys (the current
    key readable but not writable, the legacy key writable), the toggle
    changes nothing the reader sees: [GetCurrentTaskbarSetting] returns the
    same byte before and after. *)
Theorem get_unaffected_by_toggle_elsewhere stack stack' w kRead kWrite :
  opens (hkcu w) KEY_READ = Some kRead ->
  opens (hkcu w) RW = Some kWrite ->
  kRead ≠ kWrite ->
  (GetCurrentTaskbarSetting stack (ToggleTaskbarSetting stack' w).2).1
  = (GetCurrentTaskbarSetting stack w).1.
Proof.
  intros Hr Ho Hne.
  destruct (get_setting_runs stack w) as [-> _].
  destruct (get_setting_runs stack (ToggleTaskbarSetting stack' w).2) as [-> _].
  rewrite toggle_keeps_opens, Hr.
  destruct (toggle_registry stack' w)
    as [->|(hKey & key & v & Ho' & Hk & Hv & L & Hs & ->)]; [done|].
  assert (hKey = kWrite) as -> by congruence.
  unfold stored_value. by rewrite lookup_insert_ne.
Qed.

Lemma get_unaffected_by_toggle_elsewhere_witness :
  (GetCurrentTaskbarSetting stack_cc
     (ToggleTaskbarSetting stack_cc
        (world_split (blob_of x02 64) (blob_of x02 64))).2).1
  = (GetCurrentTaskbarSetting stack_cc
       (world_split (blob_of x02 64) (blob_of x02 64))).1.
Proof.
  apply (get_unaffected_by_toggle_elsewhere stack_cc stack_cc
           (world_split (blob_of x02 64) (blob_of x02 64)) keyPath altKeyPath);
    vm_compute; (reflexivity || discriminate).
Defined.

Lemma write_access_covers_read granted :
  access_ok granted RW = true -> access_ok granted KEY_READ = true.
Proof.
  unfold access_ok. rewrite !Z.eqb_eq. intros H.
  change KEY_READ with (Z.land RW KEY_READ) at 1.
  by rewrite Z.land_assoc, H.
Qed.

Lemma open_status_read reg k :
  open_status reg k RW = ERROR_SUCCESS -> open_status reg k KEY_READ = ERROR_SUCCESS.
Proof.
  unfold open_status. destruct (reg !! k) as [key|]; [|done].
  destruct (access_ok (rk_granted key) RW) eqn:E; [|done].
  by rewrite write_access_covers_read.
Qed.

(** X11.  Whatever the toggler can open the reader can open too, since
    KEY_READ asks for a subset of the rights of KEY_READ | KEY_WRITE: if the
    toggler gets a key the reader gets one as well (never its default), and
    when the toggler gets the current key (StuckRects3) the reader gets that
    same key. *)
Theorem reader_opens_what_toggler_opens (reg : gmap string RegKey) hKey :
  opens reg RW = Some hKey ->
  is_Some (opens reg KEY_READ)
  /\ (hKey = keyPath -> opens reg KEY_READ = Some keyPath)
  /\ (opens reg KEY_READ = Some altKeyPath -> hKey = altKeyPath).
Proof.
  intros Ho. pose proof (opens_status _ _ _ Ho) as Hst.
  apply open_status_read in Hst.
  unfold opens in *.
  destruct (Z.eqb_spec (open_status reg keyPath RW) ERROR_SUCCESS) as [E1|E1].
  - injection Ho as <-. rewrite Hst. cbn. by repeat split.
  - destruct (Z.eqb_spec (open_status reg altKeyPath RW) ERROR_SUCCESS) as [E2|E2];
      [|done].
    injection Ho as <-. rewrite Hst. cbn [Z.eqb ERROR_SUCCESS].
    destruct (open_status reg keyPath KEY_READ =? ERROR_SUCCESS);
      repeat split; eauto; done.
Qed.

Lemma reader_opens_what_toggler_opens_witness :
  is_Some (opens (hkcu (world_split (blob_of x02 64) (blob_of x03 64))) KEY_READ)
  /\ (altKeyPath = keyPath ->
      opens (hkcu (world_split (blob_of x02 64) (blob_of x03 64))) KEY_READ
      = Some keyPath)
  /\ (opens (hkcu (world_split (blob_of x02 64) (blob_of x03 64))) KEY_READ
      = Some altKeyPath -> altKeyPath = altKeyPath).
Proof.
  apply (reader_opens_what_toggler_opens
           (hkcu (world_split (blob_of x02 64) (blob_of x03 64))) altKeyPath).
  vm_compute. reflexivity.
Defined.

End TogglerMore.

(** ** The tray icon and its tooltip *)

Section TrayMore.
Import Registry Toggler Tray Samples.

Local Abbreviation RW := (Z.lor KEY_READ KEY_WRITE).

Lemma update_tooltip_text stack t :
  szTip (g_nid (UpdateTrayIconTooltip stack t))
  = tooltip_for (GetCurrentTaskbarSetting stack (registry t)).1.
Proof.
  unfold UpdateTrayIconTooltip.
  by destruct (GetCurrentTaskbarSetting stack (registry t)).
Qed.

Lemma update_tooltip_registry stack t :
  registry (UpdateTrayIconTooltip stack t)
  = (GetCurrentTaskbarSetting stack (registry t)).2.
Proof.
  unfold UpdateTrayIconTooltip.
  by destruct (GetCurrentTaskbarSetting stack (registry t)).
Qed.

Lemma tooltip_for_hide b :
  tooltip_for b = "Hide the taskbar automatically" <-> b ≠ TASKBAR_AUTOHIDE.
Proof.
  unfold tooltip_for. destruct (Byte.eqb b TASKBAR_AUTOHIDE) eqn:E.
  - apply Byte.byte_dec_bl in E. split; [done|]. by intros [].
  - split; [|done]. intros _ ->. by vm_compute in E.
Qed.

Lemma toggled_autohide_iff b :
  toggled b = TASKBAR_AUTOHIDE <-> b = TASKBAR_ALWAYS_VISIBLE.
Proof.
  unfold toggled. destruct (Byte.eqb b TASKBAR_ALWAYS_VISIBLE) eqn:E.
  - apply Byte.byte_dec_bl in E. by split.
  - split; [done|]. intros ->. by vm_compute in E.
Qed.

(** X12.  The tooltip and the toggle disagree about an unrecognised mode
    byte.  The tooltip reads "Hide the taskbar automatically" for every
    stored byte other than 0x03, while a toggle turns auto-hide on only from
    0x02; so the tooltip announces what the next toggle does exactly when
    the stored byte is 0x02 or 0x03. *)
Theorem tooltip_announces_next_toggle stack stack' t hKey blob b :
  opens (hkcu (registry t)) RW = Some hKey ->
  opens (hkcu (registry t)) KEY_READ = Some hKey ->
  stored_blob (hkcu (registry t)) hKey = Some blob ->
  blob !! 8%nat = Some b ->
  (length blob <= 64)%nat ->
  write_status (hkcu (registry t)) hKey = Some ERROR_SUCCESS ->
  (szTip (g_nid (UpdateTrayIconTooltip stack t)) = "Hide the taskbar automatically"
   <-> b ≠ TASKBAR_AUTOHIDE)
  /\ (stored_byte (hkcu (ToggleTaskbarSetting stack' (registry t)).2) hKey 8
      = Some TASKBAR_AUTOHIDE
      <-> b = TASKBAR_ALWAYS_VISIBLE)
  /\ ((szTip (g_nid (UpdateTrayIconTooltip stack t)) = "Hide the taskbar automatically"
       <-> stored_byte (hkcu (ToggleTaskbarSetting stack' (registry t)).2) hKey 8
           = Some TASKBAR_AUTOHIDE)
      <-> b = TASKBAR_ALWAYS_VISIBLE \/ b = TASKBAR_AUTOHIDE).
Proof.
  intros Ho Hr Hb Hb8 L Hs.
  rewrite update_tooltip_text, (get_setting_reads stack _ hKey blob b) by done.
  destruct (toggle_once stack' (registry t) hKey blob Ho Hb L Hs) as [_ Hw].
  unfold stored_byte. rewrite Hw. cbn [mbind option_bind].
  rewrite (written_lookup_mode _ _ b) by done.
  assert (Some (toggled b) = Some TASKBAR_AUTOHIDE <-> b = TASKBAR_ALWAYS_VISIBLE)
    as Ht.
  { rewrite <- toggled_autohide_iff. split; [by intros [= ->]|by intros ->]. }
  split; [apply tooltip_for_hide|]. split; [exact Ht|].
  rewrite tooltip_for_hide, Ht.
  destruct (Byte.byte_eq_dec b TASKBAR_ALWAYS_VISIBLE) as [H2|H2],
           (Byte.byte_eq_dec b TASKBAR_AUTOHIDE) as [H3|H3];
    try (subst b; done); tauto.
Qed.

Lemma tooltip_announces_next_toggle_witness :
  (szTip (g_nid (UpdateTrayIconTooltip stack_cc
                   (fresh (world_with keyPath (blob_of x07 64)))))
   = "Hide the taskbar automatically" <-> x07 ≠ TASKBAR_AUTOHIDE)
  /\ (stored_byte
        (hkcu (ToggleTaskbarSetting stack_cc
                 (registry (fresh (world_with keyPath (blob_of x07 64))))).2)
        keyPath 8 = Some TASKBAR_AUTOHIDE
      <-> x07 = TASKBAR_ALWAYS_VISIBLE)
  /\ ((szTip (g_nid (UpdateTrayIconTooltip stack_cc
                       (fresh (world_with keyPath (blob_of x07 64)))))
       = "Hide the taskbar automatically"
       <-> stored_byte
             (hkcu (ToggleTaskbarSetting stack_cc
                      (registry (fresh (world_with keyPath (blob_of x07 64))))).2)
             keyPath 8 = Some TASKBAR_AUTOHIDE)
      <-> x07 = TASKBAR_ALWAYS_VISIBLE \/ x07 = TASKBAR_AUTOHIDE).
Proof.
  apply (tooltip_announces_next_toggle stack_cc stack_cc
           (fresh (world_with keyPath (blob_of x07 64))) keyPath (blob_of x07 64) x07);
    vm_compute; (reflexivity || lia).
Defined.

(** X13.  After a toggle the refreshed tooltip follows the byte written: it
    reads "Show the taskbar automatically" exactly when the byte before the
    toggle was 0x02, and it differs from the tooltip before the toggle
    exactly when that byte was 0x02 or 0x03 (from any other byte the
    registry changes but the tooltip stays "Hide ..."). *)
Theorem tooltip_after_toggle stack0 stack1 stack2 t hKey blob b :
  opens (hkcu (registry t)) RW = Some hKey ->
  opens (hkcu (registry t)) KEY_READ = Some hKey ->
  stored_blob (hkcu (registry t)) hKey = Some blob ->
  blob !! 8%nat = Some b ->
  (length blob <= 64)%nat ->
  write_status (hkcu (registry t)) hKey = Some ERROR_SUCCESS ->
  (szTip (g_nid (UpdateTrayIconTooltip stack2
                   {| registry := (ToggleTaskbarSetting stack1 (registry t)).2;
                      g_nid := g_nid t; shell_calls := shell_calls t |}))
   = "Show the taskbar automatically" <-> b = TASKBAR_ALWAYS_VISIBLE)
  /\ (szTip (g_nid (UpdateTrayIconTooltip stack2
                      {| registry := (ToggleTaskbarSetting stack1 (registry t)).2;
                         g_nid := g_nid t; shell_calls := shell_calls t |}))
      ≠ szTip (g_nid (UpdateTrayIconTooltip stack0 t))
      <-> b = TASKBAR_ALWAYS_VISIBLE \/ b = TASKBAR_AUTOHIDE).
Proof.
  intros Ho Hr Hb Hb8 L Hs.
  rewrite !update_tooltip_text. cbn [registry].
  rewrite (get_setting_reads stack0 _ hKey blob b) by done.
  destruct (toggle_once stack1 (registry t) hKey blob Ho Hb L Hs) as [_ Hw].
  rewrite (get_setting_reads stack2 _ hKey (written stack1 blob) (toggled b));
    [| by rewrite toggle_keeps_opens | done | rewrite length_written; lia
     | by apply written_lookup_mode ].
  unfold tooltip_for, toggled.
  destruct (Byte.byte_eq_dec b TASKBAR_ALWAYS_VISIBLE) as [H2|H2],
           (Byte.byte_eq_dec b TASKBAR_AUTOHIDE) as [H3|H3];
    try (subst b; done).
  - subst b. cbn. split; split; (done || tauto || auto).
  - subst b. cbn. split; split; (done || tauto || auto).
  - destruct (Byte.eqb b TASKBAR_ALWAYS_VISIBLE) eqn:E2;
      [by apply Byte.byte_dec_bl in E2|].
    destruct (Byte.eqb b TASKBAR_AUTOHIDE) eqn:E3;
      [by apply Byte.byte_dec_bl in E3|].
    cbn. split; split; (done || tauto).
Qed.

Lemma tooltip_after_toggle_witness :
  (szTip (g_nid (UpdateTrayIconTooltip stack_cc
                   {| registry := (ToggleTaskbarSetting stack_cc
                                     (registry (fresh (world_with keyPath
                                                         (blob_of x02 64))))).2;
                      g_nid := g_nid (fresh (world_with keyPath (blob_of x02 64)));
                      shell_calls :=
                        shell_calls (fresh (world_with keyPath (blob_of x02 64))) |}))
   = "Show the taskbar automatically" <-> x02 = TASKBAR_ALWAYS_VISIBLE)
  /\ (szTip (g_nid (UpdateTrayIconTooltip stack_cc
                      {| registry := (ToggleTaskbarSetting stack_cc
                                        (registry (fresh (world_with keyPath
                                                            (blob_of x02 64))))).2;
                         g_nid := g_nid (fresh (world_with keyPath (blob_of x02 64)));
                         shell_calls :=
                           shell_calls (fresh (world_with keyPath (blob_of x02 64))) |}))
      ≠ szTip (g_nid (UpdateTrayIconTooltip stack_cc
                        (fresh (world_with keyPath (blob_of x02 64)))))
      <-> x02 = TASKBAR_ALWAYS_VISIBLE \/ x02 = TASKBAR_AUTOHIDE).
Proof.
  apply (tooltip_after_toggle stack_cc stack_cc stack_cc
           (fresh (world_with keyPath (blob_of x02 64))) keyPath (blob_of x02 64) x02);
    vm_compute; (reflexivity || lia).
Defined.

Lemma destroyed_app a b : destroyed (a ++ b) = destroyed a ++ destroyed b.
Proof. apply omap_app. Qed.

Lemma notified_app a b : notified (a ++ b) = notified a ++ notified b.
Proof. apply omap_app. Qed.

(** X14.  [RemoveTrayIcon] does nothing on a [g_nid] that was never set up
    ([cbSize] not positive); otherwise it asks the shell to delete the icon
    and destroys the icon handle it holds, if it holds one, leaving [NULL]
    behind - so it never destroys [NULL], and calling it again destroys
    nothing more. *)
Theorem remove_tray_icon_destroys_once t :
  (cbSize (g_nid t) <= 0 -> RemoveTrayIcon t = t)
  /\ (0 < cbSize (g_nid t) ->
      hIcon (g_nid (RemoveTrayIcon t)) = 0 /\
      destroyed (shell_calls (RemoveTrayIcon t))
      = destroyed (shell_calls t)
        ++ (if hIcon (g_nid t) =? 0 then [] else [hIcon (g_nid t)]))
  /\ destroyed (shell_calls (RemoveTrayIcon (RemoveTrayIcon t)))
     = destroyed (shell_calls (RemoveTrayIcon t)).
Proof.
  assert (forall u, 0 < cbSize (g_nid u) ->
            hIcon (g_nid (RemoveTrayIcon u)) = 0 /\
            cbSize (g_nid (RemoveTrayIcon u)) = cbSize (g_nid u) /\
            destroyed (shell_calls (RemoveTrayIcon u))
            = destroyed (shell_calls u)
              ++ (if hIcon (g_nid u) =? 0 then [] else [hIcon (g_nid u)])) as Hpos.
  { intros u Hu. unfold RemoveTrayIcon.
    destruct (Z.ltb_spec 0 (cbSize (g_nid u))); [|lia].
    destruct (Z.eqb_spec (hIcon (g_nid u)) 0) as [E|E]; cbn [negb g_nid hIcon cbSize shell_calls];
      rewrite destroyed_app; cbn; by rewrite ?app_nil_r. }
  split; [|split].
  - intros Hc. unfold RemoveTrayIcon.
    by destruct (Z.ltb_spec 0 (cbSize (g_nid t))); [lia|].
  - intros Hc. destruct (Hpos t Hc) as (? & ? & ?). done.
  - destruct (Z.ltb_spec 0 (cbSize (g_nid t))) as [Hc|Hc].
    + destruct (Hpos t Hc) as (Hi & Hcb & Hd).
      destruct (Hpos (RemoveTrayIcon t)) as (_ & _ & Hd'); [lia|].
      rewrite Hd', Hi. cbn. by rewrite app_nil_r.
    + unfold RemoveTrayIcon at 2.
      by destruct (Z.ltb_spec 0 (cbSize (g_nid t))); [lia|].
Qed.

(** X15.  [SetupTrayIcon] followed by [RemoveTrayIcon] destroys exactly
    the icon that the setup loaded (the file icon, or the application icon
    when the file did not load) and sends the shell NIM_ADD then NIM_DELETE
    with the same tooltip; [SetupTrayIcon] itself never destroys an icon, so
    setting up again without removing first drops the handle held. *)
Theorem setup_then_remove sizeof tray16 appicon stack hwnd t :
  0 < sizeof ->
  destroyed (shell_calls (RemoveTrayIcon (SetupTrayIcon sizeof tray16 appicon stack hwnd t)))
  = destroyed (shell_calls t)
    ++ (if tray16 =? 0 then (if appicon =? 0 then [] else [appicon]) else [tray16])
  /\ notified (shell_calls (RemoveTrayIcon (SetupTrayIcon sizeof tray16 appicon stack hwnd t)))
     = notified (shell_calls t)
       ++ [(NIM_ADD, tooltip_for (GetCurrentTaskbarSetting stack (registry t)).1);
           (NIM_DELETE, tooltip_for (GetCurrentTaskbarSetting stack (registry t)).1)]
  /\ destroyed (shell_calls (SetupTrayIcon sizeof tray16 appicon stack hwnd
                               (SetupTrayIcon sizeof tray16 appicon stack hwnd t)))
     = destroyed (shell_calls t).
Proof.
  intros Hs. unfold SetupTrayIcon, RemoveTrayIcon.
  destruct (GetCurrentTaskbarSetting stack (registry t)) as [b reg] eqn:Eg.
  cbn [g_nid cbSize hIcon shell_calls registry fst].
  destruct (GetCurrentTaskbarSetting stack reg) as [b' reg'].
  cbn [g_nid cbSize hIcon shell_calls registry fst].
  destruct (Z.ltb_spec 0 sizeof); [|lia].
  split; [|split].
  - destruct (Z.eqb_spec tray16 0) as [E|E].
    + destruct (Z.eqb_spec appicon 0) as [E'|E']; cbn [negb shell_calls];
        rewrite !destroyed_app; cbn; by rewrite ?app_nil_r.
    + destruct (Z.eqb_spec tray16 0) as [|_]; [done|]. cbn [negb shell_calls].
      rewrite !destroyed_app. cbn. by rewrite ?app_nil_r.
  - repeat (match goal with |- context [if ?c then _ else _] => destruct c end;
            cbn [negb shell_calls]);
      rewrite !notified_app; cbn; by rewrite <- ?app_assoc.
  - rewrite !destroyed_app.
    repeat (match goal with |- context [if ?c then _ else _] => destruct c end);
      cbn; by rewrite ?app_nil_r.
Qed.

Lemma setup_then_remove_witness :
  destroyed (shell_calls (RemoveTrayIcon
     (SetupTrayIcon 976 0 65539 stack_cc 4242 (fresh (world_with keyPath (blob_of x03 64))))))
  = destroyed (shell_calls (fresh (world_with keyPath (blob_of x03 64))))
    ++ (if 0 =? 0 then (if 65539 =? 0 then [] else [65539]) else [0])
  /\ notified (shell_calls (RemoveTrayIcon
        (SetupTrayIcon 976 0 65539 stack_cc 4242
           (fresh (world_with keyPath (blob_of x03 64))))))
     = notified (shell_calls (fresh (world_with keyPath (blob_of x03 64))))
       ++ [(NIM_ADD, tooltip_for (GetCurrentTaskbarSetting stack_cc
              (registry (fresh (world_with keyPath (blob_of x03 64))))).1);
           (NIM_DELETE, tooltip_for (GetCurrentTaskbarSetting stack_cc
              (registry (fresh (world_with keyPath (blob_of x03 64))))).1)]
  /\ destroyed (shell_calls (SetupTrayIcon 976 0 65539 stack_cc 4242
                               (SetupTrayIcon 976 0 65539 stack_cc 4242
                                  (fresh (world_with keyPath (blob_of x03 64))))))
     = destroyed (shell_calls (fresh (world_with keyPath (blob_of x03 64)))).
Proof.
  apply (setup_then_remove 976 0 65539 stack_cc 4242
           (fresh (world_with keyPath (blob_of x03 64)))). lia.
Defined.

End TrayMore.

(** ** The command line and the start of the program *)

Section CommandLineMore.
Import Desktop CommandLine.

Lemma towlower_idem c : towlower (towlower c) = towlower c.
Proof. destruct c as [[] [] [] [] [] [] [] []]; reflexivity. Qed.

Lemma wcslwr_idem a : wcslwr (wcslwr a) = wcslwr a.
Proof. induction a as [|c a IH]; [done|]. cbn. by rewrite towlower_idem, IH. Qed.

Lemma wcsicmp_eq_wcslwr a b : wcsicmp_eq (wcslwr a) (wcslwr b) = wcsicmp_eq a b.
Proof. unfold wcsicmp_eq. by rewrite !wcslwr_idem. Qed.

Lemma scan_arguments_true option arguments :
  scan_arguments option arguments = true <->
  exists i a, arguments !! i = Some a /\ wcsicmp_eq a option = true.
Proof.
  induction arguments as [|x rest IH]; cbn [scan_arguments].
  - split; [done|]. by intros (i & a & ? & _).
  - destruct (wcsicmp_eq x option) eqn:E.
    + split; [|done]. intros _. by exists 0%nat, x.
    + rewrite IH. split.
      * intros (i & a & Hi & Ha). by exists (S i), a.
      * intros ([|i] & a & Hi & Ha); cbn in Hi.
        -- injection Hi as ->. congruence.
        -- by exists i, a.
Qed.

Lemma scan_arguments_wcslwr option arguments :
  scan_arguments (wcslwr option) (wcslwr <$> arguments)
  = scan_arguments option arguments.
Proof.
  induction arguments as [|x rest IH]; [done|].
  cbn [fmap list_fmap scan_arguments]. fold (wcslwr <$> rest).
  by rewrite wcsicmp_eq_wcslwr, IH.
Qed.

(** X16.  [HasCommandLineOption] answers true exactly when some argument
    after the program name equals the option up to the case of the letters
    A-Z; the program name itself ([argv[0]]) is never compared, and neither
    the case of the option nor that of the arguments matters. *)
Theorem has_command_line_option_spec argv option :
  (HasCommandLineOption argv option = true <->
   exists i a, (1 <= i)%nat /\ argv !! i = Some a /\ wcsicmp_eq a option = true)
  /\ HasCommandLineOption (take 1 argv) option = false
  /\ HasCommandLineOption (wcslwr <$> argv) (wcslwr option)
     = HasCommandLineOption argv option.
Proof.
  unfold HasCommandLineOption. split; [|split].
  - rewrite scan_arguments_true. split.
    + intros (i & a & Hi & Ha). rewrite lookup_drop in Hi.
      exists (1 + i)%nat, a. split; [lia|done].
    + intros (i & a & Hle & Hi & Ha). exists (i - 1)%nat, a.
      rewrite lookup_drop. by replace (1 + (i - 1))%nat with i by lia.
  - by destruct argv as [|? [|? ?]].
  - rewrite <- fmap_drop. apply scan_arguments_wcslwr.
Qed.

(** X17.  The "--tray" switch decides nothing: [TRAY_MODE] being true, the
    program is resident for every command line.  [wWinMain] never takes the
    run-once branch; it fails when COM initialisation or the creation of its
    window fails and otherwise sets up the tray icon and enters the message
    loop. *)
Theorem wWinMain_is_always_resident hr argv created :
  wWinMain_start hr argv created ≠ RunOnce
  /\ wWinMain_start hr argv created = wWinMain_start hr [] created
  /\ (wWinMain_start hr argv created = Resident created
      <-> 0 <= hr /\ created ≠ 0).
Proof.
  unfold wWinMain_start, FAILED, TRAY_MODE. rewrite !orb_true_r. cbn [negb].
  destruct (Z.ltb_spec hr 0), (Z.eqb_spec created 0);
    repeat split; try done; try lia; try (intros [? ?]; lia || done).
Qed.

End CommandLineMore.

(** ** Putting the foreground application back *)

Section ForegroundMore.
Import Desktop Foreground.

Variable pid_of : Z -> Z.
Variable exe_of : Z -> option string.
Variable title_of : Z -> string.

Lemma find_candidate_found appInfo ws :
  find_candidate pid_of title_of appInfo ws ≠ 0 ->
  exists before w after,
    ws = before ++ w :: after /\
    w_hwnd w = find_candidate pid_of title_of appInfo ws /\
    is_candidate pid_of title_of appInfo w = true /\
    Forall (fun w' => is_candidate pid_of title_of appInfo w' = false) before.
Proof.
  induction ws as [|x rest IH]; cbn [find_candidate]; [done|].
  destruct (is_candidate pid_of title_of appInfo x) eqn:E.
  - intros _. by exists [], x, rest.
  - intros H. destruct (IH H) as (before & w & after & -> & Hh & Hc & Hb).
    exists (x :: before), w, after. repeat split; try done. by constructor.
Qed.

Lemma find_candidate_none appInfo ws :
  Forall (fun w => is_candidate pid_of title_of appInfo w = false) ws ->
  find_candidate pid_of title_of appInfo ws = 0.
Proof.
  induction 1 as [|x rest Hx _ IH]; cbn [find_candidate]; [done|].
  by rewrite Hx.
Qed.

Lemma find_candidate_first appInfo before w after :
  Forall (fun w' => is_candidate pid_of title_of appInfo w' = false) before ->
  is_candidate pid_of title_of appInfo w = true ->
  find_candidate pid_of title_of appInfo (before ++ w :: after) = w_hwnd w.
Proof.
  intros Hb Hw. induction Hb as [|x rest Hx _ IH]; cbn [app find_candidate].
  - by rewrite Hw.
  - by rewrite Hx.
Qed.

Lemma is_candidate_true appInfo w :
  is_candidate pid_of title_of appInfo w = true ->
  w_visible w = true /\ pid_of (w_hwnd w) = processId appInfo /\
  (GetWindowText (title_of (w_hwnd w)) = windowTitle appInfo \/
   windowTitle appInfo ≠ "" /\
   wcsstr_found (GetWindowText (title_of (w_hwnd w))) (windowTitle appInfo) = true).
Proof.
  unfold is_candidate. destruct (w_visible w); cbn [negb]; [|done].
  destruct (Z.eqb_spec (pid_of (w_hwnd w)) (processId appInfo)); [|done].
  intros [H|[H1 H2]%andb_true_iff]%orb_true_iff; repeat split; try done.
  - left. by apply String.eqb_eq.
  - right. split; [|done]. intros E. rewrite E in H2. done.
Qed.

Lemma touched_show_and_focus appInfo h :
  touched (show_and_focus appInfo h) = [h; h; h; h].
Proof. done. Qed.

(** What the search branch of [RestoreForegroundApp] does. *)
Lemma restore_foreground_search appInfo s :
  hwnd appInfo = 0 \/ IsWindow s (hwnd appInfo) = false ->
  RestoreForegroundApp pid_of title_of appInfo s = [] \/
  exists before w after,
    zorder s = before ++ w :: after /\
    touched (RestoreForegroundApp pid_of title_of appInfo s)
    = [w_hwnd w; w_hwnd w; w_hwnd w; w_hwnd w] /\
    w_visible w = true /\ pid_of (w_hwnd w) = processId appInfo /\
    (GetWindowText (title_of (w_hwnd w)) = windowTitle appInfo \/
     windowTitle appInfo ≠ "" /\
     wcsstr_found (GetWindowText (title_of (w_hwnd w))) (windowTitle appInfo)
     = true) /\
    Forall (fun w' => is_candidate pid_of title_of appInfo w' = false) before.
Proof.
  intros Hgone. unfold RestoreForegroundApp.
  assert ((hwnd appInfo =? 0) || negb (IsWindow s (hwnd appInfo)) = true) as ->.
  { destruct Hgone as [->| ->]; [done|]. by rewrite orb_true_r. }
  destruct (Z.eqb_spec (find_candidate pid_of title_of appInfo (zorder s)) 0)
    as [E|E]; cbn [negb]; [by left|right].
  destruct (find_candidate_found _ _ E) as (before & w & after & Hz & Hh & Hc & Hb).
  destruct (is_candidate_true _ _ Hc) as (Hv & Hp & Ht).
  exists before, w, after. rewrite touched_show_and_focus, <- Hh. done.
Qed.

(** X18.  [RestoreForegroundApp] acts on one window or on none.  While the
    recorded handle still names a window it acts on that handle without
    looking further.  Once the handle is gone it acts on the first window
    in Z order that is visible, belongs to the recorded process id and
    whose title equals the recorded title or, the recorded title being
    non-empty, contains it: whenever some window passes that test, the
    first one that does is shown and focused (its handle not being [NULL]),
    every window stacked above the chosen one fails the test, and when no
    window passes it nothing is called at all. *)
Theorem restore_foreground_target appInfo s :
  (hwnd appInfo ≠ 0 -> IsWindow s (hwnd appInfo) = true ->
   touched (RestoreForegroundApp pid_of title_of appInfo s)
   = [hwnd appInfo; hwnd appInfo; hwnd appInfo; hwnd appInfo])
  /\ (hwnd appInfo = 0 \/ IsWindow s (hwnd appInfo) = false ->
      RestoreForegroundApp pid_of title_of appInfo s = [] \/
      exists before w after,
        zorder s = before ++ w :: after /\
        touched (RestoreForegroundApp pid_of title_of appInfo s)
        = [w_hwnd w; w_hwnd w; w_hwnd w; w_hwnd w] /\
        w_visible w = true /\ pid_of (w_hwnd w) = processId appInfo /\
        (GetWindowText (title_of (w_hwnd w)) = windowTitle appInfo \/
         windowTitle appInfo ≠ "" /\
         wcsstr_found (GetWindowText (title_of (w_hwnd w))) (windowTitle appInfo)
         = true) /\
        Forall (fun w' => is_candidate pid_of title_of appInfo w' = false) before)
  /\ (hwnd appInfo = 0 \/ IsWindow s (hwnd appInfo) = false ->
      Forall (fun w => is_candidate pid_of title_of appInfo w = false) (zorder s) ->
      RestoreForegroundApp pid_of title_of appInfo s = [])
  /\ (hwnd appInfo = 0 \/ IsWindow s (hwnd appInfo) = false ->
      forall before w after,
        zorder s = before ++ w :: after ->
        Forall (fun w' => is_candidate pid_of title_of appInfo w' = false) before ->
        is_candidate pid_of title_of appInfo w = true ->
        w_hwnd w ≠ 0 ->
        RestoreForegroundApp pid_of title_of appInfo s
        = show_and_focus appInfo (w_hwnd w)).
Proof.
  unfold RestoreForegroundApp. split; [|split; [|split]].
  - intros Hh Hw. destruct (Z.eqb_spec (hwnd appInfo) 0); [done|].
    by rewrite Hw.
  - intros Hgone. fold (RestoreForegroundApp pid_of title_of appInfo s).
    by apply restore_foreground_search.
  - intros Hgone Hnone.
    assert ((hwnd appInfo =? 0) || negb (IsWindow s (hwnd appInfo)) = true) as ->.
    { destruct Hgone as [->| ->]; [done|]. by rewrite orb_true_r. }
    by rewrite find_candidate_none.
  - intros Hgone before w after Hz Hb Hw Hh.
    assert ((hwnd appInfo =? 0) || negb (IsWindow s (hwnd appInfo)) = true) as ->.
    { destruct Hgone as [->| ->]; [done|]. by rewrite orb_true_r. }
    rewrite Hz, (find_candidate_first _ _ _ _ Hb Hw).
    by destruct (Z.eqb_spec (w_hwnd w) 0).
Qed.

(** X19.  Capture and restore of the foreground application compose as
    follows.  If a window was in the foreground at capture and its handle
    still names a window at restore, exactly that window is shown and
    focused, and it is shown restored (SW_RESTORE) when it was captured
    minimised - the restore never minimises anything.  If no window was in
    the foreground at capture, the record is empty and the restore can only
    act on a visible window whose process id reads 0 and whose title is
    empty. *)
Theorem foreground_round_trip s s' :
  (foreground s ≠ 0 -> IsWindow s' (foreground s) = true ->
   touched (RestoreForegroundApp pid_of title_of
              (GetForegroundAppInfo pid_of exe_of title_of s) s')
   = [foreground s; foreground s; foreground s; foreground s]
   /\ shown_as (RestoreForegroundApp pid_of title_of
                  (GetForegroundAppInfo pid_of exe_of title_of s) s')
      = [let cmd := showCmd (placement_of s (foreground s) (placement no_info)) in
         if cmd =? SW_SHOWMAXIMIZED then SW_SHOWMAXIMIZED
         else if cmd =? SW_SHOWMINIMIZED then SW_RESTORE else SW_NORMAL])
  /\ (forall cmd,
        cmd ∈ shown_as (RestoreForegroundApp pid_of title_of
                          (GetForegroundAppInfo pid_of exe_of title_of s) s') ->
        cmd = SW_SHOWMAXIMIZED \/ cmd = SW_RESTORE \/ cmd = SW_NORMAL)
  /\ (foreground s = 0 ->
      forall h,
        h ∈ touched (RestoreForegroundApp pid_of title_of
                       (GetForegroundAppInfo pid_of exe_of title_of s) s') ->
        exists w, w ∈ zorder s' /\ w_hwnd w = h /\ w_visible w = true /\
                  pid_of h = 0 /\ GetWindowText (title_of h) = "").
Proof.
  split; [|split].
  - intros Hf Hw. unfold GetForegroundAppInfo, RestoreForegroundApp.
    destruct (Z.eqb_spec (foreground s) 0); [done|]. cbn [negb hwnd placement].
    destruct (Z.eqb_spec (foreground s) 0); [done|]. rewrite Hw. cbn [negb orb].
    done.
  - intros cmd. unfold RestoreForegroundApp.
    set (info := GetForegroundAppInfo pid_of exe_of title_of s).
    assert (forall h, cmd ∈ shown_as (show_and_focus info h) ->
              cmd = SW_SHOWMAXIMIZED \/ cmd = SW_RESTORE \/ cmd = SW_NORMAL) as Hs.
    { intros h. cbn. intros ->%list_elem_of_singleton.
      repeat case_match; auto. }
    repeat case_match; try apply Hs. by intros ?%elem_of_nil.
  - intros Hf h. unfold GetForegroundAppInfo. rewrite Hf. cbn [Z.eqb negb].
    intros Hin.
    destruct (restore_foreground_search no_info s' (or_introl eq_refl))
      as [E|(before & w & after & Hz & Ht & Hv & Hp & Htitle & _)].
    + rewrite E in Hin. by apply elem_of_nil in Hin.
    + rewrite Ht in Hin.
      assert (h = w_hwnd w) as ->.
      { repeat (apply elem_of_cons in Hin as [Hin|Hin]; [done|]).
        by apply elem_of_nil in Hin. }
      exists w. split; [rewrite Hz; apply elem_of_app; right; left|].
      repeat split; try done.
      destruct Htitle as [?|[? ?]]; done.
Qed.

End ForegroundMore.

(** ** Capture and replay, further *)

Section SessionMore.
Import Desktop Session Samples.

Variable shell_opens : string -> Screen -> Screen.

Lemma capture_window_record s w z m :
  Forall (fun e => e.1 < z) m ->
  capture_window s w z m
  = m ++ ((fun e => (z, e)) <$> option_list (record_of s w z)).
Proof.
  intros Hm. unfold capture_window, record_of, shown_folder.
  destruct (w_visible w); [|by rewrite app_nil_r].
  destruct (is_cabinet w); [|by rewrite app_nil_r].
  destruct (w_folder w) as [p|]; [|by rewrite app_nil_r].
  by rewrite map_assign_above.
Qed.

Lemma capture_loop_records s ws : forall z m,
  0 <= z -> z + Z.of_nat (length ws) <= 2 ^ 32 ->
  Forall (fun e => e.1 < z) m ->
  snd <$> capture_loop s ws z m = (snd <$> m) ++ records_from s ws z.
Proof.
  induction ws as [|w rest IH]; intros z m Hz Hlen Hm.
  - cbn. by rewrite app_nil_r.
  - cbn [capture_loop records_from]. rewrite capture_window_record by done.
    assert (Forall (fun e => e.1 < z + 1)
              (m ++ ((fun e => (z, e)) <$> option_list (record_of s w z)))) as Hm'.
    { apply Forall_app. split.
      - eapply Forall_impl; [exact Hm|]. cbn. lia.
      - apply Forall_fmap, Forall_forall. intros e _. cbn. lia. }
    assert (snd <$> ((fun e => (z, e)) <$> option_list (record_of s w z))
            = option_list (record_of s w z)) as Hsnd.
    { rewrite <- list_fmap_compose. apply list_fmap_id. }
    destruct rest as [|w' rest'].
    + cbn [capture_loop records_from]. by rewrite fmap_app, Hsnd, app_nil_r.
    + cbn [length] in Hlen. rewrite Z.mod_small by lia.
      rewrite IH; [|lia|cbn [length]; lia|done].
      by rewrite fmap_app, Hsnd, app_assoc.
Qed.

Lemma records_from_lookup s ws : forall z e,
  e ∈ records_from s ws z ->
  z <= zOrder e /\
  exists w, ws !! Z.to_nat (zOrder e - z) = Some w /\ record_of s w (zOrder e) = Some e.
Proof.
  induction ws as [|w rest IH]; intros z e; cbn [records_from].
  - by intros ?%elem_of_nil.
  - intros [Hin|Hin]%elem_of_app.
    + destruct (record_of s w z) as [e'|] eqn:Hr; cbn in Hin;
        [|by apply elem_of_nil in Hin].
      apply list_elem_of_singleton in Hin as ->.
      assert (zOrder e' = z) as Hz.
      { unfold record_of in Hr. destruct (shown_folder w); [|done].
        by injection Hr as <-. }
      split; [lia|]. exists w. rewrite Hz, Z.sub_diag. done.
    + destruct (IH _ _ Hin) as (Hle & w' & Hl & Hr).
      split; [lia|]. exists w'. split; [|done].
      replace (Z.to_nat (zOrder e - z)) with (S (Z.to_nat (zOrder e - (z + 1))))
        by lia.
      done.
Qed.

Lemma records_from_sorted s ws : forall z,
  StronglySorted (fun a b => zOrder a < zOrder b) (records_from s ws z).
Proof.
  induction ws as [|w rest IH]; intros z; cbn [records_from]; [constructor|].
  destruct (record_of s w z) as [e|] eqn:Hr; cbn; [|apply IH].
  constructor; [apply IH|].
  assert (zOrder e = z) as Hz.
  { unfold record_of in Hr. destruct (shown_folder w); [|done].
    by injection Hr as <-. }
  apply Forall_forall. intros e' Hin.
  destruct (records_from_lookup _ _ _ _ Hin) as [Hle _]. lia.
Qed.

(** X20.  What [GetOpenExplorerWindows] hands back can be looked up on the
    screen it was taken from: every record carries in [zOrder] the depth of
    its window in the Z order, the window found at that depth is visible, of
    class CabinetWClass, has the recorded handle, placement and normal
    rectangle and shows the recorded path, and the records come in strictly
    increasing depth (front window first). *)
Theorem capture_records_windows s :
  Z.of_nat (length (zorder s)) <= 2 ^ 32 ->
  StronglySorted (fun a b => zOrder a < zOrder b) (GetOpenExplorerWindows s)
  /\ forall e, e ∈ GetOpenExplorerWindows s ->
       0 <= zOrder e /\
       exists w,
         zorder s !! Z.to_nat (zOrder e) = Some w /\
         w_visible w = true /\ is_cabinet w = true /\
         w_folder w = Some (path e) /\ w_hwnd w = hwnd e /\
         w_placement w = placement e /\
         rcNormalPosition (w_placement w) = position e.
Proof.
  intros L. unfold GetOpenExplorerWindows.
  rewrite capture_loop_records; [|lia|lia|constructor]. cbn [fmap list_fmap app].
  split; [apply records_from_sorted|].
  intros e Hin. destruct (records_from_lookup _ _ _ _ Hin) as (Hle & w & Hl & Hr).
  split; [done|]. exists w. rewrite Z.sub_0_r in Hl. split; [done|].
  unfold record_of, shown_folder in Hr.
  destruct (w_visible w); [|done]. destruct (is_cabinet w); [|done].
  destruct (w_folder w) as [p|]; [|done]. by injection Hr as <-.
Qed.

Lemma capture_records_windows_witness :
  StronglySorted (fun a b => zOrder a < zOrder b) (GetOpenExplorerWindows screen_before)
  /\ forall e, e ∈ GetOpenExplorerWindows screen_before ->
       0 <= zOrder e /\
       exists w,
         zorder screen_before !! Z.to_nat (zOrder e) = Some w /\
         w_visible w = true /\ is_cabinet w = true /\
         w_folder w = Some (path e) /\ w_hwnd w = hwnd e /\
         w_placement w = placement e /\
         rcNormalPosition (w_placement w) = position e.
Proof.
  apply (capture_records_windows screen_before). vm_compute. discriminate.
Defined.

Lemma capture_loop_nothing s ws : forall z m,
  Forall (fun w => shown_folder w = None) ws ->
  capture_loop s ws z m = m.
Proof.
  induction ws as [|w rest IH]; intros z m Hn; [done|].
  apply Forall_cons in Hn as [Hw Hrest].
  cbn [capture_loop]. rewrite IH by done.
  unfold capture_window. unfold shown_folder in Hw.
  destruct (w_visible w); [|done]. destruct (is_cabinet w); [|done].
  by rewrite Hw.
Qed.

(** X21.  With no folder window to record - none that is visible, of the
    folder class and has a resolvable path - the capture is empty however
    many other windows there are, and replaying it does nothing: the shell
    is asked to open nothing and the screen is left as it is. *)
Theorem nothing_captured_nothing_replayed s s' :
  Forall (fun w => shown_folder w = None) (zorder s) ->
  GetOpenExplorerWindows s = []
  /\ RestoreExplorerWindows shell_opens (GetOpenExplorerWindows s) s'
     = {| screen := s'; openedPaths := ∅; made := [] |}.
Proof.
  intros Hn.
  assert (GetOpenExplorerWindows s = []) as ->.
  { unfold GetOpenExplorerWindows. by rewrite capture_loop_nothing. }
  done.
Qed.

Lemma restore_skips_pathless (ws : list ExplorerWindow) r :
  Forall (fun w => path w = "") ws ->
  foldl (fun r window => restore_window shell_opens window r) r ws = r.
Proof.
  revert r. induction ws as [|w ws IH]; intros r Hn; [done|].
  apply Forall_cons in Hn as [Hw Hrest]. cbn [foldl].
  rewrite IH by done. unfold restore_window. by rewrite Hw.
Qed.

(** X22.  Whatever the shell does and whichever windows are found, the
    replay asks the shell to open each captured window that has a path
    exactly once, in the reverse of the captured order, and asks nothing for
    a window recorded with an empty path; a capture holding only such
    windows is replayed without any call. *)
Theorem replay_launch_order ws s :
  launched (made (RestoreExplorerWindows shell_opens ws s)) = launchable (rev ws)
  /\ (length (launched (made (RestoreExplorerWindows shell_opens ws s)))
      <= length ws)%nat
  /\ (Forall (fun w => path w = "") ws ->
      RestoreExplorerWindows shell_opens ws s
      = {| screen := s; openedPaths := ∅; made := [] |}).
Proof.
  assert (launched (made (RestoreExplorerWindows shell_opens ws s))
          = launchable (rev ws)) as Hl.
  { unfold RestoreExplorerWindows. by rewrite launched_restore_loop. }
  split; [done|]. split.
  - rewrite Hl. unfold launchable.
    etransitivity; [apply length_filter|]. by rewrite length_fmap, length_rev.
  - intros Hn. unfold RestoreExplorerWindows, restore_loop.
    apply restore_skips_pathless. by apply List.Forall_rev.
Qed.

Lemma restore_window_calls window r :
  exists new,
    made (restore_window shell_opens window r) = made r ++ new /\
    (placement_state (showCmd (placement window)) ->
     Forall (fun c => puts_away c = false) new).
Proof.
  unfold restore_window.
  destruct (negb (String.eqb (path window) "")).
  - destruct (FindFolderWindow _ _) as [h|]; cbn [made].
    + eexists. rewrite <- !app_assoc. split; [done|].
      intros [->|[->| ->]]; cbn; repeat constructor.
    + eexists. split; [done|]. intros _. by repeat constructor.
  - exists []. split; [by rewrite app_nil_r|]. by constructor.
Qed.

Lemma restore_fold_calls (ws : list ExplorerWindow) : forall r,
  Forall (fun w => placement_state (showCmd (placement w))) ws ->
  Forall (fun c => puts_away c = false) (made r) ->
  Forall (fun c => puts_away c = false)
    (made (foldl (fun r window => restore_window shell_opens window r) r ws)).
Proof.
  induction ws as [|w ws IH]; intros r Hs Hr; [done|].
  apply Forall_cons in Hs as [Hw Hrest]. cbn [foldl]. apply IH; [done|].
  destruct (restore_window_calls w r) as (new & -> & Hnew).
  apply Forall_app. split; [done|]. by apply Hnew.
Qed.

(** X23.  The replay never minimises a window and never sends one to the
    bottom of the Z order when the captured show states are those
    [GetWindowPlacement] reports (normal, minimised as SW_SHOWMINIMIZED,
    maximised): lines 680 and 684 test for SW_MINIMIZE, a different value.
    A folder window captured minimised therefore comes back shown normally
    and re-stacked on top. *)
Theorem replay_never_puts_away ws s :
  Forall (fun w => placement_state (showCmd (placement w))) ws ->
  Forall (fun c => puts_away c = false)
    (made (RestoreExplorerWindows shell_opens ws s)).
Proof.
  intros Hs. unfold RestoreExplorerWindows, restore_loop.
  apply restore_fold_calls; [by apply List.Forall_rev|]. constructor.
Qed.

(** X24.  The search for a relaunched window does not depend on the case
    of the letters A-Z, neither in the path looked for nor in the path a
    window shows, and it only ever returns the handle of a visible window
    whose class is exactly CabinetWClass. *)
Theorem find_folder_window_ignores_case p s :
  FindFolderWindow (wcslwr p) s = FindFolderWindow p s
  /\ (forall h, FindFolderWindow p s = Some h ->
        exists w q, w ∈ zorder s /\ w_hwnd w = h /\ w_visible w = true /\
                    w_class w = "CabinetWClass" /\
                    w_folder w = Some q /\ wcslwr q = wcslwr p).
Proof.
  split.
  - unfold FindFolderWindow. f_equal. f_equal. apply list_filter_iff. intros w.
    destruct (w_folder w) as [q|]; cbn [from_option]; [|done].
    unfold wcsicmp_eq. by rewrite wcslwr_idem.
  - intros h Hf.
    destruct (find_folder_window_found _ _ _ Hf) as (w & q & Hin & Hh & Hc & Hv & Hq & Hcmp).
    exists w, q. repeat split; try done.
    + by apply String.eqb_eq.
    + by apply String.eqb_eq.
Qed.


End SessionMore.

Section SessionMoreWitnesses.
Import Desktop Session Samples.

Lemma nothing_captured_nothing_replayed_witness :
  GetOpenExplorerWindows screen_after = []
  /\ RestoreExplorerWindows explorer_opens (GetOpenExplorerWindows screen_after)
       screen_before
     = {| screen := screen_before; openedPaths := ∅; made := [] |}.
Proof.
  apply (nothing_captured_nothing_replayed explorer_opens screen_after screen_before).
  repeat constructor.
Defined.

Lemma replay_never_puts_away_witness :
  Forall (fun c => puts_away c = false)
    (made (RestoreExplorerWindows explorer_opens
             [{| path := "C:\a"; position := rect0;
                 placement := {| showCmd := SW_SHOWMINIMIZED;
                                 rcNormalPosition := rect0 |};
                 hwnd := 10; focusedHwnd := NULL; zOrder := 0 |}]
             screen_after)).
Proof.
  apply (replay_never_puts_away explorer_opens).
  apply Forall_cons. split; [right; left; reflexivity | constructor].
Defined.

End SessionMoreWitnesses.

(** ** Killing the shell, further *)

Section ShellMore.
Import Desktop Session Shell.

Variable ourProcessId : Z.
Variable may_open : Z -> bool.

Lemma asked_to_close_windows ws :
  asked_to_close (close_folder_windows ws)
  = w_hwnd <$> filter (fun w => is_cabinet w = true) ws.
Proof.
  induction ws as [|w ws IH]; [done|]. cbn [close_folder_windows].
  unfold asked_to_close in *. rewrite omap_app, IH.
  destruct (is_cabinet w) eqn:E.
  - by rewrite filter_cons_True.
  - rewrite filter_cons_False; [done|]. by rewrite E.
Qed.

Lemma asked_to_close_kill_loop entries :
  asked_to_close (kill_loop ourProcessId may_open entries) = [].
Proof.
  induction entries as [|e entries IH]; [done|]. cbn [kill_loop].
  unfold asked_to_close in *. rewrite omap_app, IH.
  by repeat case_match.
Qed.

(** X25.  Before killing, [WM_CLOSE] is posted to every top-level window of
    class CabinetWClass, in Z order, whether or not it is visible and
    whether or not its folder path resolves, and to no other window.  On
    one and the same screen every window the capture recorded is therefore
    among those asked to close. *)
Theorem kill_asks_every_folder_window_to_close s snapshot :
  asked_to_close (KillExplorerProcess ourProcessId may_open s snapshot)
  = w_hwnd <$> filter (fun w => is_cabinet w = true) (zorder s)
  /\ (Z.of_nat (length (zorder s)) <= 2 ^ 32 ->
      forall e, e ∈ GetOpenExplorerWindows s ->
        hwnd e ∈ asked_to_close
                   (KillExplorerProcess ourProcessId may_open s snapshot)).
Proof.
  assert (asked_to_close (KillExplorerProcess ourProcessId may_open s snapshot)
          = w_hwnd <$> filter (fun w => is_cabinet w = true) (zorder s)) as Ha.
  { unfold KillExplorerProcess, asked_to_close. rewrite omap_app.
    fold (asked_to_close (close_folder_windows (zorder s))).
    fold (asked_to_close (kill_loop ourProcessId may_open snapshot)).
    by rewrite asked_to_close_windows, asked_to_close_kill_loop, app_nil_r. }
  split; [done|]. intros L e Hin. rewrite Ha.
  unfold GetOpenExplorerWindows in Hin.
  rewrite capture_loop_records in Hin; [|lia|lia|constructor].
  cbn [fmap list_fmap app] in Hin.
  destruct (records_from_lookup _ _ _ _ Hin) as (_ & w & Hl & Hr).
  unfold record_of, shown_folder in Hr.
  destruct (w_visible w); [|done]. destruct (is_cabinet w) eqn:Hc; [|done].
  destruct (w_folder w); [|done]. injection Hr as <-. cbn [hwnd].
  apply list_elem_of_fmap_2, list_elem_of_filter. split; [done|].
  by eapply list_elem_of_lookup_2.
Qed.

Lemma kill_loop_handles entries :
  terminated (kill_loop ourProcessId may_open entries)
  = th32ProcessID <$>
      filter (fun e => (wcscmp_eq (szExeFile e) "explorer.exe"
                        && negb (th32ProcessID e =? ourProcessId)
                        && may_open (th32ProcessID e)) = true) entries
  /\ process_handles (kill_loop ourProcessId may_open entries)
     = terminated (kill_loop ourProcessId may_open entries)
  /\ closed_process_handles (kill_loop ourProcessId may_open entries)
     = terminated (kill_loop ourProcessId may_open entries).
Proof.
  induction entries as [|e entries (IH1 & IH2 & IH3)]; [done|].
  cbn [kill_loop]. unfold terminated, process_handles, closed_process_handles in *.
  rewrite !omap_app, IH2, IH3, IH1.
  destruct (wcscmp_eq (szExeFile e) "explorer.exe"
            && negb (th32ProcessID e =? ourProcessId)) eqn:Eg;
    destruct (may_open (th32ProcessID e)) eqn:Eo.
  - rewrite filter_cons_True by (by rewrite Eg, Eo). done.
  - rewrite filter_cons_False by (by rewrite Eg, Eo). done.
  - rewrite filter_cons_False by (by rewrite Eg). done.
  - rewrite filter_cons_False by (by rewrite Eg). done.
Qed.

(** X26.  The kill loop terminates, once per entry and in snapshot order,
    exactly the entries named explorer.exe (compared exactly, case
    included) whose id is not the caller's and for which [OpenProcess]
    gives a handle; the process handles it obtains, those it passes to
    [TerminateProcess] and those it closes are the same, in the same
    order. *)
Theorem kill_terminates_in_order s snapshot :
  terminated (KillExplorerProcess ourProcessId may_open s snapshot)
  = th32ProcessID <$>
      filter (fun e => (wcscmp_eq (szExeFile e) "explorer.exe"
                        && negb (th32ProcessID e =? ourProcessId)
                        && may_open (th32ProcessID e)) = true) snapshot
  /\ process_handles (KillExplorerProcess ourProcessId may_open s snapshot)
     = terminated (KillExplorerProcess ourProcessId may_open s snapshot)
  /\ closed_process_handles (KillExplorerProcess ourProcessId may_open s snapshot)
     = terminated (KillExplorerProcess ourProcessId may_open s snapshot).
Proof.
  destruct (kill_loop_handles snapshot) as (H1 & H2 & H3).
  assert (forall f : ProcCall -> option Z,
            (forall h m, f (Call_PostMessage h m) = None) ->
            omap f (close_folder_windows (zorder s)) = []) as Hnone.
  { intros f Hf. induction (zorder s) as [|w ws IH]; [done|].
    cbn [close_folder_windows]. rewrite omap_app, IH.
    destruct (is_cabinet w); cbn; by rewrite ?Hf. }
  unfold KillExplorerProcess, terminated, process_handles, closed_process_handles
    in *.
  rewrite !omap_app, !Hnone by done. cbn [app]. by rewrite H2, H3, H1.
Qed.

End ShellMore.

(** ** The watchdog, further *)

Section WatchdogMore.
Import Watchdog.

Lemma count_posted_cons pc ts :
  count_posted (pc :: ts) =
  ((if has_posted pc then 1 else 0) + count_posted ts)%nat.
Proof.
  unfold count_posted. destruct (has_posted pc) eqn:E.
  - by rewrite filter_cons_True.
  - rewrite filter_cons_False; [done|]. by rewrite E.
Qed.

Lemma count_posted_insert ts i pc pc' :
  ts !! i = Some pc ->
  (count_posted (<[i := pc']> ts) + (if has_posted pc then 1 else 0)
   = count_posted ts + (if has_posted pc' then 1 else 0))%nat.
Proof.
  revert i. induction ts as [|t ts IH]; intros [|i] H; try done.
  - cbn in H. injection H as ->. change (<[0%nat:=pc']> (pc :: ts)) with (pc' :: ts).
    rewrite !count_posted_cons.
    destruct (has_posted pc), (has_posted pc'); lia.
  - cbn in H. change (<[S i:=pc']> (t :: ts)) with (t :: <[i:=pc']> ts).
    rewrite !count_posted_cons. specialize (IH i H).
    destruct (has_posted t), (has_posted pc), (has_posted pc'); lia.
Qed.

Lemma count_posted_le ts : (count_posted ts <= length ts)%nat.
Proof. apply length_filter. Qed.

Lemma count_posted_app ts ts' :
  count_posted (ts ++ ts') = (count_posted ts + count_posted ts')%nat.
Proof. unfold count_posted. by rewrite filter_app, length_app. Qed.

Lemma posted_inv_step s s' : posted_inv s -> step s s' -> posted_inv s'.
Proof.
  unfold posted_inv. intros H Hstep.
  destruct Hstep as [s Hpc|s Hpc|s Hpc|s Hpc|s Hpc|s h Hpc|s Hpc
                    |s i Hi|s i Hi|s i Hi|s i Hi|s i Hi];
    cbn [set_main set_watchdog posted g_hwnd_valid watchdogs];
    try done;
    try match goal with
        | |- context [<[i := ?pc']> (watchdogs s)] =>
            pose proof (count_posted_insert _ _ _ pc' Hi) as Hc;
            cbn [has_posted] in Hc
        end.
  - rewrite count_posted_app. change (count_posted [At_Sleep]) with 0%nat.
    destruct (g_hwnd_valid s); lia.
  - destruct (g_hwnd_valid s); lia.
  - destruct (g_hwnd_valid s); lia.
  - destruct (g_hwnd_valid s); lia.
  - destruct (g_hwnd_valid s); lia.
  - destruct (g_hwnd_valid s); lia.
Qed.

Lemma no_tray_inv_step s s' : no_tray_inv s -> step s s' -> no_tray_inv s'.
Proof.
  unfold no_tray_inv. intros H Hstep.
  destruct Hstep as [s Hpc|s Hpc|s Hpc|s Hpc|s Hpc|s h Hpc|s Hpc
                    |s i Hi|s i Hi|s i Hi|s i Hi|s i Hi];
    cbn [set_main set_watchdog pc_main g_trayMode watchdogs];
    intros Ht; destruct (H Ht) as [Hw Hm];
    try (split; [done|congruence]);
    try (rewrite Hw in Hi; done).
  split; [done|]. by rewrite Ht.
Qed.

(** X27.  In every reachable state the number of [WM_TASKBARCREATED]
    messages posted so far is, when the hidden window exists, the number of
    watchdog threads that have passed lines 103-105, and zero when it does
    not: each watchdog posts once and never again, so the messages never
    outnumber the watchdogs created.  Outside tray mode no watchdog is ever
    created and nothing is posted. *)
Theorem watchdog_posts_once s :
  reachable s ->
  posted s = (if g_hwnd_valid s then count_posted (watchdogs s) else 0%nat)
  /\ (posted s <= length (watchdogs s))%nat
  /\ (g_trayMode s = false -> watchdogs s = [] /\ posted s = 0%nat).
Proof.
  intros (tray & hv & Hr).
  assert (posted_inv s /\ no_tray_inv s) as [Hp Hn].
  { revert s Hr. apply rtc_ind_r.
    - split; [by destruct hv|]. by intros _.
    - intros s s' _ Hstep [IH1 IH2].
      split; [by eapply posted_inv_step|by eapply no_tray_inv_step]. }
  unfold posted_inv in Hp. split; [done|].
  pose proof (count_posted_le (watchdogs s)) as Hle.
  split; [destruct (g_hwnd_valid s); lia|].
  intros Ht. destruct (Hn Ht) as [Hw _]. split; [done|].
  rewrite Hp, Hw. by destruct (g_hwnd_valid s).
Qed.

Lemma watchdog_posts_once_witness :
  posted Samples.returning_next_to_new
  = (if g_hwnd_valid Samples.returning_next_to_new
     then count_posted (watchdogs Samples.returning_next_to_new) else 0%nat)
  /\ (posted Samples.returning_next_to_new
      <= length (watchdogs Samples.returning_next_to_new))%nat
  /\ (g_trayMode Samples.returning_next_to_new = false ->
      watchdogs Samples.returning_next_to_new = [] /\
      posted Samples.returning_next_to_new = 0%nat).
Proof.
  apply (watchdog_posts_once Samples.returning_next_to_new).
  exists true, true.
  eapply rtc_l; [by apply main_enter|]; vm_compute.
  eapply rtc_l; [by apply main_set_restarting|]; vm_compute.
  eapply rtc_l; [by apply main_guard|]; vm_compute.
  eapply rtc_l; [by apply main_create_thread|]; vm_compute.
  eapply rtc_l; [by eapply main_store_handle|]; vm_compute.
  eapply rtc_l; [by apply main_finish|]; vm_compute.
  eapply rtc_l; [by apply (watchdog_sleep _ 0)|]; vm_compute.
  eapply rtc_l; [by apply (watchdog_post _ 0)|]; vm_compute.
  eapply rtc_l; [by apply (watchdog_clear_restarting _ 0)|]; vm_compute.
  eapply rtc_l; [by apply (watchdog_clear_handle _ 0)|]; vm_compute.
  eapply rtc_l; [by apply main_enter|]; vm_compute.
  eapply rtc_l; [by apply main_set_restarting|]; vm_compute.
  eapply rtc_l; [by apply main_guard|]; vm_compute.
  eapply rtc_l; [by apply main_create_thread|]; vm_compute.
  apply rtc_refl.
Defined.

End WatchdogMore.
